(** * Cron-Scheduler: scheduling and execution core

    A shallow embedding of [app/models.py], [app/config.py],
    [app/executor.py], the engine of [app/scheduler.py] and the pause
    and resume routes of [app/routers/schedules.py], followed by the
    properties of the specification that are settled on it and by
    further properties of the code.

    Conventions of the embedding.
    - A naive [datetime] is the number of microseconds since
      0001-01-01T00:00:00, a [timedelta] a number of microseconds; dates
      are not bounded, so the [OverflowError] of date arithmetic beyond
      the year 9999 does not occur.
    - A Python [float] is the rational it denotes.  The quotient and
      the product of the latency, which are no doubles in general, are
      rounded to the nearest double by [binary64]; the product of the
      back-off, a double scaled by a power of two, is kept as it is; a
      power of two below the smallest double is 0.0, and the one place
      where CPython refuses to produce a float (conversion of an integer
      of more than 1024 bits) is kept as an [OverflowError].
      [base_retry_delay] is a float, as its annotation and
      [settings.retry_delay_seconds] have it.
    - A Python [str] that the code measures or slices, the text of a
      response, is the list of its characters (code points); [len] and
      slices count characters.
    - Everything the process reads from outside (the wall clock, the
      answers of the HTTP peers, fresh UUIDs) comes from a [World]; the
      [State] counts how much of it has been consumed.
    - A table is the list of its rows, a query a filter over that list.
    - A coroutine runs to completion without interleaving. *)

From Stdlib Require Import ZArith QArith Qminmax Qpower String Ascii List Lia.
From Stdlib Require SpecFloat.
From stdpp Require Import base gmap strings list pretty.

Open Scope Z_scope.

(* ===================================================================== *)
(** * app/models.py                                                       *)
(* ===================================================================== *)

Inductive HttpMethod := GET | POST | PUT | PATCH | DELETE | HEAD.
Inductive ScheduleType := INTERVAL | CRON.
Inductive ScheduleStatus := ACTIVE | PAUSED | EXPIRED | DELETED.

Module RunStatus.
Inductive t := PENDING | RUNNING | SUCCESS | FAILED | TIMEOUT.
End RunStatus.

Module ErrorType.
Inductive t :=
  NONE | TIMEOUT | DNS | CONNECTION | SSL | CLIENT_ERROR | SERVER_ERROR
| UNKNOWN.
End ErrorType.

#[global] Instance HttpMethod_eq_dec : EqDecision HttpMethod.
Proof. solve_decision. Defined.
#[global] Instance ScheduleType_eq_dec : EqDecision ScheduleType.
Proof. solve_decision. Defined.
#[global] Instance ScheduleStatus_eq_dec : EqDecision ScheduleStatus.
Proof. solve_decision. Defined.
#[global] Instance RunStatus_eq_dec : EqDecision RunStatus.t.
Proof. solve_decision. Defined.
#[global] Instance ErrorType_eq_dec : EqDecision ErrorType.t.
Proof. solve_decision. Defined.

(** The [value] of the string-valued enum [HttpMethod]. *)
Definition HttpMethod_value (m : HttpMethod) : string :=
  match m with
  | GET => "GET" | POST => "POST" | PUT => "PUT" | PATCH => "PATCH"
  | DELETE => "DELETE" | HEAD => "HEAD"
  end.

Definition datetime := Z.
Definition timedelta := Z.

(** [timedelta(seconds=n)]. *)
Definition timedelta_seconds (n : Z) : timedelta := n * 1000000.

(** The double nearest to the rational [q], ties to even: the rounding
    of the float operations of CPython.  [m] is [|q|] scaled by [2 ^ k]
    and cut to an integer of 64 bits or more, and [l] tells where the
    part cut off lies between [m] and [m + 1]; [binary_round_aux] is
    the rounding of IEEE 754 to the 53 bits of a double, to fewer bits
    below [2 ^ -1022].  No [timedelta] comes near the largest double; a
    rational beyond it is left as it is. *)
Definition binary64 (q : Q) : Q :=
  let a := Z.abs (Qnum q) in
  let b := Zpos (Qden q) in
  let k := Z.max 0 (64 + Z.log2 b - Z.log2 a) in
  let m := a * 2 ^ k / b in
  let r := (a * 2 ^ k) mod b in
  let l :=
    if r =? 0 then SpecFloat.loc_Exact
    else SpecFloat.loc_Inexact (2 * r ?= b) in
  match SpecFloat.binary_round_aux 53 1024 (Qnum q <? 0) m (- k) l with
  | SpecFloat.S754_zero _ => 0%Q
  | SpecFloat.S754_finite s m e =>
      ((if s then -1 else 1) * inject_Z (Zpos m) * 2 ^ e)%Q
  | _ => q
  end.

(** [timedelta.total_seconds()]: the microseconds divided by [10**6],
    a true division of integers, which CPython rounds once. *)
Definition total_seconds (d : timedelta) : Q :=
  binary64 (inject_Z d / inject_Z 1000000).

(** A [str] as the list of its characters, each the number of its code
    point. *)
Definition str := list N.

(** The rows.  Surrogate keys of attempts and the [created_at] and
    [updated_at] audit columns, which no operation of the core reads, are
    left out.  The relationship attribute [Schedule.target], which every
    query of the core loads eagerly and the non-null foreign key makes
    total, is a field of the schedule.  A column with a scalar default
    holds that default from the first flush on, so it is not optional
    here; [error_type] of an attempt is assigned on both branches of
    [_execute_attempt] before the row is flushed. *)

Record Target := {
  target_id : string;
  target_name : string;
  url : string;
  method : HttpMethod;
  headers : option (gmap string string);
  body_template : option string;
  timeout_seconds : Q;
}.

Record Schedule := {
  schedule_id : string;
  schedule_name : string;
  schedule_target_id : string;
  target : Target;
  schedule_type : ScheduleType;
  interval_seconds : option Z;
  cron_expression : option string;
  duration_seconds : option Z;
  max_runs : option Z;
  schedule_status : ScheduleStatus;
  schedule_started_at : option datetime;
  expires_at : option datetime;
  run_count : Z;
  last_run_at : option datetime;
  next_run_at : option datetime;
}.

Record Run := {
  run_id : string;
  run_schedule_id : string;
  idempotency_key : option string;
  run_status : RunStatus.t;
  scheduled_at : datetime;
  run_started_at : option datetime;
  run_completed_at : option datetime;
  attempt_count : Z;
  final_status_code : option Z;
  final_error_type : ErrorType.t;
  final_error_message : option string;
}.

Record Attempt := {
  attempt_run_id : string;
  attempt_number : Z;
  request_url : string;
  request_method : HttpMethod;
  request_headers : gmap string string;
  request_body : option string;
  started_at : datetime;
  completed_at : option datetime;
  latency_ms : option Q;
  status_code : option Z;
  response_headers : gmap string string;
  response_body : option str;
  response_size_bytes : option Z;
  error_type : ErrorType.t;
  error_message : option string;
}.

(** Attribute assignments on a row. *)

Definition set_run_status (v : RunStatus.t) (r : Run) : Run :=
  {| run_id := run_id r; run_schedule_id := run_schedule_id r;
     idempotency_key := idempotency_key r; run_status := v;
     scheduled_at := scheduled_at r; run_started_at := run_started_at r;
     run_completed_at := run_completed_at r;
     attempt_count := attempt_count r;
     final_status_code := final_status_code r;
     final_error_type := final_error_type r;
     final_error_message := final_error_message r |}.

Definition set_run_started_at (v : option datetime) (r : Run) : Run :=
  {| run_id := run_id r; run_schedule_id := run_schedule_id r;
     idempotency_key := idempotency_key r; run_status := run_status r;
     scheduled_at := scheduled_at r; run_started_at := v;
     run_completed_at := run_completed_at r;
     attempt_count := attempt_count r;
     final_status_code := final_status_code r;
     final_error_type := final_error_type r;
     final_error_message := final_error_message r |}.

Definition set_run_completed_at (v : option datetime) (r : Run) : Run :=
  {| run_id := run_id r; run_schedule_id := run_schedule_id r;
     idempotency_key := idempotency_key r; run_status := run_status r;
     scheduled_at := scheduled_at r; run_started_at := run_started_at r;
     run_completed_at := v;
     attempt_count := attempt_count r;
     final_status_code := final_status_code r;
     final_error_type := final_error_type r;
     final_error_message := final_error_message r |}.

Definition set_attempt_count (v : Z) (r : Run) : Run :=
  {| run_id := run_id r; run_schedule_id := run_schedule_id r;
     idempotency_key := idempotency_key r; run_status := run_status r;
     scheduled_at := scheduled_at r; run_started_at := run_started_at r;
     run_completed_at := run_completed_at r;
     attempt_count := v;
     final_status_code := final_status_code r;
     final_error_type := final_error_type r;
     final_error_message := final_error_message r |}.

Definition set_final_status_code (v : option Z) (r : Run) : Run :=
  {| run_id := run_id r; run_schedule_id := run_schedule_id r;
     idempotency_key := idempotency_key r; run_status := run_status r;
     scheduled_at := scheduled_at r; run_started_at := run_started_at r;
     run_completed_at := run_completed_at r;
     attempt_count := attempt_count r;
     final_status_code := v;
     final_error_type := final_error_type r;
     final_error_message := final_error_message r |}.

Definition set_final_error_type (v : ErrorType.t) (r : Run) : Run :=
  {| run_id := run_id r; run_schedule_id := run_schedule_id r;
     idempotency_key := idempotency_key r; run_status := run_status r;
     scheduled_at := scheduled_at r; run_started_at := run_started_at r;
     run_completed_at := run_completed_at r;
     attempt_count := attempt_count r;
     final_status_code := final_status_code r;
     final_error_type := v;
     final_error_message := final_error_message r |}.

Definition set_final_error_message (v : option string) (r : Run) : Run :=
  {| run_id := run_id r; run_schedule_id := run_schedule_id r;
     idempotency_key := idempotency_key r; run_status := run_status r;
     scheduled_at := scheduled_at r; run_started_at := run_started_at r;
     run_completed_at := run_completed_at r;
     attempt_count := attempt_count r;
     final_status_code := final_status_code r;
     final_error_type := final_error_type r;
     final_error_message := v |}.

Definition set_schedule_status (v : ScheduleStatus) (s : Schedule) : Schedule :=
  {| schedule_id := schedule_id s; schedule_name := schedule_name s;
     schedule_target_id := schedule_target_id s; target := target s;
     schedule_type := schedule_type s;
     interval_seconds := interval_seconds s;
     cron_expression := cron_expression s;
     duration_seconds := duration_seconds s; max_runs := max_runs s;
     schedule_status := v;
     schedule_started_at := schedule_started_at s;
     expires_at := expires_at s; run_count := run_count s;
     last_run_at := last_run_at s; next_run_at := next_run_at s |}.

Definition set_run_count (v : Z) (s : Schedule) : Schedule :=
  {| schedule_id := schedule_id s; schedule_name := schedule_name s;
     schedule_target_id := schedule_target_id s; target := target s;
     schedule_type := schedule_type s;
     interval_seconds := interval_seconds s;
     cron_expression := cron_expression s;
     duration_seconds := duration_seconds s; max_runs := max_runs s;
     schedule_status := schedule_status s;
     schedule_started_at := schedule_started_at s;
     expires_at := expires_at s; run_count := v;
     last_run_at := last_run_at s; next_run_at := next_run_at s |}.

Definition set_last_run_at (v : option datetime) (s : Schedule) : Schedule :=
  {| schedule_id := schedule_id s; schedule_name := schedule_name s;
     schedule_target_id := schedule_target_id s; target := target s;
     schedule_type := schedule_type s;
     interval_seconds := interval_seconds s;
     cron_expression := cron_expression s;
     duration_seconds := duration_seconds s; max_runs := max_runs s;
     schedule_status := schedule_status s;
     schedule_started_at := schedule_started_at s;
     expires_at := expires_at s; run_count := run_count s;
     last_run_at := v; next_run_at := next_run_at s |}.

Definition set_next_run_at (v : option datetime) (s : Schedule) : Schedule :=
  {| schedule_id := schedule_id s; schedule_name := schedule_name s;
     schedule_target_id := schedule_target_id s; target := target s;
     schedule_type := schedule_type s;
     interval_seconds := interval_seconds s;
     cron_expression := cron_expression s;
     duration_seconds := duration_seconds s; max_runs := max_runs s;
     schedule_status := schedule_status s;
     schedule_started_at := schedule_started_at s;
     expires_at := expires_at s; run_count := run_count s;
     last_run_at := last_run_at s; next_run_at := v |}.

(* ===================================================================== *)
(** * app/config.py                                                       *)
(* ===================================================================== *)

Record Settings := {
  default_timeout_seconds : Q;
  max_timeout_seconds : Q;
  settings_max_retries : Z;
  retry_delay_seconds : Q;
  verify_ssl : bool;
  max_concurrent_jobs : Z;
  job_misfire_grace_seconds : Z;
}.

(** [Settings()] with nothing overridden from the environment. *)
Definition Settings_defaults : Settings :=
  {| default_timeout_seconds := 30; max_timeout_seconds := 120;
     settings_max_retries := 3; retry_delay_seconds := 1;
     verify_ssl := false; max_concurrent_jobs := 100;
     job_misfire_grace_seconds := 60 |}.

(* ===================================================================== *)
(** * The Python runtime the code relies on                               *)
(* ===================================================================== *)

(** ** Exceptions *)

Inductive exn :=
  AttributeError | OverflowError | TypeError | ValueError
| MultipleResultsFound | IntegrityError.

Inductive result (A : Type) :=
| Ok (a : A)
| Raise (e : exn).
Arguments Ok {A} a.
Arguments Raise {A} e.

(** ** [str] *)

Definition lower_ascii (c : ascii) : ascii :=
  let n := nat_of_ascii c in
  if ((65 <=? n) && (n <=? 90))%nat then ascii_of_nat (n + 32) else c.

(** [s.lower()]. *)
Fixpoint lower (s : string) : string :=
  match s with
  | EmptyString => EmptyString
  | String c s' => String (lower_ascii c) (lower s')
  end.

(** [sub in s]. *)
Fixpoint contains (sub s : string) : bool :=
  String.prefix sub s ||
  match s with
  | EmptyString => false
  | String _ s' => contains sub s'
  end.

(** [s.replace(old, new)] for a non-empty [old]: [skip] counts the
    characters of a match that are still to be dropped. *)
Fixpoint replace_from (old new : string) (skip : nat) (s : string) : string :=
  match s with
  | EmptyString => EmptyString
  | String c s' =>
      match skip with
      | S k => replace_from old new k s'
      | O =>
          if String.prefix old s
          then new +:+ replace_from old new (String.length old - 1) s'
          else String c (replace_from old new 0 s')
      end
  end.

Definition replace (old new s : string) : string := replace_from old new 0 s.

(** The [str] of a literal and of a header value, one character a
    byte. *)
Definition str_of (s : string) : str :=
  map N_of_ascii (list_ascii_of_string s).

(** A decimal numeral padded with zeros on the left, as [%02d] does. *)
Definition zpad (width : nat) (n : Z) : string :=
  let s := pretty n in
  String.concat "" (replicate (width - String.length s) "0") +:+ s.

Definition newline : string := String (ascii_of_nat 10) EmptyString.

(** ** [datetime] *)

Definition _DAYS_IN_MONTH : list Z :=
  [-1; 31; 28; 31; 30; 31; 30; 31; 31; 30; 31; 30; 31].
Definition _DAYS_BEFORE_MONTH : list Z :=
  [-1; 0; 31; 59; 90; 120; 151; 181; 212; 243; 273; 304; 334].

(** [datetime._ord2ymd]: ordinal (day 1 is 0001-01-01) to year, month,
    day. *)
Definition _ord2ymd (ordinal : Z) : Z * Z * Z :=
  let n := ordinal - 1 in
  let n400 := n / 146097 in let n := n mod 146097 in
  let year := n400 * 400 + 1 in
  let n100 := n / 36524 in let n := n mod 36524 in
  let n4 := n / 1461 in let n := n mod 1461 in
  let n1 := n / 365 in let n := n mod 365 in
  let year := year + n100 * 100 + n4 * 4 + n1 in
  if (n1 =? 4) || (n100 =? 4) then (year - 1, 12, 31)
  else
    let leapyear := (n1 =? 3) && (negb (n4 =? 24) || (n100 =? 3)) in
    let month := Z.shiftr (n + 50) 5 in
    let preceding :=
      nth (Z.to_nat month) _DAYS_BEFORE_MONTH (-1)
      + (if (2 <? month) && leapyear then 1 else 0) in
    if n <? preceding then
      let month := month - 1 in
      let preceding :=
        preceding
        - (nth (Z.to_nat month) _DAYS_IN_MONTH (-1)
           + (if (month =? 2) && leapyear then 1 else 0)) in
      (year, month, n - preceding + 1)
    else (year, month, n - preceding + 1).

Record fields := {
  year : Z; month : Z; day : Z; hour : Z; minute : Z; second : Z;
  microsecond : Z;
}.

Definition US_PER_SECOND : Z := 1000000.

(** The whole second a [datetime] falls in. *)
Definition wall_second (t : datetime) : Z := t / US_PER_SECOND.

Definition fields_of (t : datetime) : fields :=
  let s := wall_second t in
  let '(y, m, d) := _ord2ymd (s / 86400 + 1) in
  let r := s mod 86400 in
  {| year := y; month := m; day := d;
     hour := r / 3600; minute := (r mod 3600) / 60; second := r mod 60;
     microsecond := t mod US_PER_SECOND |}.

(** [t.strftime('%Y%m%d%H%M%S')] (for the four-digit years a wall clock
    reads). *)
Definition strftime_YmdHMS (t : datetime) : string :=
  let f := fields_of t in
  zpad 4 (year f) +:+ zpad 2 (month f) +:+ zpad 2 (day f) +:+
  zpad 2 (hour f) +:+ zpad 2 (minute f) +:+ zpad 2 (second f).

(** [t.isoformat()] of a naive datetime. *)
Definition isoformat (t : datetime) : string :=
  let f := fields_of t in
  zpad 4 (year f) +:+ "-" +:+ zpad 2 (month f) +:+ "-" +:+ zpad 2 (day f)
  +:+ "T" +:+ zpad 2 (hour f) +:+ ":" +:+ zpad 2 (minute f) +:+ ":"
  +:+ zpad 2 (second f)
  +:+ (if microsecond f =? 0 then "" else "." +:+ zpad 6 (microsecond f)).

(** ** httpx *)

(** The classes [classify_error] tells apart with [isinstance]; in httpx
    they are pairwise disjoint. *)
Inductive ExceptionClass :=
| TimeoutException
| ConnectError
| HTTPStatusError (response_status : Z)
| OtherException.

Record Exception := {
  exc_class : ExceptionClass;
  exc_str : string;
}.

(** A response: header names are lower-cased, as [httpx.Headers] looks
    them up; [text] is the decoded body, [content] the raw one, in
    bytes. *)
Record Response := {
  response_status_code : Z;
  response_header_map : gmap string string;
  text : str;
  content : string;
}.

Inductive Outcome :=
| Responded (response : Response)
| Raised (e : Exception).

(** The keyword arguments of [client.request]. *)
Record Request := {
  kw_method : string;
  kw_url : string;
  kw_headers : gmap string string;
  kw_timeout : Q;
  kw_content : option string;
}.

(** ** APScheduler *)

Inductive Trigger :=
| IntervalTrigger (seconds : Z)
| CronTrigger (minute hour day month day_of_week : string).

(* ===================================================================== *)
(** * The world and the state of the process                              *)
(* ===================================================================== *)

Record World := {
  clock : nat -> datetime;   (* UTC wall clock at the k-th reading *)
  net : nat -> Outcome;      (* what the k-th HTTP request meets *)
  uuid4 : nat -> string;     (* the k-th generated UUID *)
}.

Record Database := {
  schedules : list Schedule;
  runs : list Run;
  attempts : list Attempt;
}.

Record State := {
  ticks : nat;                 (* clock readings taken so far *)
  sent : list Request;         (* HTTP requests issued so far *)
  uuids : nat;                 (* UUIDs generated so far *)
  slept : list Q;              (* arguments of asyncio.sleep so far *)
  db : Database;               (* the tables, as the open session sees them *)
  jobs : gmap string Trigger;  (* APScheduler's job store *)
  running_jobs : gset string;  (* SchedulerEngine._running_jobs *)
}.

Definition tick (st : State) : State :=
  {| ticks := S (ticks st); sent := sent st; uuids := uuids st;
     slept := slept st; db := db st; jobs := jobs st;
     running_jobs := running_jobs st |}.

Definition send (r : Request) (st : State) : State :=
  {| ticks := ticks st; sent := sent st ++ [r]; uuids := uuids st;
     slept := slept st; db := db st; jobs := jobs st;
     running_jobs := running_jobs st |}.

Definition next_uuid (st : State) : State :=
  {| ticks := ticks st; sent := sent st; uuids := S (uuids st);
     slept := slept st; db := db st; jobs := jobs st;
     running_jobs := running_jobs st |}.

(** [await asyncio.sleep(delay)]. *)
Definition sleep (delay : Q) (st : State) : State :=
  {| ticks := ticks st; sent := sent st; uuids := uuids st;
     slept := slept st ++ [delay]; db := db st; jobs := jobs st;
     running_jobs := running_jobs st |}.

Definition set_db (d : Database) (st : State) : State :=
  {| ticks := ticks st; sent := sent st; uuids := uuids st;
     slept := slept st; db := d; jobs := jobs st;
     running_jobs := running_jobs st |}.

Definition set_jobs (j : gmap string Trigger) (st : State) : State :=
  {| ticks := ticks st; sent := sent st; uuids := uuids st;
     slept := slept st; db := db st; jobs := j;
     running_jobs := running_jobs st |}.

Definition set_running_jobs (s : gset string) (st : State) : State :=
  {| ticks := ticks st; sent := sent st; uuids := uuids st;
     slept := slept st; db := db st; jobs := jobs st;
     running_jobs := s |}.

Definition set_runs (l : list Run) (d : Database) : Database :=
  {| schedules := schedules d; runs := l;
     attempts := attempts d |}.

Definition set_attempts (l : list Attempt) (d : Database) : Database :=
  {| schedules := schedules d; runs := runs d;
     attempts := l |}.

Definition set_schedules (l : list Schedule) (d : Database) : Database :=
  {| schedules := l; runs := runs d;
     attempts := attempts d |}.

(** [session.add(attempt); await session.flush()] for a new attempt. *)
Definition insert_attempt (a : Attempt) (st : State) : State :=
  set_db (set_attempts (attempts (db st) ++ [a]) (db st)) st.

(** [session.add(run); await session.flush()] for a run that has been
    flushed before: the row with its primary key is rewritten. *)
Definition update_run (run : Run) (st : State) : State :=
  set_db
    (set_runs
       (map (fun r => if decide (run_id r = run_id run) then run else r)
          (runs (db st)))
       (db st))
    st.

(** The same for a schedule. *)
Definition update_schedule (s : Schedule) (st : State) : State :=
  set_db
    (set_schedules
       (map (fun r => if decide (schedule_id r = schedule_id s) then s else r)
          (schedules (db st)))
       (db st))
    st.

(** Leaving [async with async_session_factory()] without a commit: the
    tables are as they were at [st0]; what happened outside the database
    stays. *)
Definition rollback (st0 st : State) : State := set_db (db st0) st.

(* ===================================================================== *)
(** * app/executor.py                                                     *)
(* ===================================================================== *)

Import ErrorType.

Definition MAX_RESPONSE_BODY_SIZE : Z := 100 * 1024.

Definition classify_error (exception : Exception) : ErrorType.t * string :=
  let error_message := exc_str exception in
  let fallback :=
    if contains "ssl" (lower error_message)
       || contains "certificate" (lower error_message)
    then (SSL, "SSL/TLS error: " +:+ error_message)
    else (UNKNOWN, "Unknown error: " +:+ error_message) in
  match exc_class exception with
  | TimeoutException => (TIMEOUT, "Request timed out: " +:+ error_message)
  | ConnectError =>
      let error_lower := lower error_message in
      if contains "name or service not known" error_lower
         || contains "dns" error_lower
      then (DNS, "DNS resolution failed: " +:+ error_message)
      else if contains "ssl" error_lower || contains "certificate" error_lower
      then (SSL, "SSL/TLS error: " +:+ error_message)
      else (CONNECTION, "Connection failed: " +:+ error_message)
  | HTTPStatusError status_code =>
      if (400 <=? status_code) && (status_code <? 500)
      then (CLIENT_ERROR,
            "Client error " +:+ pretty status_code +:+ ": " +:+ error_message)
      else if (500 <=? status_code) && (status_code <? 600)
      then (SERVER_ERROR,
            "Server error " +:+ pretty status_code +:+ ": " +:+ error_message)
      else fallback
  | OtherException => fallback
  end.

Definition classify_status_code (status_code : Z) : ErrorType.t :=
  if (200 <=? status_code) && (status_code <? 400) then NONE
  else if (400 <=? status_code) && (status_code <? 500) then CLIENT_ERROR
  else if (500 <=? status_code) && (status_code <? 600) then SERVER_ERROR
  else UNKNOWN.

(** [2 ** k] as the product [base_delay * (2 ** k)] takes it.  For
    [0 <= k] the power is an exact integer, which the product converts
    to a float: CPython raises [OverflowError] when it does not fit a
    double, that is from [2 ** 1024] on.  For [k < 0] the power is a
    float already: exact down to [2 ** -1074], the smallest double, and
    0.0 below. *)
Definition float_of_pow2 (k : Z) : result Q :=
  if 1024 <=? k then Raise OverflowError
  else if k <? -1074 then Ok 0%Q
  else Ok (2 ^ k)%Q.

(** [max_delay] is passed explicitly; the source defaults it to [30.0].
    [base_delay] is a float. *)
Definition calculate_backoff_delay
    (attempt_num : Z) (base_delay : Q) (max_delay : Q) : result Q :=
  match float_of_pow2 (attempt_num - 1) with
  | Raise e => Raise e
  | Ok p => Ok (Qmin (base_delay * p) max_delay)
  end.

Record HttpExecutor := {
  max_retries : Z;
  base_retry_delay : Q;
}.

(** [x or default] on an optional integer and on an optional float. *)
Definition or_Z (x : option Z) (default : Z) : Z :=
  match x with
  | Some n => if n =? 0 then default else n
  | None => default
  end.

Definition or_Q (x : option Q) (default : Q) : Q :=
  match x with
  | Some q => if Qeq_bool q 0 then default else q
  | None => default
  end.

(** [HttpExecutor.__init__]; [settings] is the module-level
    [get_settings()]. *)
Definition HttpExecutor_init (settings : Settings)
    (max_retries : option Z) (base_retry_delay : option Q) : HttpExecutor :=
  {| max_retries := or_Z max_retries (settings_max_retries settings);
     base_retry_delay := or_Q base_retry_delay (retry_delay_seconds settings) |}.

Section Executor.

Variable world : World.

(** Python's [int] on a [str]; [None] stands for [ValueError]. *)
Variable py_int : string -> option Z.

Definition utcnow (st : State) : State * datetime :=
  (tick st, clock world (ticks st)).

(** [await client.request] on the keyword arguments. *)
Definition request (kwargs : Request) (st : State) : State * Outcome :=
  (send kwargs st, net world (length (sent st))).

Definition _prepare_body (body_template : option string) (st : State)
  : State * option string :=
  match body_template with
  | None => (st, None)
  | Some EmptyString => (st, None)
  | Some template =>
      let '(st, now) := utcnow st in
      (st, Some (replace "{{timestamp}}" (isoformat now) template))
  end.

Definition _safe_read_body (response : Response) : option str :=
  let read_text :=
    let body := text response in
    if MAX_RESPONSE_BODY_SIZE <? Z.of_nat (length body)
    then Some (take (Z.to_nat MAX_RESPONSE_BODY_SIZE) body
               ++ str_of (newline +:+ "[...truncated...]"))
    else Some body in
  match response_header_map response !! "content-length" with
  | None => read_text
  | Some EmptyString => read_text
  | Some content_length =>
      match py_int content_length with
      | None => None        (* except Exception: return None *)
      | Some n =>
          if MAX_RESPONSE_BODY_SIZE <? n
          then Some (str_of ("[Response truncated - size "
                             +:+ content_length
                             +:+ " bytes exceeds limit]"))
          else read_text
      end
  end.

Definition _execute_attempt
    (self : HttpExecutor) (run : Run) (target : Target)
    (attempt_number : Z) (st : State) : State * Attempt :=
  let '(st, request_body) := _prepare_body (body_template target) st in
  let '(st, started) := utcnow st in
  let request_kwargs :=
    {| kw_method := HttpMethod_value (method target);
       kw_url := url target;
       kw_headers := default ∅ (headers target);
       kw_timeout := timeout_seconds target;
       kw_content :=
         match request_body with
         | None => None
         | Some EmptyString => None
         | Some body =>
             if bool_decide (method target ∈ [POST; PUT; PATCH])
             then Some body else None
         end |} in
  let '(st, start_time) := utcnow st in
  let '(st, outcome) := request request_kwargs st in
  let '(st, attempt) :=
    match outcome with
    | Responded response =>
        let '(st, end_time) := utcnow st in
        let latency :=
          binary64 (total_seconds (end_time - start_time)%Z * 1000) in
        let ok :=
          (200 <=? response_status_code response)
          && (response_status_code response <? 400) in
        (st,
         {| attempt_run_id := run_id run;
            attempt_number := attempt_number;
            request_url := url target;
            request_method := method target;
            request_headers := default ∅ (headers target);
            request_body := request_body;
            started_at := started;
            completed_at := Some end_time;
            latency_ms := Some latency;
            status_code := Some (response_status_code response);
            response_headers := response_header_map response;
            response_body := _safe_read_body response;
            response_size_bytes :=
              Some (Z.of_nat (String.length (content response)));
            error_type :=
              if ok then NONE
              else classify_status_code (response_status_code response);
            error_message :=
              if ok then None
              else Some ("HTTP " +:+ pretty (response_status_code response))
         |})
    | Raised e =>
        let '(st, now) := utcnow st in
        (st,
         {| attempt_run_id := run_id run;
            attempt_number := attempt_number;
            request_url := url target;
            request_method := method target;
            request_headers := default ∅ (headers target);
            request_body := request_body;
            started_at := started;
            completed_at := Some now;
            latency_ms := None;
            status_code := None;
            response_headers := ∅;
            response_body := None;
            response_size_bytes := None;
            error_type := fst (classify_error e);
            error_message := Some (snd (classify_error e)) |})
    end in
  (insert_attempt attempt st, attempt).

(** The assignments before the first [break] ([# Success - stop
    retrying]) and before the second ([# Non-retryable errors]). *)
Definition mark_success (attempt : Attempt) (run : Run) : Run :=
  set_final_error_type NONE
    (set_final_status_code (status_code attempt)
       (set_run_status RunStatus.SUCCESS run)).

Definition mark_client_error (attempt : Attempt) (run : Run) : Run :=
  set_final_error_message (error_message attempt)
    (set_final_error_type (error_type attempt)
       (set_final_status_code (status_code attempt)
          (set_run_status RunStatus.FAILED run))).

(** The body of [for attempt_num in range(1, self.max_retries + 1)]:
    a [break] is a return without the recursive call. *)
Fixpoint retry_loop
    (self : HttpExecutor) (target : Target) (attempt_nums : list Z)
    (run : Run) (last_attempt : option Attempt) (st : State)
  : State * result (Run * option Attempt) :=
  match attempt_nums with
  | [] => (st, Ok (run, last_attempt))
  | attempt_num :: rest =>
      let '(st, attempt) :=
        _execute_attempt self run target attempt_num st in
      let run := set_attempt_count attempt_num run in
      if decide (error_type attempt = NONE) then
        (st, Ok (mark_success attempt run, Some attempt))
      else if decide (error_type attempt = CLIENT_ERROR) then
        (st, Ok (mark_client_error attempt run, Some attempt))
      else if attempt_num <? max_retries self then
        match
          calculate_backoff_delay attempt_num (base_retry_delay self) 30
        with
        | Raise e => (st, Raise e)
        | Ok backoff_delay =>
            retry_loop self target rest run (Some attempt)
              (sleep backoff_delay st)
        end
      else retry_loop self target rest run (Some attempt) st
  end.

(** [range(lo, hi)]. *)
Definition range (lo hi : Z) : list Z := seqZ lo (hi - lo).

(** The block after the loop, [# If we exhausted retries]. *)
Definition exhausted (run : Run) (last_attempt : option Attempt) : Run :=
  if decide (run_status run = RunStatus.RUNNING) then
    let run :=
      match last_attempt with
      | Some a =>
          if decide (error_type a = TIMEOUT)
          then set_run_status RunStatus.TIMEOUT run
          else set_run_status RunStatus.FAILED run
      | None => set_run_status RunStatus.FAILED run
      end in
    match last_attempt with
    | Some a =>
        set_final_error_message (error_message a)
          (set_final_error_type (error_type a)
             (set_final_status_code (status_code a) run))
    | None => run
    end
  else run.

(** The first four statements of [execute_run]. *)
Definition start_run (run : Run) (st : State) : State * Run :=
  let run := set_run_status RunStatus.RUNNING run in
  let '(st, now) := utcnow st in
  let run := set_run_started_at (Some now) run in
  (update_run run st, run).

(** From [# If we exhausted retries] to the final flush. *)
Definition finish_run
    (run : Run) (last_attempt : option Attempt) (st : State)
  : State * Run :=
  let run := exhausted run last_attempt in
  let '(st, now) := utcnow st in
  let run := set_run_completed_at (Some now) run in
  (update_run run st, run).

Definition execute_run
    (self : HttpExecutor) (run : Run) (target : Target) (st : State)
  : State * result Run :=
  let '(st, run) := start_run run st in
  match
    retry_loop self target (range 1 (max_retries self + 1)) run None st
  with
  | (st, Raise e) => (st, Raise e)
  | (st, Ok (run, last_attempt)) =>
      let '(st, run) := finish_run run last_attempt st in
      (st, Ok run)
  end.

End Executor.

(* ===================================================================== *)
(** * app/scheduler.py                                                    *)
(* ===================================================================== *)

(** Asia/Kolkata is UTC+05:30 all year. *)
Definition IST_OFFSET : timedelta := timedelta_seconds 19800.

Definition is_space (c : ascii) : bool :=
  let n := nat_of_ascii c in
  ((9 <=? n) && (n <=? 13) || (28 <=? n) && (n <=? 32))%nat.

(** [s.split()]: the maximal runs of non-blank characters; [word] holds
    the characters of the run being read, last first. *)
Fixpoint split_from (word : list ascii) (s : string) : list string :=
  let flush := match word with
               | [] => []
               | _ => [string_of_list_ascii (rev word)]
               end in
  match s with
  | EmptyString => flush
  | String c s' =>
      if is_space c then flush ++ split_from [] s'
      else split_from (c :: word) s'
  end.

Definition split (s : string) : list string := split_from [] s.

(** [schedule.max_runs and schedule.run_count >= schedule.max_runs]. *)
Definition max_runs_reached (schedule : Schedule) : bool :=
  match max_runs schedule with
  | Some m => negb (m =? 0) && (m <=? run_count schedule)
  | None => false
  end.

Definition job_id_of (schedule_id : string) : string :=
  "schedule_" +:+ schedule_id.

Definition ORPHAN_MESSAGE : string :=
  "Server restarted while run was in progress".

Section Scheduler.

Variable world : World.
Variable py_int : string -> option Z.

(** [croniter(expression, now).get_next(datetime)], a library call; it
    raises on an expression it cannot parse. *)
Variable croniter_get_next : option string -> datetime -> result datetime.

(** The module-level [settings] and the global [executor] built from
    them. *)
Variable settings : Settings.

Definition executor : HttpExecutor := HttpExecutor_init settings None None.

Definition now_ist (st : State) : State * datetime :=
  (tick st, clock world (ticks st) + IST_OFFSET).

(** [_recover_orphaned_runs]: the selected rows are the session's own
    objects, so the loop rewrites them where they stand in the table;
    each of them takes its own clock reading. *)
Definition is_orphaned (run : Run) : bool :=
  bool_decide (run_status run ∈ [RunStatus.RUNNING; RunStatus.PENDING]).

Fixpoint sweep_orphans (rows : list Run) (st : State) : State * list Run :=
  match rows with
  | [] => (st, [])
  | run :: rest =>
      if is_orphaned run then
        let run := set_run_status RunStatus.FAILED run in
        let '(st, now) := now_ist st in
        let run := set_run_completed_at (Some now) run in
        let run := set_final_error_message (Some ORPHAN_MESSAGE) run in
        let '(st, rest) := sweep_orphans rest st in
        (st, run :: rest)
      else
        let '(st, rest) := sweep_orphans rest st in
        (st, run :: rest)
  end.

Definition _recover_orphaned_runs (st : State) : State :=
  let '(st, rows) := sweep_orphans (runs (db st)) st in
  set_db (set_runs rows (db st)) st.

(** [_remove_job_for_schedule]: a missing job is not an error. *)
Definition _remove_job_for_schedule (schedule_id : string) (st : State)
  : State :=
  set_jobs (delete (job_id_of schedule_id) (jobs st)) st.

(** [_add_job_for_schedule].  What APScheduler's trigger constructors
    check beyond the presence of their arguments is not modelled. *)
Definition _add_job_for_schedule (schedule : Schedule) (st : State)
  : State * result unit :=
  let job_id := job_id_of (schedule_id schedule) in
  let st := set_jobs (delete job_id (jobs st)) st in
  let trigger :=
    match schedule_type schedule with
    | INTERVAL =>
        match interval_seconds schedule with
        | Some n => Ok (IntervalTrigger n)
        | None => Raise TypeError
        end
    | CRON =>
        match cron_expression schedule with
        | None => Raise AttributeError
        | Some e =>
            let parts := split e in
            Ok (CronTrigger (nth 0 parts "*") (nth 1 parts "*")
                  (nth 2 parts "*") (nth 3 parts "*") (nth 4 parts "*"))
        end
    end in
  match trigger with
  | Raise e => (st, Raise e)
  | Ok trigger => (set_jobs (<[job_id := trigger]> (jobs st)) st, Ok tt)
  end.

Definition _calculate_next_run (schedule : Schedule) (st : State)
  : State * result datetime :=
  let '(st, now) := now_ist st in
  match schedule_type schedule with
  | INTERVAL =>
      match interval_seconds schedule with
      | Some n => (st, Ok (now + timedelta_seconds n))
      | None => (st, Raise TypeError)
      end
  | CRON => (st, croniter_get_next (cron_expression schedule) now)
  end.

(** [resume_schedule].  The window check reads [datetime.now_ist()]:
    the class [datetime] has no such attribute (the module's own
    function is [now_ist]), so evaluating the right operand of [and]
    raises [AttributeError]; it is evaluated exactly when [expires_at]
    is set. *)
Definition resume_schedule (schedule : Schedule) (st : State)
  : State * result Schedule :=
  match expires_at schedule with
  | Some _ => (st, Raise AttributeError)
  | None =>
      if max_runs_reached schedule then
        (st, Ok (set_schedule_status EXPIRED schedule))
      else
        let schedule := set_schedule_status ACTIVE schedule in
        match _calculate_next_run schedule st with
        | (st, Raise e) => (st, Raise e)
        | (st, Ok next) =>
            let schedule := set_next_run_at (Some next) schedule in
            match _add_job_for_schedule schedule st with
            | (st, Raise e) => (st, Raise e)
            | (st, Ok _) => (st, Ok schedule)
            end
        end
  end.

(** [Run(...)], [session.add(run)], [await session.flush()]: the row
    takes a fresh primary key and the column defaults; the primary key
    and the unique index on [idempotency_key] reject a duplicate. *)
Definition insert_run
    (schedule_id : string) (now : datetime) (key : string) (st : State)
  : State * result Run :=
  let run :=
    {| run_id := uuid4 world (uuids st);
       run_schedule_id := schedule_id;
       idempotency_key := Some key;
       run_status := RunStatus.PENDING;
       scheduled_at := now;
       run_started_at := None;
       run_completed_at := None;
       attempt_count := 0;
       final_status_code := None;
       final_error_type := NONE;
       final_error_message := None |} in
  let st := next_uuid st in
  if bool_decide
       (Exists (fun r => run_id r = run_id run
                         \/ idempotency_key r = Some key) (runs (db st)))
  then (st, Raise IntegrityError)
  else (set_db (set_runs (runs (db st) ++ [run]) (db st)) st, Ok run).

(** [idempotency_key = f"{schedule.id}:{now.strftime('%Y%m%d%H%M%S')}"]. *)
Definition make_idempotency_key (schedule_id : string) (now : datetime)
  : string :=
  schedule_id +:+ ":" +:+ strftime_YmdHMS now.

(** [schedule.status = EXPIRED], the job removed, the row committed. *)
Definition expire (schedule : Schedule) (st : State) : State :=
  let schedule := set_schedule_status EXPIRED schedule in
  let st := _remove_job_for_schedule (schedule_id schedule) st in
  update_schedule schedule st.

(** What [_execute_schedule] does inside
    [async with async_session_factory() as session]. *)
Definition fire (schedule_id0 : string) (st : State) : State * result unit :=
  match
    filter (fun s => schedule_id s = schedule_id0) (schedules (db st))
  with
  | [] => (st, Ok tt)
  | _ :: _ :: _ => (st, Raise MultipleResultsFound)
  | [schedule] =>
      if decide (schedule_status schedule <> ACTIVE) then (st, Ok tt)
      else
        let '(st, window_over) :=
          match expires_at schedule with
          | Some e => let '(st, now) := now_ist st in (st, e <=? now)
          | None => (st, false)
          end in
        if window_over then (expire schedule st, Ok tt)
        else if max_runs_reached schedule then (expire schedule st, Ok tt)
        else
          let '(st, now) := now_ist st in
          let key := make_idempotency_key (schedule_id schedule) now in
          match
            filter (fun r => idempotency_key r = Some key) (runs (db st))
          with
          | _ :: _ :: _ => (st, Raise MultipleResultsFound)
          | [_] => (st, Ok tt)
          | [] =>
              match insert_run (schedule_id schedule) now key st with
              | (st, Raise e) => (st, Raise e)
              | (st, Ok run) =>
                  match
                    execute_run world py_int executor run (target schedule)
                      st
                  with
                  | (st, Raise e) => (st, Raise e)
                  | (st, Ok run) =>
                      let schedule :=
                        set_run_count (run_count schedule + 1) schedule in
                      let '(st, now) := now_ist st in
                      let schedule := set_last_run_at (Some now) schedule in
                      match _calculate_next_run schedule st with
                      | (st, Raise e) => (st, Raise e)
                      | (st, Ok next) =>
                          let schedule :=
                            set_next_run_at (Some next) schedule in
                          if max_runs_reached schedule then
                            (expire schedule st, Ok tt)
                          else (update_schedule schedule st, Ok tt)
                      end
                  end
              end
          end
  end.

(** [_execute_schedule]: the guard on [_running_jobs], the session
    block with [except Exception] around it, and the [finally]. *)
Definition _execute_schedule (schedule_id : string) (st : State) : State :=
  if decide (schedule_id ∈ running_jobs st) then st
  else
    let st := set_running_jobs ({[schedule_id]} ∪ running_jobs st) st in
    let st :=
      match fire schedule_id st with
      | (st', Ok _) => st'
      | (st', Raise _) => rollback st st'
      end in
    set_running_jobs (running_jobs st ∖ {[schedule_id]}) st.

End Scheduler.


(* ===================================================================== *)
(** * Vocabulary of the properties                                        *)
(* ===================================================================== *)

(** The error kinds after which [execute_run] goes on to another
    attempt. *)
Definition retryable (e : ErrorType.t) : Prop :=
  e <> NONE /\ e <> CLIENT_ERROR.

(** Two states that differ at most in what the executor consumes from the
    world and in the table of attempts. *)
Definition same_but_attempts (st st' : State) : Prop :=
  runs (db st') = runs (db st) /\ schedules (db st') = schedules (db st) /\
  jobs st' = jobs st /\ running_jobs st' = running_jobs st /\
  uuids st' = uuids st.

(** How [retry_loop] over [nums] can end, in terms of the attempts [new]
    it has added: with an [OverflowError] out of the back-off after a
    retryable attempt, or normally, after a success, a client error, or a
    retryable last attempt once [nums] is used up. *)
Definition loop_post (self : HttpExecutor) (nums : list Z) (run : Run)
    (last0 : option Attempt) (new : list Attempt)
    (res : result (Run * option Attempt)) : Prop :=
  match res with
  | Raise e =>
      e = OverflowError /\
      exists a, last new = Some a /\ retryable (error_type a) /\
                attempt_number a < max_retries self /\
                1024 < attempt_number a
  | Ok (run', last') =>
      match last new with
      | None => nums = [] /\ run' = run /\ last' = last0
      | Some a =>
          last' = Some a /\
          ((error_type a = NONE /\
            run' = mark_success a (set_attempt_count (attempt_number a) run))
           \/ (error_type a = CLIENT_ERROR /\
               run' = mark_client_error a
                        (set_attempt_count (attempt_number a) run))
           \/ (retryable (error_type a) /\ length new = length nums /\
               run' = set_attempt_count (attempt_number a) run))
      end
  end.

(** The columns of a run no statement of the executor assigns. *)
Definition same_identity (r r' : Run) : Prop :=
  run_id r' = run_id r /\ run_schedule_id r' = run_schedule_id r /\
  idempotency_key r' = idempotency_key r /\
  scheduled_at r' = scheduled_at r.

(** The marker stored for a response whose declared length is over the
    cap. *)
Definition truncation_marker (content_length : string) : str :=
  str_of ("[Response truncated - size " +:+ content_length
          +:+ " bytes exceeds limit]").

(** A run carries the key its schedule and firing instant give. *)
Definition keyed (r : Run) : Prop :=
  idempotency_key r
  = Some (make_idempotency_key (run_schedule_id r) (scheduled_at r)).

(** No two rows of the table belong to the same schedule and the same
    wall-clock second. *)
Definition one_run_per_second (rows : list Run) : Prop :=
  forall i j r1 r2,
    rows !! i = Some r1 -> rows !! j = Some r2 ->
    run_schedule_id r1 = run_schedule_id r2 ->
    wall_second (scheduled_at r1) = wall_second (scheduled_at r2) ->
    i = j.

(** What a firing of schedule [sid] may do to the table of runs: nothing,
    or append one row, scheduled at the instant the handler read, keyed
    by it, and keyed differently from every row already there. *)
Definition appended (world : World) (sid : string) (st st' : State) : Prop :=
  runs (db st') = runs (db st) \/
  exists r k,
    runs (db st') = runs (db st) ++ [r] /\
    run_schedule_id r = sid /\
    (k = ticks st \/ k = S (ticks st)) /\
    scheduled_at r = clock world k + IST_OFFSET /\
    idempotency_key r
    = Some (sid +:+ ":" +:+ strftime_YmdHMS (scheduled_at r)) /\
    forall r0, r0 ∈ runs (db st) -> idempotency_key r0 <> idempotency_key r.

(** What the orphan sweep, run from [st] to [st'], makes of a row. *)
Definition swept (world : World) (st st' : State) (r r' : Run) : Prop :=
  if is_orphaned r then
    exists k, (ticks st <= k < ticks st')%nat /\
      r' = set_final_error_message (Some ORPHAN_MESSAGE)
             (set_run_completed_at (Some (clock world k + IST_OFFSET))
                (set_run_status RunStatus.FAILED r))
  else r' = r.

(** The states the process goes through from an empty table of runs, by
    firings and by orphan sweeps; nothing else of the core writes to the
    table.  A firing is taken whole, as a coroutine that runs to
    completion: the states within a firing are not among these. *)
Inductive reachable (world : World) (py_int : string -> option Z)
    (croniter_get_next : option string -> datetime -> result datetime)
    (settings : Settings) : State -> Prop :=
| reachable_start st :
    runs (db st) = [] ->
    reachable world py_int croniter_get_next settings st
| reachable_fire sid st :
    reachable world py_int croniter_get_next settings st ->
    reachable world py_int croniter_get_next settings
      (_execute_schedule world py_int croniter_get_next settings sid st)
| reachable_recover st :
    reachable world py_int croniter_get_next settings st ->
    reachable world py_int croniter_get_next settings
      (_recover_orphaned_runs world st).

(* ===================================================================== *)
(** * A concrete world                                                    *)
(* ===================================================================== *)

Module Scenario.

(** A reader of decimal numerals, standing for [int] where the header is
    a string of digits. *)
Fixpoint digits_value (acc : Z) (s : string) : option Z :=
  match s with
  | EmptyString => Some acc
  | String c s' =>
      let n := nat_of_ascii c in
      if ((48 <=? n) && (n <=? 57))%nat
      then digits_value (10 * acc + Z.of_nat (n - 48)) s'
      else None
  end.

Definition int_of_digits (s : string) : option Z :=
  match s with
  | EmptyString => None
  | _ => digits_value 0 s
  end.

(** No cron schedule is fired in these scenarios. *)
Definition no_cron (e : option string) (now : datetime) : result datetime :=
  Raise ValueError.

(** 2024-01-15T10:30:45.123456 UTC, and a clock that advances by one
    millisecond from one reading to the next. *)
Definition T0 : datetime := 63840911445123456.

Definition steady_clock (k : nat) : datetime := T0 + 1000 * Z.of_nat k.

Definition uuid_of (k : nat) : string := "run-" +:+ pretty k.

Definition respond (code : Z) (body : string) : Outcome :=
  Responded {| response_status_code := code; response_header_map := ∅;
               text := str_of body; content := body |}.

Definition timed_out : Outcome :=
  Raised {| exc_class := TimeoutException; exc_str := "read timeout" |}.

(** Every request is answered 200. *)
Definition healthy : World :=
  {| clock := steady_clock; net := fun _ => respond 200 "ok";
     uuid4 := uuid_of |}.

(** No request is ever answered. *)
Definition unreachable : World :=
  {| clock := steady_clock; net := fun _ => timed_out; uuid4 := uuid_of |}.

(** The first request is answered 503, the later ones 404. *)
Definition flaky_then_missing : World :=
  {| clock := steady_clock;
     net := fun k => match k with
                     | O => respond 503 "busy"
                     | S _ => respond 404 "missing"
                     end;
     uuid4 := uuid_of |}.

Definition ping : Target :=
  {| target_id := "t1"; target_name := "ping";
     url := "https://example.test/ok"; method := GET; headers := None;
     body_template := None; timeout_seconds := 30 |}.

Definition every_minute : Schedule :=
  {| schedule_id := "s1"; schedule_name := "every minute";
     schedule_target_id := "t1"; target := ping;
     schedule_type := INTERVAL; interval_seconds := Some 60;
     cron_expression := None; duration_seconds := None; max_runs := None;
     schedule_status := ACTIVE; schedule_started_at := Some T0;
     expires_at := None; run_count := 0; last_run_at := None;
     next_run_at := None |}.

(** A paused schedule whose one-hour window ended an hour before the
    first clock reading. *)
Definition paused_past_window : Schedule :=
  {| schedule_id := "s2"; schedule_name := "windowed";
     schedule_target_id := "t1"; target := ping;
     schedule_type := INTERVAL; interval_seconds := Some 60;
     cron_expression := None; duration_seconds := Some 3600;
     max_runs := None;
     schedule_status := PAUSED;
     schedule_started_at := Some (T0 + IST_OFFSET - timedelta_seconds 7200);
     expires_at := Some (T0 + IST_OFFSET - timedelta_seconds 3600);
     run_count := 0; last_run_at := None; next_run_at := None |}.

(** A paused schedule whose two-hour window is still open for an hour. *)
Definition paused_open_window : Schedule :=
  {| schedule_id := "s3"; schedule_name := "open window";
     schedule_target_id := "t1"; target := ping;
     schedule_type := INTERVAL; interval_seconds := Some 60;
     cron_expression := None; duration_seconds := Some 7200;
     max_runs := None;
     schedule_status := PAUSED;
     schedule_started_at := Some (T0 + IST_OFFSET - timedelta_seconds 3600);
     expires_at := Some (T0 + IST_OFFSET + timedelta_seconds 3600);
     run_count := 0; last_run_at := None; next_run_at := None |}.

(** The run a firing of [every_minute] at the first clock reading
    creates. *)
Definition pending_run : Run :=
  {| run_id := "r0"; run_schedule_id := "s1";
     idempotency_key := Some "s1:20240115160045";
     run_status := RunStatus.PENDING;
     scheduled_at := T0 + IST_OFFSET;
     run_started_at := None; run_completed_at := None;
     attempt_count := 0; final_status_code := None;
     final_error_type := NONE; final_error_message := None |}.

Definition idle : State :=
  {| ticks := 0; sent := []; uuids := 0; slept := [];
     db := {| schedules := [every_minute; paused_past_window;
                            paused_open_window];
              runs := [pending_run]; attempts := [] |};
     jobs := ∅; running_jobs := ∅ |}.

(** [HttpExecutor()]. *)
Definition default_executor : HttpExecutor :=
  HttpExecutor_init Settings_defaults None None.

(** The process before any firing: the schedules, no run. *)
Definition fresh : State :=
  {| ticks := 0; sent := []; uuids := 0; slept := [];
     db := {| schedules := [every_minute; paused_past_window;
                            paused_open_window];
              runs := []; attempts := [] |};
     jobs := ∅; running_jobs := ∅ |}.

(** A run that completed before a restart, and the table a restart
    finds: one run in flight, one completed. *)
Definition completed_run : Run :=
  {| run_id := "r1"; run_schedule_id := "s1";
     idempotency_key := Some "s1:20240115155945";
     run_status := RunStatus.SUCCESS;
     scheduled_at := T0 + IST_OFFSET - timedelta_seconds 60;
     run_started_at := Some (T0 - timedelta_seconds 60);
     run_completed_at := Some (T0 - timedelta_seconds 59);
     attempt_count := 1; final_status_code := Some 200;
     final_error_type := NONE; final_error_message := None |}.

Definition after_crash : State :=
  {| ticks := 0; sent := []; uuids := 0; slept := [];
     db := {| schedules := [every_minute];
              runs := [pending_run; completed_run]; attempts := [] |};
     jobs := ∅; running_jobs := ∅ |}.

(** A response that declares 200000 bytes. *)
Definition declared_large : Response :=
  {| response_status_code := 200;
     response_header_map := {[ "content-length" := "200000" ]};
     text := str_of "never read"; content := "never read" |}.

(** A response whose declared length is not a number. *)
Definition malformed_length : Response :=
  {| response_status_code := 200;
     response_header_map := {[ "content-length" := "unknown" ]};
     text := str_of "ok"; content := "ok" |}.

(** A response without a declared length whose text has one character
    more than the cap. *)
Definition undeclared_long : Response :=
  {| response_status_code := 200; response_header_map := ∅;
     text := replicate (Z.to_nat 102401) 97%N;
     content := "" |}.

End Scenario.

(* ===================================================================== *)
(** * app/scheduler.py: adding, pausing, deleting, sweeping, recovering   *)
(* ===================================================================== *)

Definition set_schedule_started_at (v : option datetime) (s : Schedule)
  : Schedule :=
  {| schedule_id := schedule_id s; schedule_name := schedule_name s;
     schedule_target_id := schedule_target_id s; target := target s;
     schedule_type := schedule_type s;
     interval_seconds := interval_seconds s;
     cron_expression := cron_expression s;
     duration_seconds := duration_seconds s; max_runs := max_runs s;
     schedule_status := schedule_status s;
     schedule_started_at := v;
     expires_at := expires_at s; run_count := run_count s;
     last_run_at := last_run_at s; next_run_at := next_run_at s |}.

Definition set_expires_at (v : option datetime) (s : Schedule) : Schedule :=
  {| schedule_id := schedule_id s; schedule_name := schedule_name s;
     schedule_target_id := schedule_target_id s; target := target s;
     schedule_type := schedule_type s;
     interval_seconds := interval_seconds s;
     cron_expression := cron_expression s;
     duration_seconds := duration_seconds s; max_runs := max_runs s;
     schedule_status := schedule_status s;
     schedule_started_at := schedule_started_at s;
     expires_at := v; run_count := run_count s;
     last_run_at := last_run_at s; next_run_at := next_run_at s |}.

(** The [WHERE] clause of [_check_expired_windows]. *)
Definition window_expired (now : datetime) (schedule : Schedule) : bool :=
  bool_decide (schedule_status schedule = ACTIVE)
  && match expires_at schedule with
     | Some e => e <=? now
     | None => false
     end.

Section Engine.

Variable world : World.
Variable croniter_get_next : option string -> datetime -> result datetime.

(** [add_schedule]: the start instant and the end of the window are
    assigned once; the sum of [None] and a [timedelta] would be a
    [TypeError]. *)
Definition add_schedule (schedule : Schedule) (st : State)
  : State * result Schedule :=
  let '(st, schedule) :=
    match schedule_started_at schedule with
    | None =>
        let '(st, now) := now_ist world st in
        (st, set_schedule_started_at (Some now) schedule)
    | Some _ => (st, schedule)
    end in
  let with_window :=
    match duration_seconds schedule, expires_at schedule with
    | Some d, None =>
        if d =? 0 then Ok schedule
        else
          match schedule_started_at schedule with
          | Some started =>
              Ok (set_expires_at (Some (started + timedelta_seconds d))
                    schedule)
          | None => Raise TypeError
          end
    | _, _ => Ok schedule
    end in
  match with_window with
  | Raise e => (st, Raise e)
  | Ok schedule =>
      match _calculate_next_run world croniter_get_next schedule st with
      | (st, Raise e) => (st, Raise e)
      | (st, Ok next) =>
          let schedule := set_next_run_at (Some next) schedule in
          match _add_job_for_schedule schedule st with
          | (st, Raise e) => (st, Raise e)
          | (st, Ok _) => (st, Ok schedule)
          end
      end
  end.

Definition pause_schedule (schedule : Schedule) (st : State)
  : State * Schedule :=
  let st := _remove_job_for_schedule (schedule_id schedule) st in
  let schedule := set_schedule_status PAUSED schedule in
  (st, set_next_run_at None schedule).

Definition delete_schedule (schedule : Schedule) (st : State)
  : State * Schedule :=
  let st := _remove_job_for_schedule (schedule_id schedule) st in
  (st, set_schedule_status DELETED schedule).

(** The loop of [_check_expired_windows] over the table: the selected
    rows are rewritten where they stand. *)
Fixpoint expire_windows (now : datetime) (rows : list Schedule) (st : State)
  : State * list Schedule :=
  match rows with
  | [] => (st, [])
  | schedule :: rest =>
      if window_expired now schedule then
        let schedule := set_schedule_status EXPIRED schedule in
        let st := _remove_job_for_schedule (schedule_id schedule) st in
        let '(st, rest) := expire_windows now rest st in
        (st, schedule :: rest)
      else
        let '(st, rest) := expire_windows now rest st in
        (st, schedule :: rest)
  end.

Definition _check_expired_windows (st : State) : State :=
  let '(st, now) := now_ist world st in
  let '(st, rows) := expire_windows now (schedules (db st)) st in
  set_db (set_schedules rows (db st)) st.

(** The loop of [_recover_schedules] over the table; only the [ACTIVE]
    rows are selected.  An exception out of [_add_job_for_schedule] is
    logged and the loop goes on. *)
Fixpoint recover_active
    (rows : list Schedule) (recovered_count : Z) (st : State)
  : State * list Schedule * Z :=
  match rows with
  | [] => (st, [], recovered_count)
  | schedule :: rest =>
      if decide (schedule_status schedule = ACTIVE) then
        let '(st, window_over) :=
          match expires_at schedule with
          | Some e => let '(st, now) := now_ist world st in (st, e <=? now)
          | None => (st, false)
          end in
        if window_over then
          let '(st, rest, n) := recover_active rest recovered_count st in
          (st, set_schedule_status EXPIRED schedule :: rest, n)
        else if max_runs_reached schedule then
          let '(st, rest, n) := recover_active rest recovered_count st in
          (st, set_schedule_status EXPIRED schedule :: rest, n)
        else
          match _add_job_for_schedule schedule st with
          | (st, Ok _) =>
              let '(st, rest, n) :=
                recover_active rest (recovered_count + 1) st in
              (st, schedule :: rest, n)
          | (st, Raise _) =>
              let '(st, rest, n) := recover_active rest recovered_count st in
              (st, schedule :: rest, n)
          end
      else
        let '(st, rest, n) := recover_active rest recovered_count st in
        (st, schedule :: rest, n)
  end.

(** [_recover_schedules], with the count it logs. *)
Definition _recover_schedules (st : State) : State * Z :=
  let st := _recover_orphaned_runs world st in
  let '(st, rows, recovered_count) :=
    recover_active (schedules (db st)) 0 st in
  (set_db (set_schedules rows (db st)) st, recovered_count).

End Engine.

(* ===================================================================== *)
(** * app/database.py and app/routers/schedules.py: pause and resume      *)
(* ===================================================================== *)

(** What a route hands back to FastAPI: the value it returns, an
    [HTTPException] with its status code, or another exception, which
    the handler of [app/main.py] answers with status 500. *)
Inductive reply (A : Type) :=
| Returned (a : A)
| HTTPException (code : Z)
| Unhandled (e : exn).
Arguments Returned {A} a.
Arguments HTTPException {A} code.
Arguments Unhandled {A} e.

(** [get_db] around a route: the session is committed when the route
    returns and rolled back when it raises. *)
Definition get_db {A : Type} (route : State -> State * reply A) (st : State)
  : State * reply A :=
  match route st with
  | (st', Returned a) => (st', Returned a)
  | (st', r) => (rollback st st', r)
  end.

Module Routes.

Section Routes.

Variable world : World.
Variable croniter_get_next : option string -> datetime -> result datetime.

(** [POST /schedules/{schedule_id}/pause]. *)
Definition pause_schedule (schedule_id0 : string)
  : State -> State * reply Schedule :=
  get_db (fun st =>
    match
      filter (fun s => schedule_id s = schedule_id0) (schedules (db st))
    with
    | [] => (st, HTTPException 404)
    | _ :: _ :: _ => (st, Unhandled MultipleResultsFound)
    | [schedule] =>
        if decide (schedule_status schedule <> ACTIVE)
        then (st, HTTPException 400)
        else
          let '(st, schedule) := pause_schedule schedule st in
          (update_schedule schedule st, Returned schedule)
    end).

(** [POST /schedules/{schedule_id}/resume]. *)
Definition resume_schedule (schedule_id0 : string)
  : State -> State * reply Schedule :=
  get_db (fun st =>
    match
      filter (fun s => schedule_id s = schedule_id0) (schedules (db st))
    with
    | [] => (st, HTTPException 404)
    | _ :: _ :: _ => (st, Unhandled MultipleResultsFound)
    | [schedule] =>
        if decide (schedule_status schedule <> PAUSED)
        then (st, HTTPException 400)
        else
          match resume_schedule world croniter_get_next schedule st with
          | (st, Raise e) => (st, Unhandled e)
          | (st, Ok schedule) =>
              (update_schedule schedule st, Returned schedule)
          end
    end).

End Routes.

End Routes.

(* ===================================================================== *)
(** * More vocabulary                                                     *)
(* ===================================================================== *)

(** The request [_execute_attempt] builds for a target, its body apart. *)
Definition request_for (target : Target) (r : Request) : Prop :=
  kw_method r = HttpMethod_value (method target) /\
  kw_url r = url target /\
  kw_headers r = default ∅ (headers target) /\
  kw_timeout r = timeout_seconds target.

(** The delays [execute_run] sleeps after the attempts numbered
    [nums]. *)
Definition backoff_delays (self : HttpExecutor) (nums : list Z) : list Q :=
  map (fun n => Qmin (base_retry_delay self * 2 ^ (n - 1)) 30) nums.

(** Attempt numbers start at 1, and the numbers below [max_retries] are
    exactly those followed by another one, as in
    [range(1, max_retries + 1)]. *)
Definition paced (self : HttpExecutor) (nums : list Z) : Prop :=
  forall i n, nums !! i = Some n ->
    1 <= n /\ (n < max_retries self <-> (S i < length nums)%nat).

(** The table of schedules once the row of [s'] is rewritten. *)
Definition replaced (s' : Schedule) (rows : list Schedule) : list Schedule :=
  map (fun r => if decide (schedule_id r = schedule_id s') then s' else r)
    rows.

(** The row of a schedule after a run: one more run counted, the
    instant of the run and the next one noted. *)
Definition counted (s : Schedule) (last next : datetime) : Schedule :=
  set_next_run_at (Some next)
    (set_last_run_at (Some last) (set_run_count (run_count s + 1) s)).

(** The run [r] and its attempts [new] as a firing of [s] leaves them,
    when it read the instant of the run at the [k]-th clock reading,
    from [st] to [st']. *)
Definition fired_run (world : World) (s : Schedule) (k : nat)
    (st st' : State) (r : Run) (new : list Attempt) : Prop :=
  run_id r = uuid4 world (uuids st) /\
  run_schedule_id r = schedule_id s /\
  scheduled_at r = clock world k + IST_OFFSET /\
  idempotency_key r
  = Some (make_idempotency_key (schedule_id s) (scheduled_at r)) /\
  run_status r ∈ [RunStatus.SUCCESS; RunStatus.FAILED; RunStatus.TIMEOUT] /\
  run_started_at r = Some (clock world (S k)) /\
  (exists kc, (S k < kc < ticks st')%nat /\
     run_completed_at r = Some (clock world kc)) /\
  attempt_count r = Z.of_nat (length new) /\
  map attempt_number new = seqZ 1 (Z.of_nat (length new)) /\
  Forall (fun a => attempt_run_id a = run_id r) new.

(** The columns of a schedule no firing assigns. *)
Definition same_definition (s s' : Schedule) : Prop :=
  schedule_id s' = schedule_id s /\ schedule_name s' = schedule_name s /\
  schedule_target_id s' = schedule_target_id s /\ target s' = target s /\
  schedule_type s' = schedule_type s /\
  interval_seconds s' = interval_seconds s /\
  cron_expression s' = cron_expression s /\
  duration_seconds s' = duration_seconds s /\ max_runs s' = max_runs s /\
  schedule_started_at s' = schedule_started_at s /\
  expires_at s' = expires_at s.

(** A run that has come to its end. *)
Definition finished (r : Run) : Prop :=
  run_status r ∈ [RunStatus.SUCCESS; RunStatus.FAILED; RunStatus.TIMEOUT] /\
  is_Some (run_started_at r) /\ is_Some (run_completed_at r).

(** Every attempt belongs to a run of the table, and the attempts of
    each run, in the order of the table, are numbered from 1 to its
    [attempt_count]. *)
Definition attempts_owned (d : Database) : Prop :=
  forall a, a ∈ attempts d ->
    exists r, r ∈ runs d /\ run_id r = attempt_run_id a.

Definition attempts_numbered (d : Database) : Prop :=
  forall r, r ∈ runs d ->
    map attempt_number
      (filter (fun a => attempt_run_id a = run_id r) (attempts d))
    = seqZ 1 (attempt_count r).
(** What the recovery loop makes of a row, between the clock readings
    [t] and [t']. *)
Definition recovered_row (world : World) (t t' : nat) (s s' : Schedule)
  : Prop :=
  (schedule_status s <> ACTIVE -> s' = s) /\
  (schedule_status s = ACTIVE ->
   (s' = s /\ max_runs_reached s = false /\
    forall e, expires_at s = Some e ->
      exists k, (t <= k < t')%nat /\ clock world k + IST_OFFSET < e)
   \/
   (s' = set_schedule_status EXPIRED s /\
    ((exists e k, expires_at s = Some e /\ (t <= k < t')%nat /\
                  e <= clock world k + IST_OFFSET)
     \/ max_runs_reached s = true))).

(* ===================================================================== *)
(** * More situations of the concrete world                               *)
(* ===================================================================== *)

Module Situations.

(** The run the first firing of [every_minute] makes in the healthy
    world: one attempt, answered 200. *)
Definition first_run : Run :=
  {| run_id := "run-0"; run_schedule_id := "s1";
     idempotency_key := Some "s1:20240115160045";
     run_status := RunStatus.SUCCESS;
     scheduled_at := Scenario.T0 + IST_OFFSET;
     run_started_at := Some (Scenario.T0 + 1000);
     run_completed_at := Some (Scenario.T0 + 5000);
     attempt_count := 1; final_status_code := Some 200;
     final_error_type := NONE; final_error_message := None |}.

(** An active schedule whose one-hour window ended a second before the
    first clock reading. *)
Definition overdue_schedule : Schedule :=
  {| schedule_id := "s4"; schedule_name := "overdue";
     schedule_target_id := "t1"; target := Scenario.ping;
     schedule_type := INTERVAL; interval_seconds := Some 60;
     cron_expression := None; duration_seconds := Some 3600;
     max_runs := None;
     schedule_status := ACTIVE;
     schedule_started_at
     := Some (Scenario.T0 + IST_OFFSET - timedelta_seconds 3601);
     expires_at := Some (Scenario.T0 + IST_OFFSET - timedelta_seconds 1);
     run_count := 0; last_run_at := None; next_run_at := None |}.

(** The process with that schedule and its job, and nothing run yet. *)
Definition overdue : State :=
  {| ticks := 0; sent := []; uuids := 0; slept := [];
     db := {| schedules := [Scenario.every_minute; overdue_schedule];
              runs := []; attempts := [] |};
     jobs := {[ job_id_of "s4" := IntervalTrigger 60 ]};
     running_jobs := ∅ |}.

(** A schedule as the create route builds it, with a window of one
    hour, before [add_schedule] has seen it. *)
Definition new_schedule : Schedule :=
  {| schedule_id := "s5"; schedule_name := "new";
     schedule_target_id := "t1"; target := Scenario.ping;
     schedule_type := INTERVAL; interval_seconds := Some 60;
     cron_expression := None; duration_seconds := Some 3600;
     max_runs := None;
     schedule_status := ACTIVE;
     schedule_started_at := None; expires_at := None;
     run_count := 0; last_run_at := None; next_run_at := None |}.

(** The same schedule as [add_schedule] returns it at the first two
    clock readings. *)
Definition added_schedule : Schedule :=
  {| schedule_id := "s5"; schedule_name := "new";
     schedule_target_id := "t1"; target := Scenario.ping;
     schedule_type := INTERVAL; interval_seconds := Some 60;
     cron_expression := None; duration_seconds := Some 3600;
     max_runs := None;
     schedule_status := ACTIVE;
     schedule_started_at := Some (Scenario.T0 + IST_OFFSET);
     expires_at := Some (Scenario.T0 + IST_OFFSET + timedelta_seconds 3600);
     run_count := 0; last_run_at := None;
     next_run_at
     := Some (Scenario.T0 + 1000 + IST_OFFSET + timedelta_seconds 60) |}.

End Situations.

(* ===================================================================== *)
(** * Properties of the classifier, the back-off and the constructor      *)
(* ===================================================================== *)

(** C6: for every integer status code [n], [classify_status_code n] is
    [NONE] exactly when [200 <= n < 400], [CLIENT_ERROR] exactly when
    [400 <= n < 500], [SERVER_ERROR] exactly when [500 <= n < 600], and
    [UNKNOWN] for every other [n]. *)
Theorem classify_status_code_ranges (n : Z) :
  (classify_status_code n = NONE <-> 200 <= n < 400) /\
  (classify_status_code n = CLIENT_ERROR <-> 400 <= n < 500) /\
  (classify_status_code n = SERVER_ERROR <-> 500 <= n < 600) /\
  (classify_status_code n = UNKNOWN <-> n < 200 \/ 600 <= n).
Proof.
  unfold classify_status_code.
  destruct (200 <=? n) eqn:H1, (n <? 400) eqn:H2, (400 <=? n) eqn:H3,
    (n <? 500) eqn:H4, (500 <=? n) eqn:H5, (n <? 600) eqn:H6; simpl;
    repeat split; intros; try discriminate; try lia.
Qed.

(** Up to the 1024th attempt the delay is the documented formula. *)
Lemma calculate_backoff_delay_formula (n : Z) (b : Q) :
  1 <= n <= 1024 ->
  calculate_backoff_delay n b 30 = Ok (Qmin (b * 2 ^ (n - 1)) 30)%Q.
Proof.
  intros Hn. unfold calculate_backoff_delay, float_of_pow2.
  destruct (1024 <=? n - 1) eqn:E; [lia|].
  destruct (n - 1 <? -1074) eqn:E'; [lia | reflexivity].
Qed.

(** From the 1025th attempt on there is no delay at all: the power of
    two is converted to a float before the cap is applied. *)
Lemma calculate_backoff_delay_overflow (n : Z) (b : Q) :
  1025 <= n -> calculate_backoff_delay n b 30 = Raise OverflowError.
Proof.
  intros Hn. unfold calculate_backoff_delay, float_of_pow2.
  destruct (1024 <=? n - 1) eqn:E; [reflexivity | lia].
Qed.

(** C7: at attempt 1025 with the default base delay of one second the
    formula [min(b * 2^(n-1), 30.0)] gives 30 seconds, and
    [calculate_backoff_delay] raises [OverflowError] instead. *)
Theorem calculate_backoff_delay_1025 :
  calculate_backoff_delay 1025 1 30 = Raise OverflowError /\
  (Qmin (1 * 2 ^ (1025 - 1)) 30 == 30)%Q.
Proof.
  split; [reflexivity|].
  rewrite Q.min_r; [reflexivity|].
  rewrite Qmult_1_l.
  apply Qle_trans with (y := (2 ^ 5)%Q); [discriminate|].
  apply Qpower_le_compat_l; [lia | discriminate].
Qed.

Lemma or_Z_nonzero (x : option Z) (d : Z) : d <> 0 -> or_Z x d <> 0.
Proof.
  intros Hd. unfold or_Z. destruct x as [n|]; [|exact Hd].
  destruct (n =? 0) eqn:E; [exact Hd | lia].
Qed.

Lemma or_Q_nonzero (x : option Q) (d : Q) :
  ~ (d == 0)%Q -> ~ (or_Q x d == 0)%Q.
Proof.
  intros Hd. unfold or_Q. destruct x as [q|]; [|exact Hd].
  destruct (Qeq_bool q 0) eqn:E; [exact Hd|].
  apply Qeq_bool_neq. exact E.
Qed.

Lemma backoff_nonzero (n : Z) (b d : Q) :
  ~ (b == 0)%Q -> -1074 < n ->
  calculate_backoff_delay n b 30 = Ok d -> ~ (d == 0)%Q.
Proof.
  intros Hb Hn. unfold calculate_backoff_delay, float_of_pow2.
  destruct (1024 <=? n - 1); [discriminate|].
  destruct (n - 1 <? -1074) eqn:E'; [lia|].
  intros H. inversion H; subst d. clear H.
  destruct (Q.min_dec (b * 2 ^ (n - 1)) 30) as [E|E]; rewrite E.
  - intros Hz. apply Qmult_integral in Hz. destruct Hz as [Hz|Hz].
    + contradiction.
    + revert Hz. apply Qpower_not_0. discriminate.
  - discriminate.
Qed.

Lemma backoff_negative (n : Z) (b d : Q) :
  (b < 0)%Q -> 1 <= n ->
  calculate_backoff_delay n b 30 = Ok d -> (d < 0)%Q.
Proof.
  intros Hb Hn. unfold calculate_backoff_delay, float_of_pow2.
  destruct (1024 <=? n - 1); [discriminate|].
  destruct (n - 1 <? -1074) eqn:E'; [lia|].
  intros H. inversion H; subst d. clear H.
  apply Qle_lt_trans with (y := (b * 2 ^ (n - 1))%Q); [apply Q.le_min_l|].
  assert (Hp : (0 < 2 ^ (n - 1))%Q) by (apply Qpower_0_lt; reflexivity).
  pose proof (Qmult_lt_compat_r b 0 (2 ^ (n - 1)) Hp Hb) as H.
  rewrite Qmult_0_l in H. exact H.
Qed.

Lemma range_empty (lo hi : Z) : hi <= lo -> range lo hi = [].
Proof.
  intros H. unfold range, seqZ.
  replace (Z.to_nat (hi - lo)) with 0%nat by lia. reflexivity.
Qed.

(** With [max_retries] below 1 the loop of [execute_run] has nothing to
    range over: no request is sent, no attempt stored, and the run ends
    [FAILED] with its attempt count untouched. *)
Lemma execute_run_no_attempt
    (world : World) (py_int : string -> option Z) (self : HttpExecutor)
    (run : Run) (target : Target) (st : State) :
  max_retries self < 1 ->
  sent (fst (execute_run world py_int self run target st)) = sent st /\
  attempts (db (fst (execute_run world py_int self run target st)))
  = attempts (db st) /\
  exists run',
    snd (execute_run world py_int self run target st) = Ok run' /\
    run_status run' = RunStatus.FAILED /\
    attempt_count run' = attempt_count run.
Proof.
  intros Hm. unfold execute_run.
  rewrite (range_empty 1 (max_retries self + 1)) by lia.
  simpl. repeat split. eexists. repeat split.
Qed.

(** C10, as amended: [HttpExecutor(max_retries=0)] and
    [HttpExecutor(base_retry_delay=0.0)] take the configured values
    instead (3 and 1.0 with the defaults), because the constructor tests
    truthiness; so with the default settings no constructor argument
    gives an executor whose [max_retries] is 0 or whose base delay is 0,
    and no back-off delay it computes for an attempt, numbered from 1, is
    0.  Every other argument is kept as given: an executor built with a
    negative [max_retries] makes no attempt at all, whatever the world,
    the run and the target, and the run ends [FAILED]; with a negative
    base delay every delay computed for an attempt is negative. *)
Theorem HttpExecutor_init_truthiness :
  (forall settings b,
     max_retries (HttpExecutor_init settings (Some 0) b)
     = settings_max_retries settings) /\
  (forall settings m,
     base_retry_delay (HttpExecutor_init settings m (Some 0%Q))
     = retry_delay_seconds settings) /\
  (forall b,
     max_retries (HttpExecutor_init Settings_defaults (Some 0) b) = 3) /\
  (forall m,
     base_retry_delay (HttpExecutor_init Settings_defaults m (Some 0%Q))
     = 1%Q) /\
  (forall m b,
     max_retries (HttpExecutor_init Settings_defaults m b) <> 0 /\
     ~ (base_retry_delay (HttpExecutor_init Settings_defaults m b) == 0)%Q) /\
  (forall m b n d,
     1 <= n ->
     calculate_backoff_delay n
       (base_retry_delay (HttpExecutor_init Settings_defaults m b)) 30
     = Ok d ->
     ~ (d == 0)%Q) /\
  (forall settings m b,
     m <> 0 -> max_retries (HttpExecutor_init settings (Some m) b) = m) /\
  (forall settings m b,
     ~ (b == 0)%Q ->
     base_retry_delay (HttpExecutor_init settings m (Some b)) = b) /\
  (forall settings m b world py_int run target st,
     m < 0 ->
     let self := HttpExecutor_init settings (Some m) b in
     sent (fst (execute_run world py_int self run target st)) = sent st /\
     attempts (db (fst (execute_run world py_int self run target st)))
     = attempts (db st) /\
     exists run',
       snd (execute_run world py_int self run target st) = Ok run' /\
       run_status run' = RunStatus.FAILED /\
       attempt_count run' = attempt_count run) /\
  (forall settings m b n d,
     (b < 0)%Q -> 1 <= n ->
     calculate_backoff_delay n
       (base_retry_delay (HttpExecutor_init settings m (Some b))) 30
     = Ok d ->
     (d < 0)%Q).
Proof.
  assert (Hkeep_m : forall settings m b,
            m <> 0 -> max_retries (HttpExecutor_init settings (Some m) b) = m).
  { intros settings m b Hm. simpl.
    destruct (m =? 0) eqn:E; [lia | reflexivity]. }
  assert (Hkeep_b : forall settings m b,
            ~ (b == 0)%Q ->
            base_retry_delay (HttpExecutor_init settings m (Some b)) = b).
  { intros settings m b Hb. simpl.
    destruct (Qeq_bool b 0) eqn:E; [|reflexivity].
    apply Qeq_bool_iff in E. contradiction. }
  repeat apply conj; try reflexivity; try assumption.
  - intros m b. split.
    + apply or_Z_nonzero. discriminate.
    + apply or_Q_nonzero. discriminate.
  - intros m b n d Hn. apply backoff_nonzero; [|lia].
    apply or_Q_nonzero. discriminate.
  - intros settings m b world py_int run target st Hm self.
    apply execute_run_no_attempt. unfold self.
    rewrite Hkeep_m by lia. lia.
  - intros settings m b n d Hb Hn. rewrite Hkeep_b.
    + apply backoff_negative; assumption.
    + intros Hz. rewrite Hz in Hb. discriminate.
Qed.

(** C10, as stated, fails: the constructor accepts [max_retries=-1],
    and the executor it builds makes no attempt at all, whatever the
    world, the run and the target; the run ends [FAILED] with its
    attempt count untouched. *)
Lemma negative_max_retries_makes_no_attempt :
  max_retries (HttpExecutor_init Settings_defaults (Some (-1)) None) = -1 /\
  forall w p run target st,
    sent (fst (execute_run w p
                 (HttpExecutor_init Settings_defaults (Some (-1)) None)
                 run target st)) = sent st /\
    attempts (db (fst (execute_run w p
                 (HttpExecutor_init Settings_defaults (Some (-1)) None)
                 run target st))) = attempts (db st) /\
    exists run',
      snd (execute_run w p
             (HttpExecutor_init Settings_defaults (Some (-1)) None)
             run target st) = Ok run' /\
      run_status run' = RunStatus.FAILED /\
      attempt_count run' = attempt_count run.
Proof.
  split; [reflexivity|]. intros w p run target st.
  unfold execute_run. simpl. repeat split. eexists. repeat split.
Qed.

(* ===================================================================== *)
(** * Properties of the stored response body                              *)
(* ===================================================================== *)

Section BodyFacts.

Variable py_int : string -> option Z.

(** C8, as amended: when the Content-Length header is present and its
    value [n] exceeds 100 KiB, the stored body is the marker built from
    the header value, whatever the text; when the header is present and
    [int] does not read it, nothing is stored; when the header is
    absent, empty, or at most 100 KiB, the stored body is the decoded
    text, whole when it has at most 102400 characters, and otherwise its
    first 102400 characters followed by a newline and
    [[...truncated...]]. *)
Theorem _safe_read_body_spec (response : Response) :
  let header := response_header_map response !! "content-length" in
  (forall v n, header = Some v -> v <> "" -> py_int v = Some n ->
     MAX_RESPONSE_BODY_SIZE < n ->
     _safe_read_body py_int response = Some (truncation_marker v)) /\
  (forall v, header = Some v -> v <> "" -> py_int v = None ->
     _safe_read_body py_int response = None) /\
  (header = None \/ header = Some "" \/
   (exists v n, header = Some v /\ py_int v = Some n
                /\ n <= MAX_RESPONSE_BODY_SIZE) ->
   (MAX_RESPONSE_BODY_SIZE < Z.of_nat (length (text response)) ->
    exists kept rest,
      text response = kept ++ rest /\
      Z.of_nat (length kept) = MAX_RESPONSE_BODY_SIZE /\
      _safe_read_body py_int response
      = Some (kept ++ 10%N :: str_of "[...truncated...]")) /\
   (Z.of_nat (length (text response)) <= MAX_RESPONSE_BODY_SIZE ->
    _safe_read_body py_int response = Some (text response))).
Proof.
  intros header. subst header.
  assert (Hread :
    forall out,
      out = (if MAX_RESPONSE_BODY_SIZE <? Z.of_nat (length (text response))
             then Some (take (Z.to_nat MAX_RESPONSE_BODY_SIZE) (text response)
                        ++ str_of (newline +:+ "[...truncated...]"))
             else Some (text response)) ->
      (MAX_RESPONSE_BODY_SIZE < Z.of_nat (length (text response)) ->
       exists kept rest,
         text response = kept ++ rest /\
         Z.of_nat (length kept) = MAX_RESPONSE_BODY_SIZE /\
         out = Some (kept ++ 10%N :: str_of "[...truncated...]")) /\
      (Z.of_nat (length (text response)) <= MAX_RESPONSE_BODY_SIZE ->
       out = Some (text response))).
  { intros out ->.
    destruct (MAX_RESPONSE_BODY_SIZE <? Z.of_nat (length (text response)))
      eqn:E; split; intros Hlen; try lia; [|reflexivity].
    exists (take (Z.to_nat MAX_RESPONSE_BODY_SIZE) (text response)),
           (drop (Z.to_nat MAX_RESPONSE_BODY_SIZE) (text response)).
    split; [symmetry; apply take_drop|]. split; [|reflexivity].
    rewrite length_take. unfold MAX_RESPONSE_BODY_SIZE in *. lia. }
  unfold _safe_read_body, truncation_marker.
  split; [|split].
  - intros v n Hh Hne Hint Hbig. rewrite Hh.
    destruct v as [|c v]; [contradiction|]. rewrite Hint.
    destruct (MAX_RESPONSE_BODY_SIZE <? n) eqn:E; [reflexivity | lia].
  - intros v Hh Hne Hint. rewrite Hh.
    destruct v as [|c v]; [contradiction|]. rewrite Hint. reflexivity.
  - intros Hcase. apply Hread.
    destruct Hcase as [->|[->|(v & n & -> & Hn & Hle)]]; try reflexivity.
    destruct v as [|c v]; [reflexivity|]. rewrite Hn.
    destruct (MAX_RESPONSE_BODY_SIZE <? n) eqn:En; [lia | reflexivity].
Qed.

End BodyFacts.

(* ===================================================================== *)
(** * Properties of the executor                                          *)
(* ===================================================================== *)

Section ExecutorFacts.

Variable world : World.
Variable py_int : string -> option Z.
Variable self : HttpExecutor.
Variable target : Target.

Lemma _prepare_body_frame (t : option string) (st : State) :
  let st' := fst (_prepare_body world t st) in
  db st' = db st /\ sent st' = sent st /\ jobs st' = jobs st /\
  running_jobs st' = running_jobs st /\ uuids st' = uuids st /\
  slept st' = slept st /\ (ticks st <= ticks st')%nat.
Proof.
  unfold _prepare_body. destruct t as [[|c s]|]; simpl; repeat split; lia.
Qed.

Lemma _execute_attempt_effect (run : Run) (n : Z) (st : State) :
  let '(st', a) := _execute_attempt world py_int self run target n st in
  attempts (db st') = attempts (db st) ++ [a] /\
  same_but_attempts st st' /\
  attempt_number a = n /\ attempt_run_id a = run_id run /\
  length (sent st') = S (length (sent st)).
Proof.
  unfold _execute_attempt.
  pose proof (_prepare_body_frame (body_template target) st) as Hp.
  destruct (_prepare_body world (body_template target) st) as [st0 body].
  simpl in Hp. destruct Hp as (Hdb & Hsent & Hj & Hr & Hu & _ & _).
  unfold request, utcnow, same_but_attempts. simpl.
  rewrite Hsent.
  destruct (net world (length (sent st))) as [response|e]; simpl;
    rewrite ?Hdb, ?Hj, ?Hr, ?Hu, ?length_app; simpl;
    repeat split; rewrite ?Hsent; try lia; reflexivity.
Qed.

(** C9, as amended: an attempt that received a response has
    [latency_ms] equal to [completed_at] minus the clock reading taken
    just before the request was issued, in milliseconds; that reading is
    the one after [started_at].  The milliseconds are the float that
    [total_seconds() * 1000] gives: the difference divided by [10**6],
    rounded to a double, times 1000, rounded again.  An attempt whose
    request raised has [completed_at] set and [latency_ms] unset.  ([t0]
    is the number of clock readings taken once the body is prepared.) *)
Theorem _execute_attempt_latency (run : Run) (n : Z) (st : State) :
  let a := snd (_execute_attempt world py_int self run target n st) in
  let t0 := ticks (fst (_prepare_body world (body_template target) st)) in
  started_at a = clock world t0 /\
  completed_at a = Some (clock world (S (S t0))) /\
  match net world (length (sent st)) with
  | Responded _ =>
      latency_ms a
      = Some (binary64
                (total_seconds (clock world (S (S t0)) - clock world (S t0))%Z
                 * 1000))
  | Raised _ => latency_ms a = None
  end.
Proof.
  unfold _execute_attempt.
  pose proof (_prepare_body_frame (body_template target) st) as Hp.
  destruct (_prepare_body world (body_template target) st) as [st0 body].
  simpl in Hp. destruct Hp as (_ & Hsent & _).
  unfold request, utcnow. simpl. rewrite Hsent.
  destruct (net world (length (sent st))) as [response|e]; simpl; auto.
Qed.

Lemma retry_loop_trace (nums : list Z) :
  forall run last0 st st' res,
    retry_loop world py_int self target nums run last0 st = (st', res) ->
    exists new,
      attempts (db st') = attempts (db st) ++ new /\
      same_but_attempts st st' /\
      (length new <= length nums)%nat /\
      (forall i a, new !! i = Some a ->
         nums !! i = Some (attempt_number a) /\
         attempt_run_id a = run_id run) /\
      (forall i a, new !! i = Some a -> (S i < length new)%nat ->
         retryable (error_type a)) /\
      loop_post self nums run last0 new res.
Proof.
  induction nums as [|n rest IH]; intros run last0 st st' res Hloop.
  - simpl in Hloop. inversion Hloop; subst. exists [].
    rewrite app_nil_r. unfold same_but_attempts. simpl.
    split; [|split; [|split; [|split; [|split]]]]; auto.
    + intros i a Hi. discriminate.
    + intros i a Hi. discriminate.
  - simpl in Hloop.
    pose proof (_execute_attempt_effect run n st) as Hatt.
    destruct (_execute_attempt world py_int self run target n st)
      as [st1 a].
    destruct Hatt as (Hdb & Hframe & Hnum & Hrid & _).
    assert (Hone : forall i a0, [a] !! i = Some a0 ->
              (n :: rest) !! i = Some (attempt_number a0) /\
              attempt_run_id a0 = run_id run).
    { intros [|i] a0 Hi; simpl in Hi; [|discriminate].
      inversion Hi; subst a0. simpl. rewrite Hnum. auto. }
    destruct (decide (error_type a = NONE)) as [Hnone|Hnone].
    { inversion Hloop; subst. exists [a]. simpl.
      split; [|split; [|split; [|split; [|split]]]]; auto; lia. }
    destruct (decide (error_type a = CLIENT_ERROR)) as [Hcli|Hcli].
    { inversion Hloop; subst. exists [a]. simpl.
      split; [|split; [|split; [|split; [|split]]]]; auto; lia. }
    assert (Hretry : retryable (error_type a)) by (split; assumption).
    assert (Hrec : forall st2, same_but_attempts st1 st2 ->
              attempts (db st2) = attempts (db st1) ->
              retry_loop world py_int self target rest
                (set_attempt_count n run) (Some a) st2 = (st', res) ->
              exists new,
                attempts (db st') = attempts (db st) ++ new /\
                same_but_attempts st st' /\
                (length new <= length (n :: rest))%nat /\
                (forall i a0, new !! i = Some a0 ->
                   (n :: rest) !! i = Some (attempt_number a0) /\
                   attempt_run_id a0 = run_id run) /\
                (forall i a0, new !! i = Some a0 ->
                   (S i < length new)%nat -> retryable (error_type a0)) /\
                loop_post self (n :: rest) run last0 new res).
    { intros st2 Hf2 Ha2 Hrest.
      destruct (IH _ _ _ _ _ Hrest)
        as (new & Hnew & Hf & Hlen & Hnums & Hmid & Hpost).
      exists (a :: new). split; [|split; [|split; [|split; [|split]]]].
      - rewrite Hnew, Ha2, Hdb, <- app_assoc. reflexivity.
      - unfold same_but_attempts in *. intuition congruence.
      - simpl. lia.
      - intros [|i] a0 Hi; simpl in *.
        + inversion Hi; subst. auto.
        + apply (Hnums i a0 Hi).
      - intros [|i] a0 Hi Hlt; simpl in *.
        + inversion Hi; subst. assumption.
        + apply (Hmid i a0 Hi). lia.
      - unfold loop_post in *. destruct res as [[run' last']|e].
        + destruct new as [|b new'].
          * simpl in *. destruct Hpost as (Hnil & Hrun & Hlast).
            subst. split; [reflexivity|]. right; right.
            repeat split; auto; apply Hretry.
          * rewrite last_cons_cons.
            destruct (last (b :: new')) as [z|] eqn:Hz.
            -- destruct Hpost as (Hl & Hcase). split; [exact Hl|].
               destruct Hcase as [[? ?]|[[? ?]|(? & ? & ?)]].
               ++ left. split; assumption.
               ++ right; left. split; assumption.
               ++ right; right. repeat split; auto; try apply H.
                  simpl in *. lia.
            -- apply last_None in Hz. discriminate.
        + destruct Hpost as (He & z & Hz & Hrz & Hlt & Hbig).
          split; [exact He|]. exists z. repeat split; auto; try apply Hrz.
          destruct new as [|b new']; [discriminate|].
          rewrite last_cons_cons. exact Hz. }
    destruct (n <? max_retries self) eqn:Hlt.
    + destruct (calculate_backoff_delay n (base_retry_delay self) 30)
        as [d|e] eqn:Hback.
      * apply (Hrec (sleep d st1)); [|reflexivity|exact Hloop].
        unfold same_but_attempts; simpl; auto.
      * inversion Hloop; subst. exists [a]. simpl.
        split; [|split; [|split; [|split; [|split]]]]; auto; try lia.
        unfold calculate_backoff_delay, float_of_pow2 in Hback.
        destruct (1024 <=? attempt_number a - 1) eqn:E;
          [|destruct (attempt_number a - 1 <? -1074); discriminate].
        split; [congruence|]. exists a.
        split; [reflexivity|]. split; [exact Hretry|]. lia.
    + apply (Hrec st1); [|reflexivity|exact Hloop].
      unfold same_but_attempts; auto.
Qed.

Lemma start_run_frame (run : Run) (st : State) :
  attempts (db (fst (start_run world run st))) = attempts (db st) /\
  run_id (snd (start_run world run st)) = run_id run /\
  run_status (snd (start_run world run st)) = RunStatus.RUNNING.
Proof. unfold start_run. simpl. auto. Qed.

Lemma range_length (lo hi : Z) : length (range lo hi) = Z.to_nat (hi - lo).
Proof. unfold range. apply length_seqZ. Qed.

Lemma range_lookup (lo hi : Z) (i : nat) (x : Z) :
  range lo hi !! i = Some x -> x = lo + Z.of_nat i.
Proof.
  unfold range. intros H. apply lookup_seqZ in H. lia.
Qed.

(** [execute_run] in terms of the attempts it adds. *)
Lemma execute_run_trace (run : Run) (st : State) :
  exists new res0,
    attempts (db (fst (execute_run world py_int self run target st)))
    = attempts (db st) ++ new /\
    (length new <= Z.to_nat (max_retries self))%nat /\
    (forall i a, new !! i = Some a ->
       attempt_number a = Z.of_nat (S i) /\
       attempt_run_id a = run_id run) /\
    (forall i a, new !! i = Some a -> (S i < length new)%nat ->
       retryable (error_type a)) /\
    loop_post self (range 1 (max_retries self + 1))
      (snd (start_run world run st)) None new res0 /\
    match res0 with
    | Raise e =>
        snd (execute_run world py_int self run target st) = Raise e
    | Ok (run1, last1) =>
        exists now,
          snd (execute_run world py_int self run target st)
          = Ok (set_run_completed_at (Some now) (exhausted run1 last1))
    end.
Proof.
  unfold execute_run.
  pose proof (start_run_frame run st) as (Hatt0 & Hid0 & _).
  destruct (start_run world run st) as [st0 run0]. simpl in *.
  destruct (retry_loop world py_int self target
              (range 1 (max_retries self + 1)) run0 None st0)
    as [st1 res0] eqn:Hloop.
  destruct (retry_loop_trace _ _ _ _ _ _ Hloop)
    as (new & Hnew & Hframe & Hlen & Hnums & Hmid & Hpost).
  exists new, res0.
  rewrite range_length in Hlen.
  assert (Hnum : forall i a, new !! i = Some a ->
            attempt_number a = Z.of_nat (S i) /\
            attempt_run_id a = run_id run).
  { intros i a Hi. destruct (Hnums i a Hi) as [Hn Hr].
    apply range_lookup in Hn. split; [lia | congruence]. }
  destruct res0 as [[run1 last1]|e]; simpl.
  - split; [rewrite Hnew, Hatt0; reflexivity|].
    split; [lia|]. split; [exact Hnum|]. split; [exact Hmid|].
    split; [exact Hpost|]. eexists. reflexivity.
  - split; [rewrite Hnew, Hatt0; reflexivity|].
    split; [lia|]. split; [exact Hnum|]. split; [exact Hmid|].
    split; [exact Hpost|]. reflexivity.
Qed.

(** C1: if the retry loop of [execute_run] ends with the run still
    [RUNNING] after a last attempt [a], then [execute_run] returns a run
    whose status is [TIMEOUT] if and only if the error kind of [a] is
    [TIMEOUT], and [FAILED] otherwise, and whose [final_status_code],
    [final_error_type] and [final_error_message] are those of [a]; [a]
    is then the last attempt stored and the [max_retries]-th one. *)
Theorem execute_run_retries_exhausted
    (run : Run) (st st1 : State) (run1 : Run) (a : Attempt) :
  retry_loop world py_int self target (range 1 (max_retries self + 1))
    (snd (start_run world run st)) None (fst (start_run world run st))
  = (st1, Ok (run1, Some a)) ->
  run_status run1 = RunStatus.RUNNING ->
  exists st' run',
    execute_run world py_int self run target st = (st', Ok run') /\
    (run_status run' = RunStatus.TIMEOUT <-> error_type a = TIMEOUT) /\
    (error_type a <> TIMEOUT -> run_status run' = RunStatus.FAILED) /\
    final_status_code run' = status_code a /\
    final_error_type run' = error_type a /\
    final_error_message run' = error_message a /\
    last (attempts (db st')) = Some a /\
    attempt_number a = max_retries self /\
    attempt_count run' = max_retries self.
Proof.
  intros Hloop Hrunning.
  destruct (retry_loop_trace _ _ _ _ _ _ Hloop)
    as (new & Hnew & _ & Hlen & Hnums & _ & Hpost).
  unfold loop_post in Hpost.
  destruct (last new) as [z|] eqn:Hz;
    [|destruct Hpost as (_ & _ & Hnone); discriminate].
  destruct Hpost as (Hsome & Hcase). inversion Hsome; subst z.
  destruct Hcase as [[_ Hrun]|[[_ Hrun]|(_ & Hfull & Hrun)]];
    [subst run1; discriminate | subst run1; discriminate |].
  assert (Hnum : attempt_number a = max_retries self).
  { rewrite last_lookup in Hz. destruct (Hnums _ _ Hz) as [Hn _].
    apply lookup_lt_Some in Hz as Hlt.
    apply range_lookup in Hn. rewrite range_length in Hfull. lia. }
  unfold execute_run.
  destruct (start_run world run st) as [st0 run0]. simpl in Hloop, Hrun.
  rewrite Hloop. unfold finish_run, exhausted, utcnow.
  destruct (decide (run_status run1 = RunStatus.RUNNING)); [|contradiction].
  eexists; eexists. split; [reflexivity|]. simpl. rewrite Hnew.
  rewrite last_app, Hz.
  destruct (decide (error_type a = TIMEOUT)) as [Ht|Ht]; simpl;
    subst run1; simpl; rewrite ?Hnum;
    (split; [split; intros; congruence|]);
    (split; [intros; congruence|]); auto 10.
Qed.

(** The error kinds in [execute_run], short of the overflow of the
    back-off: among the attempts [new] that [execute_run] adds, one
    whose error kind is [CLIENT_ERROR] is the last one (no further
    attempt is made), and the run returned is [FAILED] with that
    attempt's status code, error kind and error message as its [final_*]
    fields; at most [max_retries] attempts are made, and an attempt
    whose kind is TIMEOUT, DNS, CONNECTION, SSL, SERVER_ERROR or UNKNOWN
    and whose number is below [max_retries] and at most 1024 is followed
    by another one.  After the 1025th attempt none follows
    ([execute_run_abandoned_after_1025_attempts]). *)
Theorem execute_run_client_error_not_retried (run : Run) (st : State) :
  exists new,
    attempts (db (fst (execute_run world py_int self run target st)))
    = attempts (db st) ++ new /\
    (length new <= Z.to_nat (max_retries self))%nat /\
    (forall i a, new !! i = Some a -> error_type a = CLIENT_ERROR ->
       length new = S i /\
       exists run',
         snd (execute_run world py_int self run target st) = Ok run' /\
         run_status run' = RunStatus.FAILED /\
         final_status_code run' = status_code a /\
         final_error_type run' = CLIENT_ERROR /\
         final_error_message run' = error_message a /\
         attempt_count run' = attempt_number a) /\
    (forall i a, new !! i = Some a ->
       error_type a ∈ [TIMEOUT; DNS; CONNECTION; SSL; SERVER_ERROR; UNKNOWN] ->
       Z.of_nat (S i) < max_retries self -> Z.of_nat (S i) <= 1024 ->
       is_Some (new !! S i)).
Proof.
  destruct (execute_run_trace run st)
    as (new & res0 & Hnew & Hlen & Hnum & Hmid & Hpost & Hres).
  exists new. split; [exact Hnew|]. split; [exact Hlen|]. split.
  - intros i a Hi Hcli.
    assert (Hlast : length new = S i).
    { apply lookup_lt_Some in Hi as Hlt.
      destruct (decide (S i < length new)%nat) as [Hin|Hout]; [|lia].
      destruct (Hmid i a Hi Hin) as [_ Hne]. contradiction. }
    split; [exact Hlast|].
    assert (Hl : last new = Some a).
    { rewrite last_lookup, Hlast. exact Hi. }
    unfold loop_post in Hpost. destruct res0 as [[run1 last1]|e].
    + rewrite Hl in Hpost. destruct Hpost as (_ & Hcase).
      destruct Hres as (now & Hres). eexists. split; [exact Hres|].
      destruct Hcase as [[Hn _]|[[_ Hrun]|[[_ Hne] _]]];
        [congruence | | contradiction].
      subst run1. unfold exhausted. simpl.
      repeat split; auto.
    + destruct Hpost as (_ & z & Hz & [_ Hne] & _).
      rewrite Hl in Hz. inversion Hz; subst. contradiction.
  - intros i a Hi Hkind Hlt Hsmall.
    apply lookup_lt_is_Some.
    apply lookup_lt_Some in Hi as Hin.
    destruct (decide (S i < length new)%nat) as [|Hout]; [assumption|].
    assert (Hlast : length new = S i) by lia.
    assert (Hl : last new = Some a).
    { rewrite last_lookup, Hlast. exact Hi. }
    assert (Hre : retryable (error_type a)).
    { split; intros E; rewrite E in Hkind;
        repeat (apply elem_of_cons in Hkind as [Hkind|Hkind];
                [discriminate|]); inversion Hkind. }
    unfold loop_post in Hpost. destruct res0 as [[run1 last1]|e].
    + rewrite Hl in Hpost. destruct Hpost as (_ & Hcase).
      destruct Hre as [Hre1 Hre2].
      destruct Hcase as [[Hn _]|[[Hn _]|(_ & Hfull & _)]];
        [contradiction | contradiction |].
      rewrite range_length in Hfull. lia.
    + destruct Hpost as (_ & z & Hz & _ & _ & Hbig).
      rewrite Hl in Hz. inversion Hz; subst z.
      destruct (Hnum i a Hi) as [Hn _]. lia.
Qed.

Lemma exhausted_identity (r : Run) (l : option Attempt) :
  same_identity r (exhausted r l).
Proof.
  unfold exhausted, same_identity.
  destruct (decide (run_status r = RunStatus.RUNNING)); [|auto].
  destruct l as [a|]; [|simpl; auto].
  destruct (decide (error_type a = TIMEOUT)); simpl; auto.
Qed.

Lemma replace_twice (r1 r2 : Run) (rows : list Run) :
  run_id r2 = run_id r1 ->
  map (fun r => if decide (run_id r = run_id r2) then r2 else r)
    (map (fun r => if decide (run_id r = run_id r1) then r1 else r) rows)
  = map (fun r => if decide (run_id r = run_id r2) then r2 else r) rows.
Proof.
  intros Hid. rewrite map_map. apply map_ext. intros r.
  destruct (decide (run_id r = run_id r1)) as [E|E].
  - rewrite decide_True by congruence.
    rewrite decide_True by congruence. reflexivity.
  - reflexivity.
Qed.

(** What [execute_run] leaves alone, and what it does to the table of
    runs: the row of the run is rewritten, its identity kept. *)
Lemma execute_run_frame (run : Run) (st : State) :
  let st' := fst (execute_run world py_int self run target st) in
  schedules (db st') = schedules (db st) /\ jobs st' = jobs st /\
  running_jobs st' = running_jobs st /\ uuids st' = uuids st /\
  match snd (execute_run world py_int self run target st) with
  | Ok run' =>
      same_identity run run' /\
      runs (db st')
      = map (fun r => if decide (run_id r = run_id run') then run' else r)
          (runs (db st))
  | Raise _ => True
  end.
Proof.
  unfold execute_run, start_run, utcnow.
  destruct (retry_loop world py_int self target
              (range 1 (max_retries self + 1))
              (set_run_started_at (Some (clock world (ticks st)))
                 (set_run_status RunStatus.RUNNING run)) None
              (update_run
                 (set_run_started_at (Some (clock world (ticks st)))
                    (set_run_status RunStatus.RUNNING run)) (tick st)))
    as [st1 res0] eqn:Hloop.
  destruct (retry_loop_trace _ _ _ _ _ _ Hloop)
    as (new & _ & (Hruns & Hsch & Hj & Hrj & Hu) & _ & _ & _ & Hpost).
  simpl in Hruns, Hsch, Hj, Hrj, Hu.
  destruct res0 as [[run1 last1]|e]; simpl.
  - assert (Hid : same_identity run run1).
    { unfold loop_post in Hpost. unfold same_identity.
      destruct (last new) as [a|].
      - destruct Hpost as (_ & [[_ ->]|[[_ ->]|(_ & _ & ->)]]);
          simpl; auto.
      - destruct Hpost as (_ & -> & _). simpl. auto. }
    pose proof (exhausted_identity run1 last1) as Hex.
    unfold same_identity in *.
    destruct Hid as (I1 & I2 & I3 & I4). destruct Hex as (E1 & E2 & E3 & E4).
    repeat split; simpl; try congruence.
    rewrite Hruns.
    refine (replace_twice
              (set_run_started_at (Some (clock world (ticks st)))
                 (set_run_status RunStatus.RUNNING run))
              (set_run_completed_at (Some (clock world (ticks st1)))
                 (exhausted run1 last1)) _ _).
    simpl. congruence.
  - auto.
Qed.

End ExecutorFacts.

(* ===================================================================== *)
(** * Properties of the scheduler                                         *)
(* ===================================================================== *)

(** The key format reads only the whole second of the instant. *)
Lemma strftime_same_second (t1 t2 : datetime) :
  wall_second t1 = wall_second t2 -> strftime_YmdHMS t1 = strftime_YmdHMS t2.
Proof.
  intros H. unfold strftime_YmdHMS, fields_of. rewrite H.
  destruct (_ord2ymd (wall_second t2 / 86400 + 1)) as [[y m] d]. reflexivity.
Qed.

Lemma filter_singleton_holds {A} (P : A -> Prop)
    `{!forall x, Decision (P x)} (l : list A) (x : A) :
  filter P l = [x] -> P x.
Proof.
  intros Hf. assert (Hx : x ∈ filter P l) by (rewrite Hf; left).
  apply list_elem_of_filter in Hx. tauto.
Qed.

Lemma one_run_per_second_singleton (r : Run) : one_run_per_second [r].
Proof.
  intros i j r1 r2 Hi Hj _ _.
  apply list_lookup_singleton_Some in Hi as [Hi _].
  apply list_lookup_singleton_Some in Hj as [Hj _]. lia.
Qed.

Section SchedulerFacts.

Variable world : World.
Variable py_int : string -> option Z.
Variable croniter_get_next : option string -> datetime -> result datetime.
Variable settings : Settings.

Lemma _calculate_next_run_db (s : Schedule) (st : State) :
  db (fst (_calculate_next_run world croniter_get_next s st)) = db st.
Proof.
  unfold _calculate_next_run. simpl.
  destruct (schedule_type s); [destruct (interval_seconds s)|]; reflexivity.
Qed.

(** A firing that ends without an exception has at most appended one
    run. *)
Lemma fire_runs (sid : string) (st st' : State) (res : result unit) :
  fire world py_int croniter_get_next settings sid st = (st', res) ->
  match res with
  | Ok _ => appended world sid st st'
  | Raise _ => True
  end.
Proof.
  unfold fire. intros H.
  destruct (filter (fun s => schedule_id s = sid) (schedules (db st)))
    as [|schedule [|s2 l]] eqn:Hsel.
  { inversion H; subst. left; reflexivity. }
  2:{ inversion H; subst. exact I. }
  assert (Hsid : schedule_id schedule = sid).
  { apply (filter_singleton_holds _ _ _ Hsel). }
  destruct (decide (schedule_status schedule <> ACTIVE)).
  { inversion H; subst. left; reflexivity. }
  match type of H with
  | context [match ?x with (_, _) => _ end] =>
      destruct x as [st0 over] eqn:Hpre
  end.
  assert (Hdb0 : db st0 = db st /\
                 (ticks st0 = ticks st \/ ticks st0 = S (ticks st))).
  { destruct (expires_at schedule); inversion Hpre; subst; simpl; auto. }
  destruct Hdb0 as [Hdb0 Hk]. clear Hpre.
  destruct over.
  { inversion H; subst. left. simpl. rewrite Hdb0. reflexivity. }
  destruct (max_runs_reached schedule).
  { inversion H; subst. left. simpl. rewrite Hdb0. reflexivity. }
  unfold now_ist at 1 in H.
  set (now := clock world (ticks st0) + IST_OFFSET) in H.
  set (key := make_idempotency_key (schedule_id schedule) now) in H.
  change (db (tick st0)) with (db st0) in H.
  destruct (filter (fun r => idempotency_key r = Some key) (runs (db st0)))
    as [|r1 [|r2 l]] eqn:Hdup.
  2:{ inversion H; subst. left. simpl. rewrite Hdb0. reflexivity. }
  2:{ inversion H; subst. exact I. }
  unfold insert_run in H.
  change (db (next_uuid (tick st0))) with (db st0) in H.
  cbn [run_id] in H.
  match type of H with
  | context [bool_decide ?P] => destruct (bool_decide P) eqn:Hex
  end.
  { inversion H; subst. exact I. }
  apply bool_decide_eq_false in Hex.
  set (run0 := {| run_id := uuid4 world (uuids (tick st0));
                  run_schedule_id := schedule_id schedule;
                  idempotency_key := Some key;
                  run_status := RunStatus.PENDING;
                  scheduled_at := now;
                  run_started_at := None; run_completed_at := None;
                  attempt_count := 0; final_status_code := None;
                  final_error_type := NONE;
                  final_error_message := None |}) in *.
  set (st1 := set_db (set_runs (runs (db st0) ++ [run0]) (db st0))
                (next_uuid (tick st0))) in *.
  pose proof (execute_run_frame world py_int
                (executor settings) (target schedule) run0 st1) as Hrun.
  destruct (execute_run world py_int (executor settings) run0
              (target schedule) st1) as [st2 [run'|e]].
  2:{ inversion H; subst. exact I. }
  simpl in Hrun.
  destruct Hrun as (_ & _ & _ & _ & (Hi1 & Hi2 & Hi3 & Hi4) & Hruns).
  unfold now_ist in H.
  match type of H with
  | context [_calculate_next_run _ _ ?s ?t] =>
      pose proof (_calculate_next_run_db s t) as Hnext;
      destruct (_calculate_next_run world croniter_get_next s t)
        as [st3 [next|e]]
  end.
  2:{ inversion H; subst. exact I. }
  simpl in Hnext.
  assert (Hfinal : runs (db st3) = runs (db st0) ++ [run']).
  { rewrite Hnext. simpl. rewrite Hruns. subst st1. simpl.
    rewrite map_app. simpl.
    rewrite decide_True by (rewrite Hi1; reflexivity).
    f_equal. rewrite <- (map_id (runs (db st0))) at 2.
    apply map_ext_in. intros r Hin.
    destruct (decide (run_id r = run_id run')) as [E|E]; [|reflexivity].
    exfalso. apply Hex. apply Exists_exists. exists r.
    split; [apply list_elem_of_In; exact Hin|]. left.
    rewrite E, Hi1. reflexivity. }
  assert (Happ : forall st4, runs (db st4) = runs (db st3) ->
                             appended world sid st st4).
  { intros st4 H4. right. exists run', (ticks st0).
    rewrite H4, Hfinal, Hdb0, Hi2, Hi3, Hi4. subst run0. simpl.
    split; [reflexivity|]. split; [exact Hsid|]. split; [exact Hk|].
    split; [reflexivity|]. split; [subst key; rewrite Hsid; reflexivity|].
    intros r0 Hr0 Heq.
    assert (Hin : r0 ∈ filter (fun r => idempotency_key r = Some key)
                         (runs (db st0))).
    { apply list_elem_of_filter. rewrite Hdb0. split; assumption. }
    rewrite Hdup in Hin. inversion Hin. }
  match type of H with
  | context [max_runs_reached ?s] => destruct (max_runs_reached s)
  end; inversion H; subst; apply Happ; reflexivity.
Qed.

Lemma _execute_schedule_runs (sid : string) (st : State) :
  appended world sid st
    (_execute_schedule world py_int croniter_get_next settings sid st).
Proof.
  unfold _execute_schedule.
  destruct (decide (sid ∈ running_jobs st)); [left; reflexivity|].
  set (st1 := set_running_jobs ({[sid]} ∪ running_jobs st) st).
  pose proof (fire_runs sid st1) as Hfire.
  destruct (fire world py_int croniter_get_next settings sid st1)
    as [st2 [u|e]].
  - exact (Hfire _ _ eq_refl).
  - left. reflexivity.
Qed.

Lemma keyed_appended (sid : string) (st st' : State) :
  appended world sid st st' ->
  Forall keyed (runs (db st)) -> Forall keyed (runs (db st')).
Proof.
  intros [->|(r & k & -> & Hs & _ & _ & Hkey & _)] Hall; [exact Hall|].
  apply Forall_app. split; [exact Hall|]. apply Forall_singleton.
  unfold keyed, make_idempotency_key. rewrite Hkey, Hs. reflexivity.
Qed.

Lemma one_run_per_second_appended (sid : string) (st st' : State) :
  appended world sid st st' ->
  Forall keyed (runs (db st)) ->
  one_run_per_second (runs (db st)) ->
  one_run_per_second (runs (db st')).
Proof.
  intros [->|(r & k & -> & Hs & _ & _ & Hkey & Hfresh)] Hall Hone;
    [exact Hone|].
  assert (Hclash : forall i r0,
            runs (db st) !! i = Some r0 ->
            run_schedule_id r0 = run_schedule_id r ->
            wall_second (scheduled_at r0) = wall_second (scheduled_at r) ->
            False).
  { intros i r0 Hi Hsame Hsec.
    assert (Hin : r0 ∈ runs (db st)) by (eapply list_elem_of_lookup_2; eauto).
    apply (Hfresh r0 Hin).
    rewrite Forall_forall in Hall. rewrite (Hall r0 Hin), Hkey.
    unfold make_idempotency_key.
    rewrite Hsame, Hs, (strftime_same_second _ _ Hsec). reflexivity. }
  intros i j r1 r2 Hi Hj Hsame Hsec.
  destruct (decide (i < length (runs (db st)))%nat) as [Hli|Hli];
    destruct (decide (j < length (runs (db st)))%nat) as [Hlj|Hlj].
  - rewrite lookup_app_l in Hi, Hj by assumption.
    exact (Hone i j r1 r2 Hi Hj Hsame Hsec).
  - rewrite lookup_app_l in Hi by assumption.
    rewrite lookup_app_r in Hj by lia.
    apply list_lookup_singleton_Some in Hj as [_ <-].
    destruct (Hclash i r1 Hi Hsame Hsec).
  - rewrite lookup_app_l in Hj by assumption.
    rewrite lookup_app_r in Hi by lia.
    apply list_lookup_singleton_Some in Hi as [_ <-].
    destruct (Hclash j r2 Hj (eq_sym Hsame) (eq_sym Hsec)).
  - rewrite lookup_app_r in Hi, Hj by lia.
    apply list_lookup_singleton_Some in Hi as [Hi _].
    apply list_lookup_singleton_Some in Hj as [Hj _]. lia.
Qed.

(** C3: a firing of schedule [sid] leaves the table of runs as it was
    or appends one run, whose idempotency key is the schedule id, a
    colon, and [scheduled_at] formatted as YYYYMMDDHHMMSS, and it appends
    none when a run with that key exists; so, from a table whose runs
    carry their keys and hold at most one run per schedule and
    wall-clock second, it yields such a table again. *)
Theorem one_run_per_schedule_per_second (sid : string) (st : State) :
  Forall keyed (runs (db st)) ->
  one_run_per_second (runs (db st)) ->
  appended world sid st
    (_execute_schedule world py_int croniter_get_next settings sid st) /\
  Forall keyed
    (runs (db (_execute_schedule world py_int croniter_get_next settings
                 sid st))) /\
  one_run_per_second
    (runs (db (_execute_schedule world py_int croniter_get_next settings
                 sid st))).
Proof.
  intros Hall Hone.
  pose proof (_execute_schedule_runs sid st) as Happ.
  split; [exact Happ|]. split.
  - exact (keyed_appended _ _ _ Happ Hall).
  - exact (one_run_per_second_appended _ _ _ Happ Hall Hone).
Qed.

Lemma sweep_orphans_spec (rows : list Run) :
  forall st,
    let st' := fst (sweep_orphans world rows st) in
    let rows' := snd (sweep_orphans world rows st) in
    db st' = db st /\ (ticks st <= ticks st')%nat /\
    length rows' = length rows /\
    forall i r, rows !! i = Some r ->
      exists r', rows' !! i = Some r' /\ swept world st st' r r'.
Proof.
  induction rows as [|run rest IH]; intros st; simpl.
  - repeat split; auto. intros i r Hi. discriminate.
  - destruct (is_orphaned run) eqn:Horph.
    + specialize (IH (tick st)). simpl in IH.
      destruct (sweep_orphans world rest (tick st)) as [st1 rest'].
      simpl in *. destruct IH as (Hdb & Ht & Hlen & Hrows).
      split; [exact Hdb|]. split; [lia|]. split; [lia|].
      intros [|i] r Hi; simpl in Hi.
      * inversion Hi; subst r. eexists. split; [reflexivity|].
        unfold swept. rewrite Horph. exists (ticks st).
        split; [lia | reflexivity].
      * destruct (Hrows i r Hi) as (r' & Hr' & Hsw).
        exists r'. split; [exact Hr'|]. unfold swept in *.
        destruct (is_orphaned r); [|exact Hsw].
        destruct Hsw as (k & Hk & ->). exists k.
        split; [simpl in Hk; lia | reflexivity].
    + specialize (IH st). simpl in IH.
      destruct (sweep_orphans world rest st) as [st1 rest'].
      simpl in *. destruct IH as (Hdb & Ht & Hlen & Hrows).
      split; [exact Hdb|]. split; [lia|]. split; [lia|].
      intros [|i] r Hi; simpl in Hi.
      * inversion Hi; subst r. eexists. split; [reflexivity|].
        unfold swept. rewrite Horph. reflexivity.
      * exact (Hrows i r Hi).
Qed.

(** C5: the orphan sweep keeps the table of runs in place, row by row;
    a run that was [PENDING] or [RUNNING] becomes [FAILED], with
    [completed_at] a reading of the clock taken during the sweep and the
    final error message "Server restarted while run was in progress",
    its other columns as they were; a run in a terminal state is
    unchanged. *)
Theorem _recover_orphaned_runs_spec (st : State) :
  let st' := _recover_orphaned_runs world st in
  length (runs (db st')) = length (runs (db st)) /\
  forall i r, runs (db st) !! i = Some r ->
    exists r', runs (db st') !! i = Some r' /\
      (run_status r ∈ [RunStatus.PENDING; RunStatus.RUNNING] ->
         run_status r' = RunStatus.FAILED /\
         (exists k, (ticks st <= k < ticks st')%nat /\
            run_completed_at r' = Some (clock world k + IST_OFFSET)) /\
         final_error_message r'
         = Some "Server restarted while run was in progress" /\
         run_id r' = run_id r /\
         run_schedule_id r' = run_schedule_id r /\
         idempotency_key r' = idempotency_key r /\
         scheduled_at r' = scheduled_at r /\
         run_started_at r' = run_started_at r /\
         attempt_count r' = attempt_count r /\
         final_status_code r' = final_status_code r /\
         final_error_type r' = final_error_type r) /\
      (run_status r ∈ [RunStatus.SUCCESS; RunStatus.FAILED;
                       RunStatus.TIMEOUT] -> r' = r).
Proof.
  unfold _recover_orphaned_runs.
  pose proof (sweep_orphans_spec (runs (db st)) st) as Hs. simpl in Hs.
  destruct (sweep_orphans world (runs (db st)) st) as [st1 rows'].
  simpl in *. destruct Hs as (Hdb & Ht & Hlen & Hrows).
  split; [exact Hlen|]. intros i r Hi.
  destruct (Hrows i r Hi) as (r' & Hr' & Hsw). exists r'.
  split; [exact Hr'|]. unfold swept, is_orphaned in Hsw. split.
  - intros Horph. rewrite bool_decide_eq_true_2 in Hsw.
    + destruct Hsw as (k & Hk & ->). simpl.
      split; [reflexivity|]. split; [exists k; auto|]. repeat split.
    + rewrite !elem_of_cons, elem_of_nil in *. tauto.
  - intros Hterm. rewrite bool_decide_eq_false_2 in Hsw; [exact Hsw|].
    rewrite !elem_of_cons, elem_of_nil in *.
    intros Hin. destruct (run_status r); intuition discriminate.
Qed.

Lemma swept_identity (st st' : State) (r r' : Run) :
  swept world st st' r r' -> same_identity r r'.
Proof.
  unfold swept, same_identity. destruct (is_orphaned r).
  - intros (k & _ & ->). simpl. auto.
  - intros ->. auto.
Qed.

(** The orphan sweep keeps both invariants of the table of runs. *)
Lemma _recover_orphaned_runs_invariants (st : State) :
  Forall keyed (runs (db st)) ->
  one_run_per_second (runs (db st)) ->
  Forall keyed (runs (db (_recover_orphaned_runs world st))) /\
  one_run_per_second (runs (db (_recover_orphaned_runs world st))).
Proof.
  intros Hall Hone. unfold _recover_orphaned_runs.
  pose proof (sweep_orphans_spec (runs (db st)) st) as Hs. simpl in Hs.
  destruct (sweep_orphans world (runs (db st)) st) as [st1 rows'].
  simpl in *. destruct Hs as (_ & _ & Hlen & Hrows).
  assert (Hback : forall i r', rows' !! i = Some r' ->
            exists r, runs (db st) !! i = Some r /\ same_identity r r').
  { intros i r' Hi. apply lookup_lt_Some in Hi as Hlt. rewrite Hlen in Hlt.
    apply lookup_lt_is_Some in Hlt as [r Hr].
    destruct (Hrows i r Hr) as (r'' & Hr'' & Hsw).
    exists r. split; [exact Hr|].
    assert (r'' = r') by congruence. subst r''.
    exact (swept_identity _ _ _ _ Hsw). }
  split.
  - apply Forall_lookup. intros i r' Hi.
    destruct (Hback i r' Hi) as (r & Hr & I1 & I2 & I3 & I4).
    rewrite Forall_lookup in Hall. specialize (Hall i r Hr).
    unfold keyed in *. rewrite I2, I3, I4. exact Hall.
  - intros i j r1' r2' Hi Hj Hsame Hsec.
    destruct (Hback i r1' Hi) as (r1 & Hr1 & _ & A2 & _ & A4).
    destruct (Hback j r2' Hj) as (r2 & Hr2 & _ & B2 & _ & B4).
    apply (Hone i j r1 r2 Hr1 Hr2); congruence.
Qed.

(** In every state the process reaches from an empty table of runs, the
    runs carry their keys and no schedule has two runs in one wall-clock
    second. *)
Lemma reachable_one_run_per_second (st : State) :
  reachable world py_int croniter_get_next settings st ->
  Forall keyed (runs (db st)) /\ one_run_per_second (runs (db st)).
Proof.
  induction 1 as [st Hnil|sid st _ [Hall Hone]|st _ [Hall Hone]].
  - rewrite Hnil. split; [constructor|].
    intros i j r1 r2 Hi. discriminate.
  - pose proof (_execute_schedule_runs sid st) as Happ. split.
    + exact (keyed_appended _ _ _ Happ Hall).
    + exact (one_run_per_second_appended _ _ _ Happ Hall Hone).
  - exact (_recover_orphaned_runs_invariants st Hall Hone).
Qed.

(** Whenever [expires_at] is set, whether the window is over or not,
    [resume_schedule] raises and changes nothing. *)
Lemma resume_schedule_window_raises
    (schedule : Schedule) (st : State) (e : datetime) :
  expires_at schedule = Some e ->
  resume_schedule world croniter_get_next schedule st
  = (st, Raise AttributeError).
Proof. intros H. unfold resume_schedule. rewrite H. reflexivity. Qed.

(** Without a window, a schedule that has reached [max_runs] is set to
    [EXPIRED] and no trigger is registered. *)
Lemma resume_schedule_max_runs_reached (schedule : Schedule) (st : State) :
  expires_at schedule = None ->
  max_runs_reached schedule = true ->
  resume_schedule world croniter_get_next schedule st
  = (st, Ok (set_schedule_status EXPIRED schedule)).
Proof.
  intros He Hm. unfold resume_schedule. rewrite He, Hm. reflexivity.
Qed.

(** Without a window and below [max_runs], an interval schedule is set
    to [ACTIVE], its next run is one interval after the clock reading,
    and its trigger is registered. *)
Lemma resume_schedule_interval_no_window
    (schedule : Schedule) (st : State) (n : Z) :
  expires_at schedule = None ->
  max_runs_reached schedule = false ->
  schedule_type schedule = INTERVAL ->
  interval_seconds schedule = Some n ->
  exists st' s',
    resume_schedule world croniter_get_next schedule st = (st', Ok s') /\
    schedule_status s' = ACTIVE /\
    next_run_at s'
    = Some (clock world (ticks st) + IST_OFFSET + timedelta_seconds n) /\
    jobs st' !! job_id_of (schedule_id schedule)
    = Some (IntervalTrigger n).
Proof.
  intros He Hm Ht Hn. unfold resume_schedule, _calculate_next_run,
    _add_job_for_schedule. rewrite He. simpl. rewrite Hm. simpl.
  rewrite ?Ht, ?Hn. simpl. rewrite ?Ht, ?Hn. simpl.
  eexists; eexists. split; [reflexivity|]. simpl.
  repeat split. apply lookup_insert_eq.
Qed.

End SchedulerFacts.

(* ===================================================================== *)
(** * The properties at work in the concrete world                        *)
(* ===================================================================== *)

Example key_of_first_reading :
  make_idempotency_key "s1" (Scenario.T0 + IST_OFFSET) = "s1:20240115160045".
Proof. vm_compute. reflexivity. Qed.

(** Three timeouts in a row with the default executor: the hypotheses of
    [execute_run_retries_exhausted] hold. *)
Lemma retries_exhausted_on_timeouts :
  exists a st' run',
    execute_run Scenario.unreachable Scenario.int_of_digits
      Scenario.default_executor Scenario.pending_run Scenario.ping
      Scenario.idle = (st', Ok run') /\
    (run_status run' = RunStatus.TIMEOUT <-> error_type a = TIMEOUT) /\
    (error_type a <> TIMEOUT -> run_status run' = RunStatus.FAILED) /\
    final_status_code run' = status_code a /\
    final_error_type run' = error_type a /\
    final_error_message run' = error_message a /\
    last (attempts (db st')) = Some a /\
    attempt_number a = max_retries Scenario.default_executor /\
    attempt_count run' = max_retries Scenario.default_executor.
Proof.
  eexists.
  eapply (execute_run_retries_exhausted Scenario.unreachable
            Scenario.int_of_digits Scenario.default_executor Scenario.ping
            Scenario.pending_run Scenario.idle).
  - vm_compute. reflexivity.
  - reflexivity.
Defined.

(** The same run, computed: it ends [TIMEOUT] after three attempts and
    two sleeps of one and two seconds. *)
Example timeouts_end_in_timeout :
  let out := execute_run Scenario.unreachable Scenario.int_of_digits
               Scenario.default_executor Scenario.pending_run Scenario.ping
               Scenario.idle in
  (run_status <$> match snd out with Ok r => Some r | Raise _ => None end)
  = Some RunStatus.TIMEOUT /\
  length (attempts (db (fst out))) = 3%nat /\
  slept (fst out) = [Qmin (1 * 2 ^ 0) 30; Qmin (1 * 2 ^ 1) 30]%Q.
Proof. vm_compute. repeat split. Qed.

(** A 503 followed by 404s: the 503 is retried, the 404 is not. *)
Example server_error_then_client_error :
  let out := execute_run Scenario.flaky_then_missing Scenario.int_of_digits
               Scenario.default_executor Scenario.pending_run Scenario.ping
               Scenario.idle in
  map error_type (attempts (db (fst out))) = [SERVER_ERROR; CLIENT_ERROR] /\
  match snd out with
  | Ok r =>
      run_status r = RunStatus.FAILED /\ final_status_code r = Some 404 /\
      final_error_type r = CLIENT_ERROR /\
      final_error_message r = Some "HTTP 404" /\ attempt_count r = 2
  | Raise _ => False
  end.
Proof. vm_compute. repeat split. Qed.

(** With 1026 configured retries and a peer that never answers, the run
    is abandoned by an [OverflowError] out of the back-off. *)
Example overflow_reached :
  snd (execute_run Scenario.unreachable Scenario.int_of_digits
         (HttpExecutor_init Settings_defaults (Some 1026) None)
         Scenario.pending_run Scenario.ping Scenario.idle)
  = Raise OverflowError.
Proof. vm_compute. reflexivity. Qed.

(** [binary64] on 1/10, which is no double, on 3/4, which is one, and on
    the half of the smallest double, which rounds to 0. *)
Example binary64_values :
  (binary64 (1 # 10) == 3602879701896397 # 36028797018963968)%Q /\
  (binary64 (3 # 4) == 3 # 4)%Q /\
  (binary64 (2 ^ (-1074)) == 2 ^ (-1074))%Q /\
  (binary64 (2 ^ (-1075)) == 0)%Q.
Proof. repeat split; vm_compute; reflexivity. Qed.

(** A latency of 1100 microseconds is stored as the double next to 1.1
    that the two roundings give, not as 11/10; one of 1000 microseconds
    is stored as 1.0. *)
Example latency_of_1100_microseconds :
  (binary64 (total_seconds 1100%Z * 1000)
   == 2476979795053773 # 2251799813685248)%Q /\
  ~ (binary64 (total_seconds 1100%Z * 1000) == 11 # 10)%Q /\
  (binary64 (total_seconds 1000%Z * 1000) == 1)%Q.
Proof. repeat split; vm_compute; try reflexivity; discriminate. Qed.

(** Below the smallest double the power of two of the back-off is 0.0,
    and so is the delay: attempt numbers start at 1 in [execute_run],
    far above. *)
Example backoff_underflow :
  calculate_backoff_delay (-1074) 1 30 = Ok (Qmin (1 * 0) 30) /\
  calculate_backoff_delay (-1073) 1 30 = Ok (Qmin (1 * 2 ^ (-1074)) 30).
Proof. split; reflexivity. Qed.

(** C2 fails where the back-off does (C7): with [max_retries] 1026 and a
    peer that never answers, every attempt is a [TIMEOUT], a kind that
    is retried, and the 1025th attempt, numbered below [max_retries], is
    the last one; the [OverflowError] of its back-off delay leaves
    [execute_run], and no 1026th attempt is made. *)
Theorem execute_run_abandoned_after_1025_attempts :
  let self := HttpExecutor_init Settings_defaults (Some 1026) None in
  let out :=
    execute_run Scenario.unreachable Scenario.int_of_digits self
      Scenario.pending_run Scenario.ping Scenario.idle in
  max_retries self = 1026 /\
  map attempt_number (attempts (db (fst out))) = seqZ 1 1025 /\
  map error_type (attempts (db (fst out)))
  = replicate (Z.to_nat 1025) TIMEOUT /\
  length (sent (fst out)) = Z.to_nat 1025 /\
  snd out = Raise OverflowError.
Proof. vm_compute. repeat split. Qed.

(** C9, as stated, fails: with a clock that advances between readings,
    an answered attempt has a latency of 1 ms while [completed_at] is
    2 ms after [started_at]; and an attempt whose request timed out has
    both instants set and no latency. *)
Lemma latency_differs_from_completed_minus_started :
  (exists c l,
     completed_at
       (snd (_execute_attempt Scenario.healthy Scenario.int_of_digits
               Scenario.default_executor Scenario.pending_run Scenario.ping
               1 Scenario.idle)) = Some c /\
     latency_ms
       (snd (_execute_attempt Scenario.healthy Scenario.int_of_digits
               Scenario.default_executor Scenario.pending_run Scenario.ping
               1 Scenario.idle)) = Some l /\
     (l == 1)%Q /\
     (binary64
        (total_seconds
           (c - started_at
                  (snd (_execute_attempt Scenario.healthy
                          Scenario.int_of_digits Scenario.default_executor
                          Scenario.pending_run Scenario.ping 1
                          Scenario.idle)))%Z
         * 1000) == 2)%Q) /\
  is_Some
    (completed_at
       (snd (_execute_attempt Scenario.unreachable Scenario.int_of_digits
               Scenario.default_executor Scenario.pending_run Scenario.ping
               1 Scenario.idle))) /\
  latency_ms
    (snd (_execute_attempt Scenario.unreachable Scenario.int_of_digits
            Scenario.default_executor Scenario.pending_run Scenario.ping
            1 Scenario.idle)) = None.
Proof.
  split; [|split].
  - exists (Scenario.T0 + 2000), (binary64 (total_seconds 1000%Z * 1000)).
    repeat split; vm_compute; reflexivity.
  - eexists. vm_compute. reflexivity.
  - vm_compute. reflexivity.
Qed.

(** [_safe_read_body_spec] on a response that declares 200000 bytes, on
    one whose declared length is not a number and on one whose text has
    a character more than the cap, with the characters written out: the
    marker of 54 characters, nothing, and 102400 times the letter [a]
    followed by the 18 characters of the mark. *)
Lemma stored_bodies :
  _safe_read_body Scenario.int_of_digits Scenario.declared_large
  = Some [91; 82; 101; 115; 112; 111; 110; 115; 101; 32; 116; 114; 117;
        110; 99; 97; 116; 101; 100; 32; 45; 32; 115; 105; 122; 101; 32;
        50; 48; 48; 48; 48; 48; 32; 98; 121; 116; 101; 115; 32; 101; 120;
        99; 101; 101; 100; 115; 32; 108; 105; 109; 105; 116; 93]%N /\
  _safe_read_body Scenario.int_of_digits Scenario.malformed_length = None /\
  _safe_read_body Scenario.int_of_digits Scenario.undeclared_long
  = Some (replicate (Z.to_nat 102400) 97
          ++ [10; 91; 46; 46; 46; 116; 114; 117; 110; 99; 97; 116; 101; 100;
              46; 46; 46; 93])%N.
Proof.
  pose proof (_safe_read_body_spec Scenario.int_of_digits
                Scenario.declared_large) as (Hmark & _ & _).
  pose proof (_safe_read_body_spec Scenario.int_of_digits
                Scenario.malformed_length) as (_ & Hnone & _).
  pose proof (_safe_read_body_spec Scenario.int_of_digits
                Scenario.undeclared_long) as (_ & _ & Htext).
  split; [|split].
  - rewrite (Hmark "200000" 200000);
      first [reflexivity | discriminate | vm_compute; reflexivity].
  - apply (Hnone "unknown");
      first [discriminate | vm_compute; reflexivity].
  - destruct Htext as [Hcut _]; [left; vm_compute; reflexivity|].
    destruct Hcut as (kept & rest & Hsplit & Hlen & ->);
      [vm_compute; reflexivity|].
    assert (Hkept : kept = take (length kept) (text Scenario.undeclared_long)).
    { rewrite Hsplit, take_app_length. reflexivity. }
    replace (length kept) with (Z.to_nat 102400) in Hkept
      by (unfold MAX_RESPONSE_BODY_SIZE in Hlen; lia).
    rewrite Hkept. unfold Scenario.undeclared_long, text.
    rewrite take_replicate.
    replace (Z.to_nat 102400 `min` Z.to_nat 102401)%nat
      with (Z.to_nat 102400) by lia.
    reflexivity.
Defined.

(** C8, as stated, fails on a declared length that is not a number: the
    header is present and does not exceed 100 KiB, since it is no
    number at all, and the text of two characters is not stored;
    nothing is. *)
Lemma malformed_length_stores_nothing :
  response_header_map Scenario.malformed_length !! "content-length"
  = Some "unknown" /\
  Scenario.int_of_digits "unknown" = None /\
  text Scenario.malformed_length = [111; 107]%N /\
  _safe_read_body Scenario.int_of_digits Scenario.malformed_length = None /\
  _safe_read_body Scenario.int_of_digits Scenario.malformed_length
  <> Some (text Scenario.malformed_length).
Proof.
  repeat split; try (vm_compute; reflexivity). discriminate.
Qed.

(** [one_run_per_schedule_per_second] where the schedule fires again in
    the second of a run that exists. *)
Lemma second_firing_in_the_same_second :
  appended Scenario.healthy "s1" Scenario.idle
    (_execute_schedule Scenario.healthy Scenario.int_of_digits
       Scenario.no_cron Settings_defaults "s1" Scenario.idle) /\
  Forall keyed
    (runs (db (_execute_schedule Scenario.healthy Scenario.int_of_digits
                 Scenario.no_cron Settings_defaults "s1" Scenario.idle))) /\
  one_run_per_second
    (runs (db (_execute_schedule Scenario.healthy Scenario.int_of_digits
                 Scenario.no_cron Settings_defaults "s1" Scenario.idle))).
Proof.
  apply (one_run_per_schedule_per_second Scenario.healthy
           Scenario.int_of_digits Scenario.no_cron Settings_defaults "s1"
           Scenario.idle).
  - apply Forall_singleton. vm_compute. reflexivity.
  - apply one_run_per_second_singleton.
Defined.

(** Computed: that second firing adds no run and sends no request. *)
Example duplicate_is_skipped :
  runs (db (_execute_schedule Scenario.healthy Scenario.int_of_digits
              Scenario.no_cron Settings_defaults "s1" Scenario.idle))
  = [Scenario.pending_run] /\
  sent (_execute_schedule Scenario.healthy Scenario.int_of_digits
          Scenario.no_cron Settings_defaults "s1" Scenario.idle) = [].
Proof. vm_compute. split; reflexivity. Qed.

(** Computed: two firings within one second, from an empty table, leave
    one run, which succeeded, and count one run on the schedule. *)
Example two_firings_one_run :
  let st :=
    _execute_schedule Scenario.healthy Scenario.int_of_digits
      Scenario.no_cron Settings_defaults "s1"
      (_execute_schedule Scenario.healthy Scenario.int_of_digits
         Scenario.no_cron Settings_defaults "s1" Scenario.fresh) in
  map (fun r => (idempotency_key r, run_status r)) (runs (db st))
  = [(Some "s1:20240115160045", RunStatus.SUCCESS)] /\
  map run_count (schedules (db st)) = [1; 0; 0] /\
  length (sent st) = 1%nat.
Proof. vm_compute. repeat split. Qed.

(** Computed: after a crash the run in flight is failed with the
    restart message, the completed one is as it was. *)
Example orphan_is_failed :
  runs (db (_recover_orphaned_runs Scenario.healthy Scenario.after_crash))
  = [ set_final_error_message
        (Some "Server restarted while run was in progress")
        (set_run_completed_at (Some (Scenario.T0 + IST_OFFSET))
           (set_run_status RunStatus.FAILED Scenario.pending_run));
      Scenario.completed_run ].
Proof. vm_compute. reflexivity. Qed.

(** C4: resuming a paused schedule whose window is over does not set it
    [EXPIRED], and resuming one whose window is still open does not set
    it [ACTIVE]: in both cases [resume_schedule] raises
    [AttributeError] and nothing is changed. *)
Theorem resume_schedule_windowed_raises :
  resume_schedule Scenario.healthy Scenario.no_cron
    Scenario.paused_past_window Scenario.idle
  = (Scenario.idle, Raise AttributeError) /\
  resume_schedule Scenario.healthy Scenario.no_cron
    Scenario.paused_open_window Scenario.idle
  = (Scenario.idle, Raise AttributeError).
Proof. split; reflexivity. Qed.

(* ===================================================================== *)
(** * More of the executor                                                *)
(* ===================================================================== *)

Ltac classify_cases :=
  unfold classify_error;
  destruct (exc_class _) as [| |c|] eqn:Hclass;
  repeat match goal with
         | |- context [if ?b then _ else _] => destruct b eqn:?
         end;
  simpl;
  repeat match goal with
         | H : (_ <=? _) && (_ <? _) = true |- _ =>
             apply andb_true_iff in H as [?%Z.leb_le ?%Z.ltb_lt]
         | H : (_ <=? _) && (_ <? _) = false |- _ =>
             apply andb_false_iff in H as [?%Z.leb_gt|?%Z.ltb_ge]
         end.

Lemma classify_error_not_NONE (e : Exception) : fst (classify_error e) <> NONE.
Proof. classify_cases; discriminate. Qed.

Lemma classify_error_CLIENT_ERROR (e : Exception) :
  fst (classify_error e) = CLIENT_ERROR <->
  exists c, exc_class e = HTTPStatusError c /\ 400 <= c < 500.
Proof.
  classify_cases;
    (split;
     [ first [discriminate | intros _; eexists; split; [reflexivity|lia]]
     | intros (c' & Hx & Hr);
       first [discriminate | inversion Hx; subst; first [reflexivity|lia]] ]).
Qed.

(** X1: [classify_error] never answers [NONE]; a timeout is [TIMEOUT]
    whatever its message, and nothing else is; [CLIENT_ERROR] and
    [SERVER_ERROR] are exactly the [HTTPStatusError]s with a 4xx and a
    5xx code; a connection error is [DNS], [SSL] or [CONNECTION], and
    only a connection error is [DNS] or [CONNECTION]; so an exception is
    of a kind [execute_run] retries unless it is an [HTTPStatusError]
    with a 4xx code. *)
Theorem classify_error_kinds (e : Exception) :
  fst (classify_error e) <> NONE /\
  (fst (classify_error e) = TIMEOUT <-> exc_class e = TimeoutException) /\
  (fst (classify_error e) = CLIENT_ERROR <->
   exists c, exc_class e = HTTPStatusError c /\ 400 <= c < 500) /\
  (fst (classify_error e) = SERVER_ERROR <->
   exists c, exc_class e = HTTPStatusError c /\ 500 <= c < 600) /\
  (exc_class e = ConnectError ->
   fst (classify_error e) ∈ [DNS; SSL; CONNECTION]) /\
  (fst (classify_error e) ∈ [DNS; CONNECTION] -> exc_class e = ConnectError) /\
  (retryable (fst (classify_error e)) <->
   ~ exists c, exc_class e = HTTPStatusError c /\ 400 <= c < 500).
Proof.
  split; [apply classify_error_not_NONE|].
  split.
  { classify_cases; split; intros Hkind; try discriminate; reflexivity. }
  split; [apply classify_error_CLIENT_ERROR|].
  split.
  { classify_cases;
      (split;
       [ first [discriminate | intros _; eexists; split; [reflexivity|lia]]
     | intros (c' & Hx & Hr);
       first [discriminate | inversion Hx; subst; first [reflexivity|lia]] ]). }
  split.
  { intros Hkind. unfold classify_error. rewrite Hkind.
    repeat match goal with
           | |- context [if ?b then _ else _] => destruct b
           end; simpl; rewrite !elem_of_cons; auto. }
  split.
  { classify_cases; rewrite !elem_of_cons, elem_of_nil;
      intros Hkind; try reflexivity; exfalso; intuition discriminate. }
  unfold retryable. split.
  - intros [_ Hn] Hex. apply Hn. apply classify_error_CLIENT_ERROR. exact Hex.
  - intros Hn. split; [apply classify_error_not_NONE|].
    intros Hc. apply Hn. apply classify_error_CLIENT_ERROR. exact Hc.
Qed.

Lemma float_of_pow2_mono (j k : Z) (p q : Q) :
  float_of_pow2 j = Ok p -> float_of_pow2 k = Ok q -> j <= k ->
  (0 <= p)%Q /\ (p <= q)%Q.
Proof.
  unfold float_of_pow2.
  destruct (1024 <=? j); [discriminate|].
  destruct (1024 <=? k); [discriminate|].
  destruct (j <? -1074) eqn:Ej, (k <? -1074) eqn:Ek;
    intros Hp Hq Hjk; inversion Hp; inversion Hq; subst; clear Hp Hq.
  - split; apply Qle_refl.
  - split; [apply Qle_refl|]. apply Qpower_pos. discriminate.
  - lia.
  - split; [apply Qpower_pos; discriminate|].
    apply Qpower_le_compat_l; [lia | discriminate].
Qed.

(** X2: whenever [calculate_backoff_delay] yields a delay it is at most
    [max_delay], and for a base delay that is not negative the delay
    does not shrink from an attempt to a later one and is not negative
    when the cap is not. *)
Theorem calculate_backoff_delay_bounds (n m : Z) (b mx d1 d2 : Q) :
  calculate_backoff_delay n b mx = Ok d1 ->
  calculate_backoff_delay m b mx = Ok d2 ->
  (0 <= b)%Q -> n <= m ->
  (d1 <= d2)%Q /\ (d2 <= mx)%Q /\ ((0 <= mx)%Q -> (0 <= d1)%Q).
Proof.
  unfold calculate_backoff_delay.
  destruct (float_of_pow2 (n - 1)) as [p|] eqn:Hp; [|discriminate].
  destruct (float_of_pow2 (m - 1)) as [q|] eqn:Hq; [|discriminate].
  intros H1 H2 Hb Hnm. inversion H1; subst d1. inversion H2; subst d2.
  clear H1 H2.
  destruct (float_of_pow2_mono _ _ _ _ Hp Hq) as [Hp0 Hpq]; [lia|].
  split; [|split].
  - apply Q.min_le_compat_r.
    rewrite (Qmult_comm b), (Qmult_comm b q).
    apply Qmult_le_compat_r; assumption.
  - apply Q.le_min_r.
  - intros Hmx. apply Q.min_glb; [|exact Hmx].
    apply Qmult_le_0_compat; assumption.
Qed.

(** With the default base delay of one second, the delay after the
    first attempt is at most the one after the sixth, which is at most
    the cap of thirty seconds. *)
Lemma default_delays_grow_to_the_cap :
  (Qmin (1 * 2 ^ (1 - 1)) 30 <= Qmin (1 * 2 ^ (6 - 1)) 30)%Q /\
  (Qmin (1 * 2 ^ (6 - 1)) 30 <= 30)%Q /\
  ((0 <= 30)%Q -> (0 <= Qmin (1 * 2 ^ (1 - 1)) 30)%Q).
Proof.
  apply (calculate_backoff_delay_bounds 1 6 1 30); first
    [reflexivity | discriminate | lia].
Defined.

Section MoreExecutorFacts.

Variable world : World.
Variable py_int : string -> option Z.
Variable self : HttpExecutor.
Variable target : Target.

(** X3: an attempt is recorded without error exactly when the peer
    answered with a status from 200 to 399; an answered attempt carries
    the status code, the kind [classify_status_code] gives it, the body
    [_safe_read_body] keeps and the size of the raw content, and has an
    error message exactly when its status is outside 200..399; an attempt
    whose request raised carries no status code, body or size, the kind
    and message of [classify_error], and is never without error. *)
Theorem _execute_attempt_outcome (run : Run) (n : Z) (st : State) :
  let a := snd (_execute_attempt world py_int self run target n st) in
  match net world (length (sent st)) with
  | Responded response =>
      let code := response_status_code response in
      status_code a = Some code /\
      error_type a = classify_status_code code /\
      (error_type a = NONE <-> 200 <= code < 400) /\
      (error_message a = None <-> 200 <= code < 400) /\
      (~ 200 <= code < 400 -> error_message a = Some ("HTTP " +:+ pretty code)) /\
      response_headers a = response_header_map response /\
      response_body a = _safe_read_body py_int response /\
      response_size_bytes a
      = Some (Z.of_nat (String.length (content response)))
  | Raised e =>
      status_code a = None /\
      error_type a = fst (classify_error e) /\
      error_type a <> NONE /\
      error_message a = Some (snd (classify_error e)) /\
      response_body a = None /\ response_size_bytes a = None
  end.
Proof.
  unfold _execute_attempt.
  pose proof (_prepare_body_frame world (body_template target) st) as Hp.
  destruct (_prepare_body world (body_template target) st) as [st0 body].
  simpl in Hp. destruct Hp as (_ & Hsent & _).
  unfold request, utcnow. simpl. rewrite Hsent.
  destruct (net world (length (sent st))) as [response|e]; simpl.
  - unfold classify_status_code.
    destruct ((200 <=? response_status_code response)
              && (response_status_code response <? 400)) eqn:Hok.
    + apply andb_true_iff in Hok as [H1%Z.leb_le H2%Z.ltb_lt].
      split; [reflexivity|]. split; [reflexivity|].
      split; [split; intros; [lia | reflexivity]|].
      split; [split; intros; [lia | reflexivity]|].
      split; [intros Hout; lia|]. auto.
    + assert (Hout : ~ 200 <= response_status_code response < 400).
      { apply andb_false_iff in Hok as [H1%Z.leb_gt|H2%Z.ltb_ge]; lia. }
      split; [reflexivity|]. split; [reflexivity|].
      split.
      { split; [|intros; lia].
        repeat match goal with
               | |- context [if ?b then _ else _] => destruct b
               end; discriminate. }
      split; [split; [discriminate | intros; lia]|].
      split; [reflexivity|]. auto.
  - repeat split. apply classify_error_not_NONE.
Qed.

End MoreExecutorFacts.
Lemma replace_absent (old new s : string) :
  contains old s = false -> replace old new s = s.
Proof.
  unfold replace. induction s as [|c s IH]; [reflexivity|].
  intros H.
  change (contains old (String c s))
    with (String.prefix old (String c s) || contains old s) in H.
  apply orb_false_iff in H as [Hp Hc].
  cbn [replace_from]. rewrite Hp, (IH Hc). reflexivity.
Qed.

Section RequestFacts.

Variable world : World.
Variable py_int : string -> option Z.
Variable self : HttpExecutor.
Variable target : Target.

Lemma _execute_attempt_io (run : Run) (n : Z) (st : State) :
  let st' := fst (_execute_attempt world py_int self run target n st) in
  exists req,
    sent st' = sent st ++ [req] /\ request_for target req /\
    slept st' = slept st /\ (ticks st < ticks st')%nat.
Proof.
  unfold _execute_attempt.
  pose proof (_prepare_body_frame world (body_template target) st) as Hp.
  destruct (_prepare_body world (body_template target) st) as [st0 body].
  simpl in Hp. destruct Hp as (_ & Hsent & _ & _ & _ & Hslept & Hticks).
  unfold request, utcnow, request_for. simpl.
  destruct (net world (length (sent st0))) as [response|e]; simpl;
    eexists; rewrite Hsent, Hslept;
    (split; [reflexivity|]); simpl; repeat split; lia.
Qed.

(** X4: every attempt issues one request, with the method, URL,
    headers and timeout of the target.  A body is sent only with POST,
    PUT and PATCH; without a template, or with an empty one, none is
    sent or recorded.  The recorded body is the template with
    [{{timestamp}}] replaced by the ISO form of the clock reading taken
    at the start of the attempt, whatever the method; a template without
    the placeholder is recorded, and with POST, PUT or PATCH sent, as it
    is. *)
Theorem _execute_attempt_request (run : Run) (n : Z) (st : State) :
  let st' := fst (_execute_attempt world py_int self run target n st) in
  let a := snd (_execute_attempt world py_int self run target n st) in
  exists req,
    sent st' = sent st ++ [req] /\ request_for target req /\
    request_url a = url target /\ request_method a = method target /\
    request_headers a = kw_headers req /\
    (method target ∉ [POST; PUT; PATCH] -> kw_content req = None) /\
    (body_template target = None \/ body_template target = Some "" ->
     kw_content req = None /\ request_body a = None) /\
    (forall s, body_template target = Some s -> s <> "" ->
       request_body a
       = Some (replace "{{timestamp}}" (isoformat (clock world (ticks st)))
                 s)) /\
    (forall s, body_template target = Some s -> s <> "" ->
       contains "{{timestamp}}" s = false ->
       request_body a = Some s /\
       (method target ∈ [POST; PUT; PATCH] -> kw_content req = Some s)).
Proof.
  unfold _execute_attempt, _prepare_body.
  destruct (body_template target) as [[|c s0]|] eqn:Ht.
  - unfold request, utcnow, request_for. simpl.
    destruct (net world (length (sent st))) as [response|e]; simpl;
      eexists; (split; [reflexivity|]); simpl;
      (split; [auto|]); repeat split; try reflexivity;
      try (intros s Hs; inversion Hs; subst; intros Hne; contradiction);
      match goal with
      | H : Some "" = Some ?s, H' : ?s <> "" |- _ =>
          inversion H; subst; contradiction
      end.
  - unfold request, utcnow, request_for.
    set (body := replace "{{timestamp}}" (isoformat (clock world (ticks st)))
                   (String c s0)).
    simpl.
    assert (Hbody : forall s, Some (String c s0) = Some s ->
              contains "{{timestamp}}" s = false -> body = s).
    { intros s Hs Hc. inversion Hs; subst s. apply replace_absent.
      exact Hc. }
    destruct (net world (length (sent st))) as [response|e]; simpl;
      eexists; (split; [reflexivity|]); simpl;
      (split; [auto|]); (split; [reflexivity|]); (split; [reflexivity|]);
      (split; [reflexivity|]);
      (split;
       [ intros Hm; destruct body; [reflexivity|];
         rewrite bool_decide_eq_false_2 by exact Hm; reflexivity |]);
      (split; [intros [Hx|Hx]; discriminate|]);
      (split; [intros s Hs Hne; inversion Hs; subst; reflexivity|]);
      intros s Hs Hne Hc; rewrite (Hbody s Hs Hc);
      (split; [reflexivity|]); intros Hm;
      (destruct s; [contradiction|]);
      rewrite bool_decide_eq_true_2 by exact Hm; reflexivity.
  - unfold request, utcnow, request_for. simpl.
    destruct (net world (length (sent st))) as [response|e]; simpl;
      eexists; (split; [reflexivity|]); simpl;
      (split; [auto|]); repeat split; try reflexivity;
      try (intros s Hs; discriminate); discriminate.
Qed.

Lemma paced_tail (n : Z) (rest : list Z) :
  paced self (n :: rest) -> paced self rest.
Proof.
  intros H i m Hi. destruct (H (S i) m Hi) as [H1 H2]. simpl in H2.
  split; [exact H1|]. rewrite H2. lia.
Qed.

Lemma paced_range : paced self (range 1 (max_retries self + 1)).
Proof.
  intros i n Hi. rewrite range_length.
  apply range_lookup in Hi as Hn.
  apply lookup_lt_Some in Hi. rewrite range_length in Hi. lia.
Qed.

Lemma retry_loop_io (nums : list Z) :
  paced self nums ->
  forall run last0 st st' res,
    retry_loop world py_int self target nums run last0 st = (st', res) ->
    exists (k : nat) reqs,
      length (attempts (db st')) = (length (attempts (db st)) + k)%nat /\
      sent st' = sent st ++ reqs /\ length reqs = k /\
      Forall (request_for target) reqs /\
      slept st' = slept st ++ backoff_delays self (take (k - 1) nums) /\
      (ticks st <= ticks st')%nat /\
      (nums <> [] -> k <> 0%nat) /\ (k <= length nums)%nat.
Proof.
  induction nums as [|n rest IH]; intros Hpaced run last0 st st' res Hloop.
  - simpl in Hloop. inversion Hloop; subst. exists 0%nat, [].
    unfold backoff_delays. simpl. rewrite ?app_nil_r.
    repeat split; auto; lia.
  - simpl in Hloop.
    pose proof (_execute_attempt_effect world py_int self target run n st)
      as Hatt.
    pose proof (_execute_attempt_io run n st) as Hio.
    destruct (_execute_attempt world py_int self run target n st)
      as [st1 a].
    simpl in Hio. destruct Hio as (req & Hsent & Hreq & Hslept & Hticks).
    destruct Hatt as (Hdb & _ & Hnum & _ & _).
    assert (Hone : exists (k : nat) reqs,
              length (attempts (db st1))
              = (length (attempts (db st)) + k)%nat /\
              sent st1 = sent st ++ reqs /\ length reqs = k /\
              Forall (request_for target) reqs /\
              slept st1
              = slept st ++ backoff_delays self (take (k - 1) (n :: rest)) /\
              (ticks st <= ticks st1)%nat /\
              (n :: rest <> [] -> k <> 0%nat) /\
              (k <= length (n :: rest))%nat).
    { exists 1%nat, [req]. rewrite Hdb, length_app. simpl.
      rewrite app_nil_r.
      repeat split; auto; try lia. }
    destruct (decide (error_type a = NONE)).
    { inversion Hloop; subst. exact Hone. }
    destruct (decide (error_type a = CLIENT_ERROR)).
    { inversion Hloop; subst. exact Hone. }
    pose proof (Hpaced 0%nat n eq_refl) as [Hn1 Hn]. simpl in Hn.
    assert (Hrec : forall st2 d,
              attempts (db st2) = attempts (db st1) ->
              sent st2 = sent st1 -> ticks st2 = ticks st1 ->
              slept st2 = slept st1 ++ d ->
              (d = [] /\ rest = [] \/
               d = [Qmin (base_retry_delay self * 2 ^ (n - 1)) 30]
               /\ rest <> []) ->
              retry_loop world py_int self target rest
                (set_attempt_count n run) (Some a) st2 = (st', res) ->
              exists (k : nat) reqs,
                length (attempts (db st'))
                = (length (attempts (db st)) + k)%nat /\
                sent st' = sent st ++ reqs /\ length reqs = k /\
                Forall (request_for target) reqs /\
                slept st'
                = slept st ++ backoff_delays self (take (k - 1) (n :: rest)) /\
                (ticks st <= ticks st')%nat /\
                (n :: rest <> [] -> k <> 0%nat) /\
                (k <= length (n :: rest))%nat).
    { intros st2 d Ha2 Hs2 Ht2 Hsl2 Hd Hrest.
      destruct (IH (paced_tail _ _ Hpaced) _ _ _ _ _ Hrest)
        as (k & reqs & Hk & Hsent' & Hlen & Hall & Hslept' & Hticks' & Hnz
            & Hle).
      exists (S k), (req :: reqs).
      split; [rewrite Hk, Ha2, Hdb, length_app; simpl; lia|].
      split; [rewrite Hsent', Hs2, Hsent, <- app_assoc; reflexivity|].
      split; [simpl; congruence|].
      split; [constructor; assumption|].
      split.
      { rewrite Hslept', Hsl2, Hslept.
        destruct Hd as [[Hd1 Hd2]|[Hd1 Hne]]; rewrite Hd1.
        - rewrite Hd2 in Hle. simpl in Hle.
          replace k with 0%nat by lia.
          rewrite app_nil_r. reflexivity.
        - specialize (Hnz Hne). destruct k as [|k]; [contradiction|].
          simpl. replace (k - 0)%nat with k by lia.
          rewrite <- app_assoc. reflexivity. }
      split; [lia|]. split; [intros _; discriminate|]. simpl. lia. }
    destruct (n <? max_retries self) eqn:Hlt.
    + apply Z.ltb_lt in Hlt.
      assert (Hne : rest <> []).
      { destruct rest; [|discriminate]. apply Hn in Hlt. simpl in Hlt. lia. }
      unfold calculate_backoff_delay, float_of_pow2 in Hloop.
      destruct (1024 <=? n - 1).
      * inversion Hloop; subst. exact Hone.
      * destruct (n - 1 <? -1074) eqn:Eu; [lia|].
        apply (Hrec (sleep (Qmin (base_retry_delay self * 2 ^ (n - 1)) 30)
                         st1)
                 [Qmin (base_retry_delay self * 2 ^ (n - 1)) 30]
                 eq_refl eq_refl eq_refl eq_refl); [|exact Hloop].
        right. split; [reflexivity | exact Hne].
    + apply Z.ltb_ge in Hlt.
      assert (He : rest = []).
      { destruct rest; [reflexivity|].
        assert (n < max_retries self) by (apply Hn; simpl; lia). lia. }
      apply (Hrec st1 [] eq_refl eq_refl eq_refl); [| |exact Hloop].
      * rewrite app_nil_r. reflexivity.
      * left. split; [reflexivity | exact He].
Qed.


Lemma numbered_from {A : Type} (f : A -> Z) (l : list A) :
  forall k,
    (forall i a, l !! i = Some a -> f a = k + Z.of_nat i) ->
    map f l = seqZ k (Z.of_nat (length l)).
Proof.
  induction l as [|x l IH]; intros k H.
  - reflexivity.
  - rewrite seqZ_cons by (simpl; lia). simpl map. f_equal.
    + rewrite (H 0%nat x eq_refl). lia.
    + replace (Z.pred (Z.of_nat (length (x :: l))))
        with (Z.of_nat (length l)) by (simpl; lia).
      apply IH. intros i a Hi. rewrite (H (S i) a Hi). lia.
Qed.

Lemma take_seqZ (m n : Z) (k : nat) :
  (k <= Z.to_nat n)%nat -> take k (seqZ m n) = seqZ m (Z.of_nat k).
Proof.
  intros Hk. apply list_eq. intros i.
  destruct (decide (i < k)%nat) as [Hi|Hi].
  - rewrite lookup_take_lt by exact Hi.
    rewrite !lookup_seqZ_lt by lia. reflexivity.
  - rewrite lookup_take_ge by lia.
    rewrite lookup_seqZ_ge by lia. reflexivity.
Qed.

Lemma exhausted_attempt_count (r : Run) (l : option Attempt) :
  attempt_count (exhausted r l) = attempt_count r /\
  run_started_at (exhausted r l) = run_started_at r.
Proof.
  unfold exhausted.
  destruct (decide (run_status r = RunStatus.RUNNING)); [|auto].
  destruct l as [a|]; [|simpl; auto].
  destruct (decide (error_type a = TIMEOUT)); simpl; auto.
Qed.

Lemma last_numbered (new : list Attempt) (a : Attempt) :
  (forall i a, new !! i = Some a -> attempt_number a = Z.of_nat (S i)) ->
  last new = Some a -> attempt_number a = Z.of_nat (length new).
Proof.
  intros Hnum Hl. rewrite last_lookup in Hl.
  apply lookup_lt_Some in Hl as Hlt.
  rewrite (Hnum _ _ Hl). lia.
Qed.

(** X5: the attempts [execute_run] stores for a run are appended to
    the table, belong to that run, are at most [max_retries] and are
    numbered 1, 2, 3, ... in the order they were made; when the call
    returns, [attempt_count] of the run is their number (and is left as
    it was when no attempt was made). *)
Theorem execute_run_attempts_numbered (run : Run) (st : State) :
  exists new,
    attempts (db (fst (execute_run world py_int self run target st)))
    = attempts (db st) ++ new /\
    (length new <= Z.to_nat (max_retries self))%nat /\
    map attempt_number new = seqZ 1 (Z.of_nat (length new)) /\
    Forall (fun a => attempt_run_id a = run_id run) new /\
    match snd (execute_run world py_int self run target st) with
    | Ok run' =>
        attempt_count run'
        = match new with
          | [] => attempt_count run
          | _ => Z.of_nat (length new)
          end
    | Raise _ => True
    end.
Proof.
  destruct (execute_run_trace world py_int self target run st)
    as (new & res0 & Hnew & Hlen & Hnum & _ & Hpost & Hres).
  exists new. split; [exact Hnew|]. split; [exact Hlen|].
  split.
  { apply numbered_from. intros i a Hi.
    destruct (Hnum i a Hi) as [Hn _]. lia. }
  split.
  { apply Forall_lookup. intros i a Hi. apply (Hnum i a Hi). }
  destruct res0 as [[run1 last1]|e].
  - destruct Hres as (now & ->).
    destruct (exhausted_attempt_count run1 last1) as [Hc _].
    simpl. rewrite Hc. unfold loop_post in Hpost.
    destruct (last new) as [a|] eqn:Hl.
    + assert (Ha : attempt_number a = Z.of_nat (length new)).
      { apply last_numbered; [|exact Hl].
        intros i a0 Hi. apply (Hnum i a0 Hi). }
      destruct new as [|b new']; [discriminate|].
      destruct Hpost as (_ & [[_ ->]|[[_ ->]|(_ & _ & ->)]]);
        simpl; exact Ha.
    + apply last_None in Hl. subst new.
      destruct Hpost as (_ & -> & _). reflexivity.
  - rewrite Hres. exact I.
Qed.

(** X6: [execute_run] raises only [OverflowError], and only when more
    than 1025 retries are configured and 1025 attempts have been made;
    otherwise it returns the run in a terminal status, [started_at] the
    clock reading taken on entry and [completed_at] the last reading
    taken.  The run is [SUCCESS] exactly when its last attempt is
    without error and [TIMEOUT] exactly when its last attempt timed out;
    [final_status_code] and [final_error_type] are those of the last
    attempt, and so is [final_error_message] unless that attempt
    succeeded.  With no attempt at all the run is [FAILED]. *)
Theorem execute_run_outcome (run : Run) (st : State) :
  exists new,
    attempts (db (fst (execute_run world py_int self run target st)))
    = attempts (db st) ++ new /\
    match snd (execute_run world py_int self run target st) with
    | Ok run' =>
        run_status run'
        ∈ [RunStatus.SUCCESS; RunStatus.FAILED; RunStatus.TIMEOUT] /\
        run_started_at run' = Some (clock world (ticks st)) /\
        (exists k, (ticks st < k)%nat /\
           run_completed_at run' = Some (clock world k) /\
           ticks (fst (execute_run world py_int self run target st)) = S k) /\
        match last new with
        | Some a =>
            (run_status run' = RunStatus.SUCCESS <-> error_type a = NONE) /\
            (run_status run' = RunStatus.TIMEOUT <-> error_type a = TIMEOUT) /\
            final_status_code run' = status_code a /\
            final_error_type run' = error_type a /\
            (error_type a <> NONE ->
             final_error_message run' = error_message a)
        | None => run_status run' = RunStatus.FAILED /\ max_retries self <= 0
        end
    | Raise e =>
        e = OverflowError /\ 1025 < max_retries self /\
        (1024 < length new)%nat
    end.
Proof.
  unfold execute_run.
  pose proof (start_run_frame world run st) as (Hatt0 & _ & Hrunning).
  assert (Ht0 : ticks (fst (start_run world run st)) = S (ticks st))
    by reflexivity.
  assert (Hs0 : run_started_at (snd (start_run world run st))
                = Some (clock world (ticks st))) by reflexivity.
  destruct (start_run world run st) as [st0 run0]. simpl in *.
  destruct (retry_loop world py_int self target
              (range 1 (max_retries self + 1)) run0 None st0)
    as [st1 res0] eqn:Hloop.
  destruct (retry_loop_trace _ _ _ _ _ _ _ _ _ _ Hloop)
    as (new & Hnew & _ & Hlen & Hnums & _ & Hpost).
  destruct (retry_loop_io _ paced_range _ _ _ _ _ Hloop)
    as (k & reqs & _ & _ & _ & _ & _ & Hticks & _).
  assert (Hnum : forall i a, new !! i = Some a ->
            attempt_number a = Z.of_nat (S i)).
  { intros i a Hi. destruct (Hnums i a Hi) as [Hn _].
    apply range_lookup in Hn. lia. }
  exists new. unfold loop_post in Hpost.
  destruct res0 as [[run1 last1]|e]; simpl.
  - split; [rewrite Hnew, Hatt0; reflexivity|].
    assert (Hstart : run_started_at (exhausted run1 last1)
                     = Some (clock world (ticks st))).
    { destruct (exhausted_attempt_count run1 last1) as [_ ->].
      destruct (last new) as [a|].
      - destruct Hpost as (_ & [[_ ->]|[[_ ->]|(_ & _ & ->)]]);
          simpl; exact Hs0.
      - destruct Hpost as (_ & -> & _). exact Hs0. }
    assert (Htime : exists k0, (ticks st < k0)%nat /\
              Some (clock world (ticks st1)) = Some (clock world k0) /\
              S (ticks st1) = S k0).
    { exists (ticks st1). split; [lia|]. split; reflexivity. }
    destruct (last new) as [a|] eqn:Hl.
    + destruct Hpost as (-> & Hcase). unfold exhausted.
      destruct Hcase as [[Hk ->]|[[Hk ->]|([Hk1 Hk2] & _ & ->)]]; simpl.
      * rewrite Hk. rewrite !elem_of_cons.
        repeat split; auto; try discriminate; intros; congruence.
      * rewrite Hk. rewrite !elem_of_cons.
        repeat split; auto; try discriminate; intros; congruence.
      * rewrite Hrunning.
        destruct (decide (RunStatus.RUNNING = RunStatus.RUNNING));
          [|contradiction].
        destruct (decide (error_type a = TIMEOUT)) as [Hto|Hto]; simpl;
          rewrite !elem_of_cons;
          repeat split; auto; try discriminate; try contradiction;
          intros; congruence.
    + destruct Hpost as (Hnil & -> & ->). unfold exhausted.
      rewrite Hrunning.
      destruct (decide (RunStatus.RUNNING = RunStatus.RUNNING));
        [|contradiction].
      simpl. rewrite !elem_of_cons.
      split; [auto|]. split; [exact Hs0|]. split; [exact Htime|].
      split; [reflexivity|].
      assert (Hz : length (range 1 (max_retries self + 1)) = 0%nat)
        by (rewrite Hnil; reflexivity).
      rewrite range_length in Hz. lia.
  - split; [rewrite Hnew, Hatt0; reflexivity|].
    destruct Hpost as (He & a & Hl & _ & Hlt & Hbig).
    rewrite (last_numbered new a Hnum Hl) in Hlt, Hbig.
    split; [exact He|]. lia.
Qed.

(** X7: [execute_run] issues exactly one request per attempt it
    stores, each with the method, URL, headers and timeout of the
    target, and sleeps exactly between consecutive attempts: after
    attempt number k, when another one follows, for
    min(base_retry_delay * 2^(k-1), 30) seconds, and never after the
    last one. *)
Theorem execute_run_requests_and_sleeps (run : Run) (st : State) :
  let st' := fst (execute_run world py_int self run target st) in
  exists reqs,
    sent st' = sent st ++ reqs /\
    length (attempts (db st'))
    = (length (attempts (db st)) + length reqs)%nat /\
    Forall (request_for target) reqs /\
    slept st'
    = slept st
      ++ backoff_delays self (seqZ 1 (Z.of_nat (length reqs - 1))).
Proof.
  unfold execute_run.
  pose proof (start_run_frame world run st) as (Hatt0 & _ & _).
  assert (Hs0 : sent (fst (start_run world run st)) = sent st
                /\ slept (fst (start_run world run st)) = slept st)
    by (split; reflexivity).
  destruct (start_run world run st) as [st0 run0]. simpl in *.
  destruct Hs0 as [Hsent0 Hslept0].
  destruct (retry_loop world py_int self target
              (range 1 (max_retries self + 1)) run0 None st0)
    as [st1 res0] eqn:Hloop.
  destruct (retry_loop_io _ paced_range _ _ _ _ _ Hloop)
    as (k & reqs & Hk & Hsent & Hlen & Hall & Hslept & _ & _ & Hle).
  rewrite range_length in Hle. subst k.
  assert (Hdelays : slept st1
            = slept st
              ++ backoff_delays self (seqZ 1 (Z.of_nat (length reqs - 1)))).
  { rewrite Hslept, Hslept0. unfold range.
    rewrite take_seqZ by lia. reflexivity. }
  exists reqs.
  destruct res0 as [[run1 last1]|e]; simpl;
    rewrite Hsent, Hsent0, Hk, Hatt0;
    (split; [reflexivity|]); (split; [reflexivity|]);
    (split; [exact Hall|]); exact Hdelays.
Qed.


(** What a caller of [execute_run] relies on, in one statement. *)
Lemma execute_run_summary (run : Run) (st : State) :
  let st' := fst (execute_run world py_int self run target st) in
  exists new reqs,
    attempts (db st') = attempts (db st) ++ new /\
    sent st' = sent st ++ reqs /\ length reqs = length new /\
    (length new <= Z.to_nat (max_retries self))%nat /\
    Forall (request_for target) reqs /\
    map attempt_number new = seqZ 1 (Z.of_nat (length new)) /\
    Forall (fun a => attempt_run_id a = run_id run) new /\
    (ticks st < ticks st')%nat /\
    match snd (execute_run world py_int self run target st) with
    | Ok run' =>
        run_status run'
        ∈ [RunStatus.SUCCESS; RunStatus.FAILED; RunStatus.TIMEOUT] /\
        run_started_at run' = Some (clock world (ticks st)) /\
        (exists k, (ticks st < k)%nat /\
           run_completed_at run' = Some (clock world k) /\
           ticks st' = S k) /\
        attempt_count run'
        = match new with
          | [] => attempt_count run
          | _ => Z.of_nat (length new)
          end
    | Raise _ => True
    end.
Proof.
  unfold execute_run.
  pose proof (start_run_frame world run st) as (Hatt0 & Hid0 & Hrunning).
  assert (Hs0 : sent (fst (start_run world run st)) = sent st /\
                ticks (fst (start_run world run st)) = S (ticks st) /\
                run_started_at (snd (start_run world run st))
                = Some (clock world (ticks st)) /\
                attempt_count (snd (start_run world run st))
                = attempt_count run)
    by (repeat split; reflexivity).
  destruct (start_run world run st) as [st0 run0]. simpl in *.
  destruct Hs0 as (Hsent0 & Ht0 & Hst0 & Hc0).
  destruct (retry_loop world py_int self target
              (range 1 (max_retries self + 1)) run0 None st0)
    as [st1 res0] eqn:Hloop.
  destruct (retry_loop_trace _ _ _ _ _ _ _ _ _ _ Hloop)
    as (new & Hnew & _ & Hlen & Hnums & _ & Hpost).
  destruct (retry_loop_io _ paced_range _ _ _ _ _ Hloop)
    as (k & reqs & Hk & Hsent & Hlenr & Hall & _ & Hticks & _ & _).
  rewrite range_length in Hlen.
  assert (Hnum : forall i a, new !! i = Some a ->
            attempt_number a = Z.of_nat (S i)).
  { intros i a Hi. destruct (Hnums i a Hi) as [Hn _].
    apply range_lookup in Hn. lia. }
  assert (Hsame : length reqs = length new).
  { rewrite Hnew, length_app in Hk. lia. }
  assert (Hnumbered : map attempt_number new
                      = seqZ 1 (Z.of_nat (length new))).
  { apply numbered_from. intros i a Hi. rewrite (Hnum i a Hi). lia. }
  assert (Hown : Forall (fun a => attempt_run_id a = run_id run) new).
  { apply Forall_lookup. intros i a Hi.
    destruct (Hnums i a Hi) as [_ Hr]. congruence. }
  exists new, reqs. unfold loop_post in Hpost.
  destruct res0 as [[run1 last1]|e]; simpl.
  - split; [rewrite Hnew, Hatt0; reflexivity|].
    split; [rewrite Hsent, Hsent0; reflexivity|].
    split; [exact Hsame|]. split; [lia|]. split; [exact Hall|].
    split; [exact Hnumbered|]. split; [exact Hown|]. split; [lia|].
    destruct (exhausted_attempt_count run1 last1) as [Hc Hs].
    rewrite Hc, Hs.
    assert (Htime : exists k0, (ticks st < k0)%nat /\
              Some (clock world (ticks st1)) = Some (clock world k0) /\
              S (ticks st1) = S k0).
    { exists (ticks st1). split; [lia|]. split; reflexivity. }
    unfold exhausted.
    destruct (last new) as [a|] eqn:Hl.
    + assert (Ha : attempt_number a = Z.of_nat (length new))
        by (apply last_numbered; assumption).
      destruct new as [|b new']; [discriminate|].
      destruct Hpost as (-> & [[_ ->]|[[_ ->]|(_ & _ & ->)]]); simpl;
        try (rewrite !elem_of_cons; repeat split; auto; fail).
      rewrite Hrunning.
      destruct (decide (RunStatus.RUNNING = RunStatus.RUNNING));
        [|contradiction].
      destruct (decide (error_type a = TIMEOUT)); simpl;
        rewrite !elem_of_cons; repeat split; auto.
    + apply last_None in Hl. subst new.
      destruct Hpost as (_ & -> & ->). rewrite Hrunning.
      destruct (decide (RunStatus.RUNNING = RunStatus.RUNNING));
        [|contradiction].
      simpl. rewrite !elem_of_cons. repeat split; auto.
  - split; [rewrite Hnew, Hatt0; reflexivity|].
    split; [rewrite Hsent, Hsent0; reflexivity|].
    split; [exact Hsame|]. split; [lia|]. split; [exact Hall|].
    split; [exact Hnumbered|]. split; [exact Hown|]. split; [lia|].
    exact I.
Qed.

End RequestFacts.

(* ===================================================================== *)
(** * More of the scheduler: a firing, case by case                       *)
(* ===================================================================== *)

Section FiringFacts.

Variable world : World.
Variable py_int : string -> option Z.
Variable croniter_get_next : option string -> datetime -> result datetime.
Variable settings : Settings.

Lemma _calculate_next_run_fst (s : Schedule) (st : State) :
  fst (_calculate_next_run world croniter_get_next s st) = tick st.
Proof.
  unfold _calculate_next_run. simpl.
  destruct (schedule_type s); [destruct (interval_seconds s)|]; reflexivity.
Qed.

(** The four ways a firing can go: nothing happens; the schedule is
    expired on entry; a run is made and the schedule updated; an
    exception leaves the session after the run was inserted. *)
Lemma fire_cases (sid : string) (st st' : State) (res : result unit) :
  fire world py_int croniter_get_next settings sid st = (st', res) ->
  running_jobs st' = running_jobs st /\ (ticks st <= ticks st')%nat /\
  ((db st' = db st /\ jobs st' = jobs st /\ sent st' = sent st /\
    uuids st' = uuids st)
   \/
   (exists s,
      filter (fun s => schedule_id s = sid) (schedules (db st)) = [s] /\
      schedule_status s = ACTIVE /\ res = Ok tt /\
      ((exists e, expires_at s = Some e /\
                  e <= clock world (ticks st) + IST_OFFSET)
       \/ max_runs_reached s = true) /\
      db st'
      = set_schedules
          (replaced (set_schedule_status EXPIRED s) (schedules (db st)))
          (db st) /\
      jobs st' = delete (job_id_of sid) (jobs st) /\ sent st' = sent st)
   \/
   (exists s k r new reqs l n,
      filter (fun s => schedule_id s = sid) (schedules (db st)) = [s] /\
      schedule_status s = ACTIVE /\ max_runs_reached s = false /\
      res = Ok tt /\
      (forall e, expires_at s = Some e ->
         clock world (ticks st) + IST_OFFSET < e) /\
      (k = ticks st \/ k = S (ticks st)) /\
      fired_run world s k st st' r new /\
      (forall r0, r0 ∈ runs (db st) ->
         run_id r0 <> run_id r /\ idempotency_key r0 <> idempotency_key r) /\
      runs (db st') = runs (db st) ++ [r] /\
      attempts (db st') = attempts (db st) ++ new /\
      sent st' = sent st ++ reqs /\ length reqs = length new /\
      (length new <= Z.to_nat (max_retries (executor settings)))%nat /\
      Forall (request_for (target s)) reqs /\
      (exists kl, (k < kl < ticks st')%nat /\
                  l = clock world kl + IST_OFFSET) /\
      schedules (db st')
      = replaced (if max_runs_reached (counted s l n)
                  then set_schedule_status EXPIRED (counted s l n)
                  else counted s l n)
          (schedules (db st)) /\
      jobs st' = (if max_runs_reached (counted s l n)
                  then delete (job_id_of sid) (jobs st) else jobs st))
   \/
   (exists e reqs s,
      res = Raise e /\ jobs st' = jobs st /\ sent st' = sent st ++ reqs /\
      (length reqs <= Z.to_nat (max_retries (executor settings)))%nat /\
      filter (fun s => schedule_id s = sid) (schedules (db st)) = [s] /\
      Forall (request_for (target s)) reqs)).
Proof.
  unfold fire. intros H.
  destruct (filter (fun s => schedule_id s = sid) (schedules (db st)))
    as [|schedule [|s2 l]] eqn:Hsel.
  { inversion H; subst. split; [reflexivity|]. split; [lia|]. left. auto. }
  2:{ inversion H; subst. split; [reflexivity|]. split; [lia|]. left. auto. }
  assert (Hsid : schedule_id schedule = sid).
  { apply (filter_singleton_holds _ _ _ Hsel). }
  destruct (decide (schedule_status schedule <> ACTIVE)) as [Hna|Hact].
  { inversion H; subst. split; [reflexivity|]. split; [lia|]. left. auto. }
  apply dec_stable in Hact.
  match type of H with
  | context [match ?x with (_, _) => _ end] =>
      destruct x as [st0 over] eqn:Hpre
  end.
  assert (Hst0 : (st0 = st /\ expires_at schedule = None /\ over = false) \/
                 (exists e, st0 = tick st /\ expires_at schedule = Some e /\
                    over = (e <=? clock world (ticks st) + IST_OFFSET))).
  { destruct (expires_at schedule) as [e|]; inversion Hpre; subst.
    - right. exists e. auto.
    - left. auto. }
  clear Hpre.
  assert (Hfr0 : db st0 = db st /\ jobs st0 = jobs st /\ sent st0 = sent st /\
                 uuids st0 = uuids st /\ running_jobs st0 = running_jobs st /\
                 (ticks st0 = ticks st \/ ticks st0 = S (ticks st))).
  { destruct Hst0 as [(-> & _ & _)|(e & -> & _ & _)]; simpl; auto 10. }
  destruct Hfr0 as (Hdb0 & Hj0 & Hs0 & Hu0 & Hr0 & Hk).
  assert (Hopen : over = false -> forall e, expires_at schedule = Some e ->
                    clock world (ticks st) + IST_OFFSET < e).
  { intros Hov e He.
    destruct Hst0 as [(_ & Hn & _)|(e' & _ & He' & Ho)]; [congruence|].
    rewrite He in He'. inversion He'; subst e'. rewrite Hov in Ho.
    symmetry in Ho. apply Z.leb_gt in Ho. exact Ho. }
  destruct over.
  { inversion H; subst. clear Hopen.
    destruct Hst0 as [(_ & _ & Hf)|(e & -> & He & Ho)]; [discriminate|].
    split; [reflexivity|]. split; [simpl; lia|]. right; left.
    exists schedule. split; [reflexivity|]. split; [exact Hact|].
    split; [reflexivity|]. split.
    { left. exists e. split; [exact He|]. symmetry in Ho.
      apply Z.leb_le in Ho. exact Ho. }
    repeat split. }
  specialize (Hopen eq_refl).
  destruct (max_runs_reached schedule) eqn:Hmax.
  { inversion H; subst.
    split; [simpl; exact Hr0|]. split; [simpl; lia|]. right; left.
    exists schedule. split; [reflexivity|]. split; [exact Hact|].
    split; [reflexivity|]. split; [right; exact Hmax|].
    unfold expire, update_schedule, _remove_job_for_schedule. simpl.
    rewrite Hdb0, Hj0, Hs0. repeat split. }
  unfold now_ist at 1 in H.
  set (now := clock world (ticks st0) + IST_OFFSET) in H.
  set (key := make_idempotency_key (schedule_id schedule) now) in H.
  change (db (tick st0)) with (db st0) in H.
  destruct (filter (fun r => idempotency_key r = Some key) (runs (db st0)))
    as [|r1 [|r2 l]] eqn:Hdup.
  2:{ inversion H; subst. split; [exact Hr0|]. split; [simpl; lia|].
      left. simpl. auto. }
  2:{ inversion H; subst. split; [exact Hr0|]. split; [simpl; lia|].
      left. simpl. auto. }
  unfold insert_run in H.
  change (db (next_uuid (tick st0))) with (db st0) in H.
  cbn [run_id] in H.
  match type of H with
  | context [bool_decide ?P] => destruct (bool_decide P) eqn:Hex
  end.
  { inversion H; subst. split; [exact Hr0|]. split; [simpl; lia|].
    right; right; right. exists IntegrityError, [], schedule.
    rewrite app_nil_r. simpl.
    split; [reflexivity|]. split; [exact Hj0|]. split; [exact Hs0|].
    split; [lia|]. split; [reflexivity | constructor]. }
  apply bool_decide_eq_false in Hex.
  set (run0 := {| run_id := uuid4 world (uuids (tick st0));
                  run_schedule_id := schedule_id schedule;
                  idempotency_key := Some key;
                  run_status := RunStatus.PENDING;
                  scheduled_at := now;
                  run_started_at := None; run_completed_at := None;
                  attempt_count := 0; final_status_code := None;
                  final_error_type := NONE;
                  final_error_message := None |}) in *.
  set (st1 := set_db (set_runs (runs (db st0) ++ [run0]) (db st0))
                (next_uuid (tick st0))) in *.
  pose proof (execute_run_frame world py_int
                (executor settings) (target schedule) run0 st1) as Hrun.
  pose proof (execute_run_summary world py_int
                (executor settings) (target schedule) run0 st1) as Hsum.
  destruct (execute_run world py_int (executor settings) run0
              (target schedule) st1) as [st2 [run'|e]].
  all: simpl in Hrun, Hsum.
  all: destruct Hrun as (Hsch2 & Hj2 & Hr2 & Hu2 & Hrun).
  all: destruct Hsum as (new & reqs & Hatt2 & Hsent2 & Hlen & Hle & Hall
                         & Hnumd & Hown & Hticks2 & Hsum).
  all: assert (Hreqs : (length reqs
                        <= Z.to_nat (max_retries (executor settings)))%nat)
         by (rewrite Hlen; exact Hle).
  all: assert (Hsent : sent st2 = sent st ++ reqs)
         by (rewrite Hsent2; simpl; rewrite Hs0; reflexivity).
  all: assert (Hjobs : jobs st2 = jobs st) by (rewrite Hj2; exact Hj0).
  all: assert (Hrunning : running_jobs st2 = running_jobs st)
         by (rewrite Hr2; exact Hr0).
  all: assert (Ht1 : ticks st1 = S (ticks st0)) by reflexivity.
  2:{ inversion H; subst.
      split; [exact Hrunning|]. split; [lia|].
      right; right; right. exists e, reqs, schedule.
      split; [reflexivity|]. split; [exact Hjobs|]. split; [exact Hsent|].
      split; [exact Hreqs|]. split; [reflexivity | exact Hall]. }
  destruct Hrun as ((Hi1 & Hi2 & Hi3 & Hi4) & Hruns).
  destruct Hsum as (Hterm & Hstart & (kc & Hkc & Hcomp & Hkt) & Hcount).
  unfold now_ist in H.
  match type of H with
  | context [_calculate_next_run _ _ ?s ?t] =>
      pose proof (_calculate_next_run_fst s t) as Hnext;
      destruct (_calculate_next_run world croniter_get_next s t)
        as [st3 [next|e]]
  end; simpl in Hnext; subst st3.
  2:{ inversion H; subst.
      split; [exact Hrunning|]. split; [simpl; lia|].
      right; right; right. exists e, reqs, schedule.
      split; [reflexivity|]. split; [exact Hjobs|]. split; [exact Hsent|].
      split; [exact Hreqs|]. split; [reflexivity | exact Hall]. }
  assert (Hfinal : runs (db st2) = runs (db st) ++ [run']).
  { rewrite Hruns. subst st1. simpl. rewrite map_app. simpl.
    rewrite decide_True by (rewrite Hi1; reflexivity).
    rewrite Hdb0. f_equal.
    rewrite <- (map_id (runs (db st))) at 2.
    apply map_ext_in. intros r Hin.
    destruct (decide (run_id r = run_id run')) as [E|E]; [|reflexivity].
    exfalso. apply Hex. apply Exists_exists. exists r.
    split; [rewrite Hdb0; apply list_elem_of_In; exact Hin|]. left.
    rewrite E, Hi1. reflexivity. }
  assert (Hfired : forall st4, ticks st4 = S (S (ticks st2)) ->
            fired_run world schedule (ticks st0) st st4 run' new).
  { intros st4 H4. unfold fired_run.
    split; [rewrite Hi1; simpl; rewrite Hu0; reflexivity|].
    split; [rewrite Hi2; reflexivity|].
    split; [rewrite Hi4; reflexivity|].
    split; [rewrite Hi3, Hi4; reflexivity|].
    split; [exact Hterm|].
    split; [rewrite Hstart; reflexivity|].
    split; [exists kc; split; [lia | exact Hcomp]|].
    split; [rewrite Hcount; destruct new; reflexivity|].
    split; [exact Hnumd|].
    eapply Forall_impl; [exact Hown|]. simpl. intros a Ha.
    rewrite Ha, Hi1. reflexivity. }
  assert (Hfresh : forall r0, r0 ∈ runs (db st) ->
            run_id r0 <> run_id run' /\
            idempotency_key r0 <> idempotency_key run').
  { intros r0 Hr0in. rewrite <- Hdb0 in Hr0in. split; intros Heq.
    - apply Hex. apply Exists_exists. exists r0.
      split; [exact Hr0in|]. left. rewrite Heq, Hi1. reflexivity.
    - apply Hex. apply Exists_exists. exists r0.
      split; [exact Hr0in|]. right. rewrite Heq, Hi3. reflexivity. }
  assert (Hatt : attempts (db st2) = attempts (db st) ++ new).
  { rewrite Hatt2. subst st1. simpl. rewrite Hdb0. reflexivity. }
  assert (Hsch : schedules (db st2) = schedules (db st)).
  { rewrite Hsch2. subst st1. simpl. rewrite Hdb0. reflexivity. }
  match type of H with
  | context [max_runs_reached ?s] => destruct (max_runs_reached s) eqn:Hmax2
  end; inversion H; subst st' res; clear H;
    (split; [exact Hrunning|]); (split; [simpl; lia|]);
    right; right; left;
    exists schedule, (ticks st0), run', new, reqs,
      (clock world (ticks st2) + IST_OFFSET), next;
    unfold counted; rewrite Hmax2;
    (split; [reflexivity|]); (split; [exact Hact|]);
    (split; [exact Hmax|]); (split; [reflexivity|]);
    (split; [exact Hopen|]); (split; [exact Hk|]);
    (split; [apply Hfired; reflexivity|]);
    (split; [exact Hfresh|]);
    (split; [exact Hfinal|]); (split; [exact Hatt|]);
    (split; [exact Hsent|]); (split; [exact Hlen|]);
    (split; [exact Hle|]); (split; [exact Hall|]);
    (split; [exists (ticks st2); split; [simpl; lia | reflexivity]|]).
  - unfold expire, update_schedule, _remove_job_for_schedule, replaced.
    simpl. rewrite Hsch, Hjobs, Hsid. split; reflexivity.
  - unfold update_schedule, replaced. simpl. rewrite Hsch, Hjobs.
    split; reflexivity.
Qed.

(** [_execute_schedule], case by case: the token is given back; the
    tables and the job store are as they were (requests may have been
    sent when an exception rolled the session back), or the schedule was
    expired on entry, or a run was made. *)
Lemma _execute_schedule_cases (sid : string) (st : State) :
  let st' :=
    _execute_schedule world py_int croniter_get_next settings sid st in
  running_jobs st' = running_jobs st /\ (ticks st <= ticks st')%nat /\
  ((db st' = db st /\ jobs st' = jobs st /\
    exists reqs,
      sent st' = sent st ++ reqs /\
      (length reqs <= Z.to_nat (max_retries (executor settings)))%nat /\
      (reqs = [] \/
       exists s,
         filter (fun s => schedule_id s = sid) (schedules (db st)) = [s] /\
         Forall (request_for (target s)) reqs))
   \/
   (exists s,
      filter (fun s => schedule_id s = sid) (schedules (db st)) = [s] /\
      schedule_status s = ACTIVE /\
      ((exists e, expires_at s = Some e /\
                  e <= clock world (ticks st) + IST_OFFSET)
       \/ max_runs_reached s = true) /\
      db st'
      = set_schedules
          (replaced (set_schedule_status EXPIRED s) (schedules (db st)))
          (db st) /\
      jobs st' = delete (job_id_of sid) (jobs st) /\ sent st' = sent st)
   \/
   (exists s k r new reqs l n,
      filter (fun s => schedule_id s = sid) (schedules (db st)) = [s] /\
      schedule_status s = ACTIVE /\ max_runs_reached s = false /\
      (forall e, expires_at s = Some e ->
         clock world (ticks st) + IST_OFFSET < e) /\
      (k = ticks st \/ k = S (ticks st)) /\
      fired_run world s k st st' r new /\
      (forall r0, r0 ∈ runs (db st) ->
         run_id r0 <> run_id r /\ idempotency_key r0 <> idempotency_key r) /\
      runs (db st') = runs (db st) ++ [r] /\
      attempts (db st') = attempts (db st) ++ new /\
      sent st' = sent st ++ reqs /\ length reqs = length new /\
      (length new <= Z.to_nat (max_retries (executor settings)))%nat /\
      Forall (request_for (target s)) reqs /\
      (exists kl, (k < kl < ticks st')%nat /\
                  l = clock world kl + IST_OFFSET) /\
      schedules (db st')
      = replaced (if max_runs_reached (counted s l n)
                  then set_schedule_status EXPIRED (counted s l n)
                  else counted s l n)
          (schedules (db st)) /\
      jobs st' = (if max_runs_reached (counted s l n)
                  then delete (job_id_of sid) (jobs st) else jobs st))).
Proof.
  unfold _execute_schedule.
  destruct (decide (sid ∈ running_jobs st)) as [Hin|Hout].
  { simpl. split; [reflexivity|]. split; [lia|]. left.
    split; [reflexivity|]. split; [reflexivity|]. exists [].
    rewrite app_nil_r. split; [reflexivity|]. split; [simpl; lia|].
    left; reflexivity. }
  set (st0 := set_running_jobs ({[sid]} ∪ running_jobs st) st).
  pose proof (fire_cases sid st0) as Hfire.
  destruct (fire world py_int croniter_get_next settings sid st0)
    as [st1 res].
  destruct (Hfire _ _ eq_refl) as (Hrun & Hticks & Hcase). clear Hfire.
  assert (Hback : running_jobs st1 ∖ {[sid]} = running_jobs st).
  { rewrite Hrun. subst st0. simpl. apply set_eq. intros x.
    rewrite elem_of_difference, elem_of_union, elem_of_singleton.
    split; [tauto|]. intros Hx. split; [tauto|]. intros ->. contradiction. }
  destruct Hcase as [Hn|[He|[Hr|Hx]]].
  - destruct Hn as (Hdb & Hj & Hs & _).
    assert (Hres : forall X, db X = db st0 -> jobs X = jobs st1 ->
              sent X = sent st1 -> ticks X = ticks st1 ->
              running_jobs X = running_jobs st1 ->
              running_jobs (set_running_jobs (running_jobs X ∖ {[sid]}) X)
              = running_jobs st /\
              (ticks st
               <= ticks (set_running_jobs (running_jobs X ∖ {[sid]}) X))%nat /\
              db (set_running_jobs (running_jobs X ∖ {[sid]}) X) = db st /\
              jobs (set_running_jobs (running_jobs X ∖ {[sid]}) X) = jobs st /\
              exists reqs,
                sent (set_running_jobs (running_jobs X ∖ {[sid]}) X)
                = sent st ++ reqs /\
                (length reqs
                 <= Z.to_nat (max_retries (executor settings)))%nat /\
                (reqs = [] \/
                 exists s,
                   filter (fun s => schedule_id s = sid) (schedules (db st))
                   = [s] /\
                   Forall (request_for (target s)) reqs)).
    { intros X HX1 HX2 HX3 HX4 HX5. simpl. rewrite HX5, HX1, HX2, HX3, HX4.
      split; [exact Hback|]. split; [exact Hticks|].
      split; [reflexivity|]. split; [exact Hj|]. exists [].
      rewrite app_nil_r. split; [exact Hs|]. split; [simpl; lia|].
      left; reflexivity. }
    destruct res as [u|e].
    + destruct (Hres st1 Hdb eq_refl eq_refl eq_refl eq_refl)
        as (R1 & R2 & R3 & R4 & R5).
      split; [exact R1|]. split; [exact R2|]. left. auto.
    + destruct (Hres (rollback st0 st1) eq_refl eq_refl eq_refl eq_refl
                  eq_refl) as (R1 & R2 & R3 & R4 & R5).
      split; [exact R1|]. split; [exact R2|]. left. auto.
  - destruct He as (s & Hsel & Hact & -> & Hwhy & Hdb & Hj & Hs).
    simpl. split; [exact Hback|]. split; [exact Hticks|]. right; left.
    exists s. auto 10.
  - destruct Hr as (s & k & r & new & reqs & l & n & Hsel & Hact & Hmax & ->
                    & Hopen & Hk & Hfired & Hfresh & Hruns & Hatt & Hsent
                    & Hlen & Hle & Hall & Hl & Hsch & Hj).
    simpl. split; [exact Hback|]. split; [exact Hticks|]. right; right.
    exists s, k, r, new, reqs, l, n. auto 20.
  - destruct Hx as (e & reqs & s & -> & Hj & Hs & Hle & Hsel & Hall).
    simpl. split; [exact Hback|]. split; [exact Hticks|]. left.
    split; [reflexivity|]. split; [exact Hj|]. exists reqs.
    split; [exact Hs|]. split; [exact Hle|]. right. exists s. auto.
Qed.


Lemma filter_singleton_unique {A} (P : A -> Prop)
    `{!forall x, Decision (P x)} (l : list A) (x y : A) :
  filter P l = [x] -> y ∈ l -> P y -> y = x.
Proof.
  intros Hf Hy HP.
  assert (Hin : y ∈ filter P l) by (apply list_elem_of_filter; auto).
  rewrite Hf in Hin. apply list_elem_of_singleton in Hin. exact Hin.
Qed.

Lemma map_lookup_Some {A B} (f : A -> B) (l : list A) (i : nat) (x : A) :
  l !! i = Some x -> map f l !! i = Some (f x).
Proof.
  revert i. induction l as [|y l IH]; intros [|i] H; simpl in *;
    try discriminate.
  - inversion H; subst. reflexivity.
  - apply IH. exact H.
Qed.

(** Rewriting the one row of [sid]. *)
Lemma replaced_lookup (rows : list Schedule) (sid : string)
    (s0 s1 : Schedule) (i : nat) (s : Schedule) :
  filter (fun s => schedule_id s = sid) rows = [s0] ->
  schedule_id s1 = sid ->
  rows !! i = Some s ->
  (s = s0 /\ replaced s1 rows !! i = Some s1) \/
  (schedule_id s <> sid /\ replaced s1 rows !! i = Some s).
Proof.
  intros Hsel Hid Hi. unfold replaced.
  rewrite (map_lookup_Some _ _ _ _ Hi). rewrite Hid.
  destruct (decide (schedule_id s = sid)) as [E|E].
  - left. split; [|reflexivity].
    apply (filter_singleton_unique _ _ _ _ Hsel); [|exact E].
    eapply list_elem_of_lookup_2. exact Hi.
  - right. auto.
Qed.

Lemma same_definition_refl (s : Schedule) : same_definition s s.
Proof. unfold same_definition. auto 15. Qed.

(** X8: whatever a firing does, an exception in the session included,
    [_running_jobs] is afterwards what it was before: the id of the
    schedule is given back; and a firing that finds the id of its
    schedule in [_running_jobs] changes nothing at all. *)
Theorem _execute_schedule_token (sid : string) (st : State) :
  running_jobs
    (_execute_schedule world py_int croniter_get_next settings sid st)
  = running_jobs st /\
  (sid ∈ running_jobs st ->
   _execute_schedule world py_int croniter_get_next settings sid st = st).
Proof.
  split.
  - apply (_execute_schedule_cases sid st).
  - intros Hin. unfold _execute_schedule.
    rewrite decide_True by exact Hin. reflexivity.
Qed.

Lemma token_back (sid : string) (R : gset string) :
  sid ∉ R -> ({[sid]} ∪ R) ∖ {[sid]} = R.
Proof.
  intros Hout. apply set_eq. intros x.
  rewrite elem_of_difference, elem_of_union, elem_of_singleton.
  split; [tauto|]. intros Hx. split; [tauto|]. intros ->. contradiction.
Qed.

Lemma rollback_same (st : State) : rollback st st = st.
Proof. destruct st; reflexivity. Qed.

Lemma set_running_jobs_back (sid : string) (st : State) :
  sid ∉ running_jobs st ->
  set_running_jobs
    (running_jobs (set_running_jobs ({[sid]} ∪ running_jobs st) st)
     ∖ {[sid]})
    (set_running_jobs ({[sid]} ∪ running_jobs st) st)
  = st.
Proof.
  intros Hout. destruct st as [t s u sl d j r]. unfold set_running_jobs.
  simpl in *. f_equal. apply set_eq. intros x.
  rewrite elem_of_difference, elem_of_union, elem_of_singleton.
  split; [tauto|]. intros Hx. split; [tauto|]. intros ->. contradiction.
Qed.

Lemma _execute_schedule_skips (sid : string) (st : State) (s : Schedule) :
  filter (fun s => schedule_id s = sid) (schedules (db st)) = [s] ->
  schedule_status s <> ACTIVE ->
  _execute_schedule world py_int croniter_get_next settings sid st = st.
Proof.
  intros Hsel Hna. unfold _execute_schedule.
  destruct (decide (sid ∈ running_jobs st)) as [Hin|Hout]; [reflexivity|].
  unfold fire.
  change (db (set_running_jobs ({[sid]} ∪ running_jobs st) st))
    with (db st).
  rewrite Hsel. rewrite decide_True by exact Hna.
  apply set_running_jobs_back. exact Hout.
Qed.

(** X9: firing a schedule id that has no [ACTIVE] row (the schedule
    is unknown, paused, expired or deleted) leaves the whole state of the
    process as it was: no clock reading, no request, no row written, no
    job touched. *)
Theorem _execute_schedule_not_active (sid : string) (st : State) :
  (forall s, s ∈ schedules (db st) -> schedule_id s = sid ->
     schedule_status s <> ACTIVE) ->
  _execute_schedule world py_int croniter_get_next settings sid st = st.
Proof.
  intros Hna. unfold _execute_schedule.
  destruct (decide (sid ∈ running_jobs st)) as [Hin|Hout]; [reflexivity|].
  unfold fire.
  change (db (set_running_jobs ({[sid]} ∪ running_jobs st) st))
    with (db st).
  destruct (filter (fun s => schedule_id s = sid) (schedules (db st)))
    as [|schedule [|s2 l]] eqn:Hsel.
  - apply set_running_jobs_back. exact Hout.
  - assert (Hin : schedule ∈ filter (fun s => schedule_id s = sid)
                               (schedules (db st)))
      by (rewrite Hsel; left).
    apply list_elem_of_filter in Hin as [Hid Hin].
    rewrite decide_True by (apply Hna; assumption).
    apply set_running_jobs_back. exact Hout.
  - rewrite rollback_same. apply set_running_jobs_back. exact Hout.
Qed.

Lemma fire_expires (sid : string) (st : State) (s : Schedule) :
  filter (fun s => schedule_id s = sid) (schedules (db st)) = [s] ->
  schedule_status s = ACTIVE ->
  (exists e, expires_at s = Some e /\
             e <= clock world (ticks st) + IST_OFFSET)
  \/ max_runs_reached s = true ->
  exists Y,
    fire world py_int croniter_get_next settings sid st
    = (expire s Y, Ok tt) /\
    db Y = db st /\ jobs Y = jobs st /\ sent Y = sent st /\
    running_jobs Y = running_jobs st.
Proof.
  intros Hsel Hact Hwhy. unfold fire. rewrite Hsel.
  rewrite decide_False by (intros Hx; contradiction).
  destruct (expires_at s) as [e|] eqn:He.
  - unfold now_ist at 1. cbv beta iota zeta.
    destruct (e <=? clock world (ticks st) + IST_OFFSET) eqn:Hle.
    + exists (tick st). repeat split.
    + destruct Hwhy as [(e' & He' & Hle')|Hm].
      * inversion He'; subst e'. apply Z.leb_gt in Hle. lia.
      * rewrite Hm. exists (tick st). repeat split.
  - destruct Hwhy as [(e' & He' & _)|Hm]; [discriminate|].
    rewrite Hm. exists st. repeat split.
Qed.

(** X10: firing an [ACTIVE] schedule whose window is over at the
    clock reading the handler takes, or that has reached [max_runs],
    sets its row to [EXPIRED] and removes its job; no run is inserted,
    no attempt stored and no request sent. *)
Theorem _execute_schedule_expires_on_entry
    (sid : string) (st : State) (s : Schedule) :
  sid ∉ running_jobs st ->
  filter (fun s => schedule_id s = sid) (schedules (db st)) = [s] ->
  schedule_status s = ACTIVE ->
  (exists e, expires_at s = Some e /\
             e <= clock world (ticks st) + IST_OFFSET)
  \/ max_runs_reached s = true ->
  let st' :=
    _execute_schedule world py_int croniter_get_next settings sid st in
  schedules (db st')
  = replaced (set_schedule_status EXPIRED s) (schedules (db st)) /\
  runs (db st') = runs (db st) /\ attempts (db st') = attempts (db st) /\
  jobs st' = delete (job_id_of sid) (jobs st) /\
  jobs st' !! job_id_of sid = None /\
  sent st' = sent st /\ running_jobs st' = running_jobs st.
Proof.
  intros Hout Hsel Hact Hwhy st'. subst st'.
  assert (Hsid : schedule_id s = sid)
    by (apply (filter_singleton_holds _ _ _ Hsel)).
  destruct (fire_expires sid
              (set_running_jobs ({[sid]} ∪ running_jobs st) st) s
              Hsel Hact Hwhy) as (Y & Hfire & Hdb & Hj & Hs & Hr).
  unfold _execute_schedule. rewrite decide_False by exact Hout.
  rewrite Hfire.
  unfold expire, update_schedule, _remove_job_for_schedule, replaced.
  simpl in *.
  rewrite Hdb, Hj, Hs, Hr, Hsid, lookup_delete_eq.
  repeat split. apply token_back. exact Hout.
Qed.

(** X11: a firing keeps the table of schedules in place, row by row.
    No row changes its definition (id, name, target, cadence, duration,
    [max_runs], [started_at], [expires_at]); a row of another schedule,
    or one that is not [ACTIVE], is not changed at all; [run_count]
    stays or grows by one; and the status stays, or goes from [ACTIVE]
    to [EXPIRED], which happens only when the window was over at the
    clock reading taken on entry or [max_runs] is reached, and then the
    job of the schedule is gone. *)
Theorem _execute_schedule_rows (sid : string) (st : State) :
  let st' :=
    _execute_schedule world py_int croniter_get_next settings sid st in
  length (schedules (db st')) = length (schedules (db st)) /\
  forall i s, schedules (db st) !! i = Some s ->
    exists s', schedules (db st') !! i = Some s' /\
      same_definition s s' /\
      (schedule_id s <> sid \/ schedule_status s <> ACTIVE -> s' = s) /\
      (run_count s' = run_count s \/ run_count s' = run_count s + 1) /\
      (schedule_status s' = schedule_status s \/
       schedule_status s = ACTIVE /\ schedule_status s' = EXPIRED /\
       jobs st' !! job_id_of sid = None /\
       ((exists e, expires_at s = Some e /\
                   e <= clock world (ticks st) + IST_OFFSET)
        \/ max_runs_reached s' = true)).
Proof.
  intros st'.
  assert (Hsame : forall rows, schedules (db st') = rows ->
            rows = schedules (db st) ->
            length (schedules (db st')) = length (schedules (db st)) /\
            forall i s, schedules (db st) !! i = Some s ->
              exists s', schedules (db st') !! i = Some s' /\
                same_definition s s' /\
                (schedule_id s <> sid \/ schedule_status s <> ACTIVE ->
                 s' = s) /\
                (run_count s' = run_count s \/
                 run_count s' = run_count s + 1) /\
                (schedule_status s' = schedule_status s \/
                 schedule_status s = ACTIVE /\ schedule_status s' = EXPIRED /\
                 jobs st' !! job_id_of sid = None /\
                 ((exists e, expires_at s = Some e /\
                             e <= clock world (ticks st) + IST_OFFSET)
                  \/ max_runs_reached s' = true))).
  { intros rows H1 H2. rewrite H1, H2. split; [reflexivity|].
    intros i s Hi. exists s. split; [exact Hi|].
    split; [apply same_definition_refl|]. auto. }
  assert (Hone : forall s0 s1,
            filter (fun s => schedule_id s = sid) (schedules (db st)) = [s0] ->
            schedules (db st') = replaced s1 (schedules (db st)) ->
            same_definition s0 s1 ->
            schedule_status s0 = ACTIVE ->
            (run_count s1 = run_count s0 \/
             run_count s1 = run_count s0 + 1) ->
            (schedule_status s1 = ACTIVE \/
             schedule_status s1 = EXPIRED /\
             jobs st' !! job_id_of sid = None /\
             ((exists e, expires_at s0 = Some e /\
                         e <= clock world (ticks st) + IST_OFFSET)
              \/ max_runs_reached s1 = true)) ->
            length (schedules (db st')) = length (schedules (db st)) /\
            forall i s, schedules (db st) !! i = Some s ->
              exists s', schedules (db st') !! i = Some s' /\
                same_definition s s' /\
                (schedule_id s <> sid \/ schedule_status s <> ACTIVE ->
                 s' = s) /\
                (run_count s' = run_count s \/
                 run_count s' = run_count s + 1) /\
                (schedule_status s' = schedule_status s \/
                 schedule_status s = ACTIVE /\ schedule_status s' = EXPIRED /\
                 jobs st' !! job_id_of sid = None /\
                 ((exists e, expires_at s = Some e /\
                             e <= clock world (ticks st) + IST_OFFSET)
                  \/ max_runs_reached s' = true))).
  { intros s0 s1 Hsel Hrows Hdef Hact Hcount Hstatus.
    assert (Hsid : schedule_id s0 = sid)
      by (apply (filter_singleton_holds _ _ _ Hsel)).
    assert (Hid1 : schedule_id s1 = sid).
    { destruct Hdef as (Hd & _). congruence. }
    rewrite Hrows. split; [unfold replaced; apply length_map|].
    intros i s Hi.
    destruct (replaced_lookup _ _ _ _ _ _ Hsel Hid1 Hi)
      as [[-> Hl]|[Hne Hl]].
    - exists s1. split; [exact Hl|]. split; [exact Hdef|].
      split; [intros [Hx|Hx]; contradiction|]. split; [exact Hcount|].
      destruct Hstatus as [Hs|(Hs & Hj & Hw)].
      + left. congruence.
      + right. auto.
    - exists s. split; [exact Hl|].
      split; [apply same_definition_refl|]. auto. }
  pose proof (_execute_schedule_cases sid st) as Hc.
  cbv zeta in Hc. fold st' in Hc.
  destruct Hc as (_ & _ & [Hn|[He|Hr]]).
  - destruct Hn as (Hdb & _). apply (Hsame (schedules (db st'))).
    + reflexivity.
    + rewrite Hdb. reflexivity.
  - destruct He as (s0 & Hsel & Hact & Hwhy & Hdb & Hj & _).
    apply (Hone s0 (set_schedule_status EXPIRED s0) Hsel).
    + rewrite Hdb. reflexivity.
    + unfold same_definition. simpl. auto 15.
    + exact Hact.
    + left; reflexivity.
    + right. split; [reflexivity|].
      split; [rewrite Hj; apply lookup_delete_eq|].
      destruct Hwhy as [Hw|Hm]; [left; exact Hw | right; exact Hm].
  - destruct Hr as (s0 & k & r & new & reqs & l & n & Hsel & Hact & Hmax
                    & Hopen & Hk & Hfired & Hfresh & Hruns & Hatt & Hsent
                    & Hlen & Hle & Hall & Hl & Hsch & Hj).
    destruct (max_runs_reached (counted s0 l n)) eqn:Hm.
    + apply (Hone s0 (set_schedule_status EXPIRED (counted s0 l n)) Hsel).
      * exact Hsch.
      * unfold same_definition. simpl. auto 15.
      * exact Hact.
      * right; reflexivity.
      * right. split; [reflexivity|].
        split; [rewrite Hj; apply lookup_delete_eq|].
        right. exact Hm.
    + apply (Hone s0 (counted s0 l n) Hsel).
      * exact Hsch.
      * unfold same_definition. simpl. auto 15.
      * exact Hact.
      * right; reflexivity.
      * left. simpl. exact Hact.
Qed.

(** X12: a firing never registers or replaces a job.  The jobs of
    other schedules are untouched; the job of the fired schedule is as it
    was, or it is removed, and then every row of the schedule is
    [EXPIRED]. *)
Theorem _execute_schedule_jobs (sid : string) (st : State) :
  let st' :=
    _execute_schedule world py_int croniter_get_next settings sid st in
  (forall j, j <> job_id_of sid -> jobs st' !! j = jobs st !! j) /\
  (jobs st' !! job_id_of sid = jobs st !! job_id_of sid \/
   jobs st' !! job_id_of sid = None /\
   forall s', s' ∈ schedules (db st') -> schedule_id s' = sid ->
     schedule_status s' = EXPIRED).
Proof.
  intros st'.
  assert (Hgone : forall s0 s1,
            filter (fun s => schedule_id s = sid) (schedules (db st)) = [s0] ->
            schedules (db st') = replaced s1 (schedules (db st)) ->
            schedule_id s1 = sid -> schedule_status s1 = EXPIRED ->
            forall s', s' ∈ schedules (db st') -> schedule_id s' = sid ->
              schedule_status s' = EXPIRED).
  { intros s0 s1 Hsel Hrows Hid Hst s' Hin Hs'.
    rewrite Hrows in Hin. unfold replaced in Hin.
    apply list_elem_of_In, in_map_iff in Hin as (s & Hs & Hin).
    rewrite Hid in Hs.
    destruct (decide (schedule_id s = sid)); subst s'; [exact Hst|].
    contradiction. }
  pose proof (_execute_schedule_cases sid st) as Hc.
  cbv zeta in Hc. fold st' in Hc.
  destruct Hc as (_ & _ & [Hn|[He|Hr]]).
  - destruct Hn as (_ & Hj & _). rewrite Hj. auto.
  - destruct He as (s0 & Hsel & Hact & Hwhy & Hdb & Hj & _).
    assert (Hsid : schedule_id s0 = sid)
      by (apply (filter_singleton_holds _ _ _ Hsel)).
    rewrite Hj. split.
    + intros j Hne. apply lookup_delete_ne. congruence.
    + right. split; [apply lookup_delete_eq|].
      apply (Hgone s0 (set_schedule_status EXPIRED s0) Hsel).
      * rewrite Hdb. reflexivity.
      * exact Hsid.
      * reflexivity.
  - destruct Hr as (s0 & k & r & new & reqs & l & n & Hsel & Hact & Hmax
                    & Hopen & Hk & Hfired & Hfresh & Hruns & Hatt & Hsent
                    & Hlen & Hle & Hall & Hl & Hsch & Hj).
    assert (Hsid : schedule_id s0 = sid)
      by (apply (filter_singleton_holds _ _ _ Hsel)).
    rewrite Hj. destruct (max_runs_reached (counted s0 l n)) eqn:Hm.
    + split.
      * intros j Hne. apply lookup_delete_ne. congruence.
      * right. split; [apply lookup_delete_eq|].
        apply (Hgone s0 (set_schedule_status EXPIRED (counted s0 l n))
                 Hsel Hsch Hsid eq_refl).
    + auto.
Qed.

Lemma fired_run_finished (s : Schedule) (k : nat) (st st' : State)
    (r : Run) (new : list Attempt) :
  fired_run world s k st st' r new -> finished r.
Proof.
  intros (_ & _ & _ & _ & Hterm & Hstart & (kc & _ & Hcomp) & _).
  unfold finished. rewrite Hstart, Hcomp. eauto.
Qed.

(** X13: the run, its attempts and the counter of the schedule move
    together.  Either a firing leaves the tables of runs and attempts,
    and [run_count] and [last_run_at] of every schedule, as they were; or
    it appends one run of the fired schedule, with a new id, in a
    terminal status with [started_at] and [completed_at] set, together
    with the attempts of that run, numbered from 1 to its
    [attempt_count], one request sent for each, and adds one to
    [run_count] of the schedule, whose [last_run_at] is a clock reading
    in IST and whose [next_run_at] is set. *)
Theorem _execute_schedule_run (sid : string) (st : State) :
  let st' :=
    _execute_schedule world py_int croniter_get_next settings sid st in
  (runs (db st') = runs (db st) /\ attempts (db st') = attempts (db st) /\
   forall i s s', schedules (db st) !! i = Some s ->
     schedules (db st') !! i = Some s' ->
     run_count s' = run_count s /\ last_run_at s' = last_run_at s)
  \/
  (exists r new,
     runs (db st') = runs (db st) ++ [r] /\
     attempts (db st') = attempts (db st) ++ new /\
     run_schedule_id r = sid /\ finished r /\
     (forall r0, r0 ∈ runs (db st) -> run_id r0 <> run_id r) /\
     attempt_count r = Z.of_nat (length new) /\
     map attempt_number new = seqZ 1 (Z.of_nat (length new)) /\
     Forall (fun a => attempt_run_id a = run_id r) new /\
     length (sent st') = (length (sent st) + length new)%nat /\
     forall i s s', schedules (db st) !! i = Some s ->
       schedules (db st') !! i = Some s' -> schedule_id s = sid ->
       run_count s' = run_count s + 1 /\
       (exists kl, last_run_at s' = Some (clock world kl + IST_OFFSET)) /\
       is_Some (next_run_at s')).
Proof.
  intros st'.
  pose proof (_execute_schedule_cases sid st) as Hc.
  cbv zeta in Hc. fold st' in Hc.
  destruct Hc as (_ & _ & [Hn|[He|Hr]]).
  - left. destruct Hn as (Hdb & _). rewrite Hdb.
    split; [reflexivity|]. split; [reflexivity|].
    intros i s s' Hi Hi'. rewrite Hi in Hi'. inversion Hi'. auto.
  - left. destruct He as (s0 & Hsel & Hact & Hwhy & Hdb & Hj & _).
    assert (Hsid : schedule_id s0 = sid)
      by (apply (filter_singleton_holds _ _ _ Hsel)).
    rewrite Hdb. split; [reflexivity|]. split; [reflexivity|].
    intros i s s' Hi Hi'. simpl in Hi'.
    destruct (replaced_lookup _ _ _ (set_schedule_status EXPIRED s0) _ _
                Hsel Hsid Hi) as [[-> Hl]|[Hne Hl]];
      rewrite Hl in Hi'; inversion Hi'; subst s'; auto.
  - right.
    destruct Hr as (s0 & k & r & new & reqs & l & n & Hsel & Hact & Hmax
                    & Hopen & Hk & Hfired & Hfresh & Hruns & Hatt & Hsent
                    & Hlen & Hle & Hall & (kl & Hkl & Hl) & Hsch & Hj).
    assert (Hsid : schedule_id s0 = sid)
      by (apply (filter_singleton_holds _ _ _ Hsel)).
    pose proof (fired_run_finished _ _ _ _ _ _ Hfired) as Hfin.
    destruct Hfired as (_ & Hrs & _ & _ & _ & _ & _ & Hcount & Hnum & Hown).
    exists r, new. split; [exact Hruns|]. split; [exact Hatt|].
    split; [congruence|]. split; [exact Hfin|].
    split; [intros r0 Hr0; apply (Hfresh r0 Hr0)|].
    split; [exact Hcount|]. split; [exact Hnum|]. split; [exact Hown|].
    split; [rewrite Hsent, length_app, Hlen; reflexivity|].
    intros i s s' Hi Hi' Hs. rewrite Hsch in Hi'.
    assert (Hrow : forall s1, schedule_id s1 = sid ->
              replaced s1 (schedules (db st)) !! i = Some s' -> s' = s1).
    { intros s1 Hid1 Hrep.
      destruct (replaced_lookup _ _ _ s1 _ _ Hsel Hid1 Hi)
        as [[_ Hl1]|[Hne _]]; [congruence | contradiction]. }
    assert (s = s0).
    { apply (filter_singleton_unique _ _ _ _ Hsel); [|exact Hs].
      eapply list_elem_of_lookup_2. exact Hi. }
    subst s.
    destruct (max_runs_reached (counted s0 l n)).
    + rewrite (Hrow (set_schedule_status EXPIRED (counted s0 l n)) Hsid Hi').
      simpl. split; [reflexivity|].
      split; [exists kl; rewrite Hl; reflexivity | eauto].
    + rewrite (Hrow (counted s0 l n) Hsid Hi').
      simpl. split; [reflexivity|].
      split; [exists kl; rewrite Hl; reflexivity | eauto].
Qed.

Lemma app_singleton_not_self {A} (l : list A) (x : A) : l <> l ++ [x].
Proof.
  intros H. apply (f_equal length) in H. rewrite length_app in H.
  simpl in H. lia.
Qed.

(** X14: the run a firing appends has [scheduled_at] equal to a clock
    reading shifted to IST (UTC+05:30), [started_at] equal to the next
    clock reading, unshifted, and [completed_at] equal to a later
    reading, unshifted; so with a clock that does not go back
    [started_at] is not after [completed_at], and [scheduled_at] is at
    most [started_at] plus the five and a half hours of the shift. *)
Theorem _execute_schedule_run_times (sid : string) (st : State) (r : Run) :
  (forall i j, (i <= j)%nat -> clock world i <= clock world j) ->
  runs (db (_execute_schedule world py_int croniter_get_next settings
              sid st))
  = runs (db st) ++ [r] ->
  exists k kc,
    (ticks st <= k)%nat /\ (S k < kc)%nat /\
    scheduled_at r = clock world k + IST_OFFSET /\
    run_started_at r = Some (clock world (S k)) /\
    run_completed_at r = Some (clock world kc) /\
    clock world (S k) <= clock world kc /\
    scheduled_at r <= clock world (S k) + IST_OFFSET.
Proof.
  intros Hmono Happ.
  pose proof (_execute_schedule_cases sid st) as Hc. cbv zeta in Hc.
  destruct Hc as (_ & _ & [Hn|[He|Hr]]).
  - destruct Hn as (Hdb & _). rewrite Hdb in Happ.
    destruct (app_singleton_not_self _ _ Happ).
  - destruct He as (s0 & _ & _ & _ & Hdb & _). rewrite Hdb in Happ.
    destruct (app_singleton_not_self _ _ Happ).
  - destruct Hr as (s0 & k & r' & new & reqs & l & n & Hsel & Hact & Hmax
                    & Hopen & Hk & Hfired & Hfresh & Hruns & _).
    rewrite Hruns in Happ. apply app_inv_head in Happ.
    inversion Happ; subst r'.
    destruct Hfired as (_ & _ & Hsched & _ & _ & Hstart & (kc & Hkc & Hcomp)
                        & _).
    exists k, kc. split; [lia|]. split; [lia|].
    split; [exact Hsched|]. split; [exact Hstart|]. split; [exact Hcomp|].
    split; [apply Hmono; lia|].
    rewrite Hsched. pose proof (Hmono k (S k)). lia.
Qed.

(** X15: a firing sends at most [max_retries] requests (the
    configured number, 3 by default), whether it ends normally or with an
    exception, and every request it sends is the one built for the
    target of the fired schedule. *)
Theorem _execute_schedule_requests (sid : string) (st : State) :
  let st' :=
    _execute_schedule world py_int croniter_get_next settings sid st in
  exists reqs,
    sent st' = sent st ++ reqs /\
    (length reqs <= Z.to_nat (settings_max_retries settings))%nat /\
    forall s, s ∈ schedules (db st) -> schedule_id s = sid ->
      Forall (request_for (target s)) reqs.
Proof.
  intros st'.
  pose proof (_execute_schedule_cases sid st) as Hc.
  cbv zeta in Hc. fold st' in Hc.
  change (max_retries (executor settings))
    with (settings_max_retries settings) in Hc.
  destruct Hc as (_ & _ & [Hn|[He|Hr]]).
  - destruct Hn as (_ & _ & reqs & Hsent & Hle & Hreq). exists reqs.
    split; [exact Hsent|]. split; [exact Hle|].
    intros s Hin Hs. destruct Hreq as [->|(s0 & Hsel & Hall)];
      [constructor|].
    rewrite (filter_singleton_unique _ _ _ _ Hsel Hin Hs). exact Hall.
  - destruct He as (s0 & _ & _ & _ & _ & _ & Hsent). exists [].
    rewrite app_nil_r. split; [exact Hsent|]. split; [simpl; lia|].
    intros; constructor.
  - destruct Hr as (s0 & k & r & new & reqs & l & n & Hsel & Hact & Hmax
                    & Hopen & Hk & Hfired & Hfresh & Hruns & Hatt & Hsent
                    & Hlen & Hle & Hall & _).
    exists reqs. split; [exact Hsent|]. split; [rewrite Hlen; exact Hle|].
    intros s Hin Hs.
    rewrite (filter_singleton_unique _ _ _ _ Hsel Hin Hs). exact Hall.
Qed.

(** X16: one firing, taken whole, keeps the runs finished: if every run
    of the table is in a terminal status (SUCCESS, FAILED or TIMEOUT)
    with [started_at] and [completed_at] set when [_execute_schedule]
    starts, so is every run when it returns, the run it appended
    included; a firing that raises rolls its session back and leaves no
    PENDING or RUNNING row of its own. *)
Theorem _execute_schedule_keeps_runs_finished (sid : string) (st : State) :
  Forall finished (runs (db st)) ->
  Forall finished
    (runs (db (_execute_schedule world py_int croniter_get_next settings
                 sid st))).
Proof.
  intros Hall.
  pose proof (_execute_schedule_cases sid st) as Hc. cbv zeta in Hc.
  destruct Hc as (_ & _ & [Hn|[He|Hr]]).
  - destruct Hn as (-> & _). exact Hall.
  - destruct He as (s0 & _ & _ & _ & -> & _). exact Hall.
  - destruct Hr as (s0 & k & r & new & reqs & l & n & _ & _ & _ & _ & _
                    & Hfired & _ & -> & _).
    apply Forall_app. split; [exact Hall|]. apply Forall_singleton.
    exact (fired_run_finished _ _ _ _ _ _ Hfired).
Qed.

Lemma filter_none {A} (P : A -> Prop) `{!forall x, Decision (P x)}
    (l : list A) :
  (forall x, x ∈ l -> ~ P x) -> filter P l = [].
Proof.
  induction l as [|x l IH]; intros Hn; [reflexivity|].
  rewrite filter_cons_False by (apply Hn; left).
  apply IH. intros y Hy. apply Hn. right. exact Hy.
Qed.

Lemma filter_all {A} (P : A -> Prop) `{!forall x, Decision (P x)}
    (l : list A) :
  Forall P l -> filter P l = l.
Proof.
  induction 1 as [|x l Hx _ IH]; [reflexivity|].
  rewrite filter_cons_True by exact Hx. rewrite IH. reflexivity.
Qed.

(** X17: a firing keeps the tables of runs and attempts consistent:
    if every attempt belongs to a run of the table and the attempts of
    each run are numbered 1, 2, ..., [attempt_count] in the order they
    were stored, the same holds after the firing. *)
Theorem _execute_schedule_attempts_numbered (sid : string) (st : State) :
  attempts_owned (db st) -> attempts_numbered (db st) ->
  attempts_owned
    (db (_execute_schedule world py_int croniter_get_next settings sid st))
  /\
  attempts_numbered
    (db (_execute_schedule world py_int croniter_get_next settings sid st)).
Proof.
  intros Hown Hnum.
  pose proof (_execute_schedule_cases sid st) as Hc. cbv zeta in Hc.
  destruct Hc as (_ & _ & [Hn|[He|Hr]]).
  - destruct Hn as (-> & _). auto.
  - destruct He as (s0 & _ & _ & _ & -> & _). auto.
  - destruct Hr as (s0 & k & r & new & reqs & l & n & _ & _ & _ & _ & _
                    & Hfired & Hfresh & Hruns & Hatt & _).
    destruct Hfired as (_ & _ & _ & _ & _ & _ & _ & Hcount & Hnumd & Hmine).
    unfold attempts_owned, attempts_numbered in *.
    rewrite Hruns, Hatt. split.
    + intros a Ha. apply elem_of_app in Ha as [Ha|Ha].
      * destruct (Hown a Ha) as (r0 & Hr0 & Hid). exists r0.
        split; [apply elem_of_app; left; exact Hr0 | exact Hid].
      * exists r. split; [apply elem_of_app; right; left|].
        rewrite Forall_forall in Hmine. symmetry. apply Hmine. exact Ha.
    + intros r1 Hr1. rewrite filter_app, map_app.
      apply elem_of_app in Hr1 as [Hr1|Hr1].
      * rewrite (filter_none _ new).
        -- simpl. rewrite app_nil_r. apply Hnum. exact Hr1.
        -- intros a Ha Hid. rewrite Forall_forall in Hmine.
           rewrite (Hmine a Ha) in Hid.
           destruct (Hfresh r1 Hr1) as [Hne _]. congruence.
      * apply list_elem_of_singleton in Hr1. subst r1.
        rewrite (filter_none _ (attempts (db st))).
        -- rewrite (filter_all _ new) by exact Hmine.
           simpl. rewrite Hnumd, Hcount. reflexivity.
        -- intros a Ha Hid. destruct (Hown a Ha) as (r0 & Hr0 & Hid0).
           destruct (Hfresh r0 Hr0) as [Hne _]. congruence.
Qed.

End FiringFacts.

(* ===================================================================== *)
(** * Pausing and resuming over the API                                   *)
(* ===================================================================== *)

Lemma filter_replaced (sid : string) (s1 : Schedule) (rows : list Schedule) :
  schedule_id s1 = sid ->
  filter (fun s => schedule_id s = sid) (replaced s1 rows)
  = map (fun _ => s1) (filter (fun s => schedule_id s = sid) rows).
Proof.
  intros Hid. unfold replaced. induction rows as [|r rows IH];
    [reflexivity|].
  simpl map at 1. rewrite Hid.
  destruct (decide (schedule_id r = sid)) as [E|E].
  - rewrite (filter_cons_True _ s1) by exact Hid.
    rewrite (filter_cons_True _ r) by exact E.
    simpl. rewrite <- IH, Hid. reflexivity.
  - rewrite (filter_cons_False _ r) by exact E.
    rewrite (filter_cons_False _ r) by exact E.
    rewrite <- IH, Hid. reflexivity.
Qed.

Lemma replaced_replaced (s1 s2 : Schedule) (rows : list Schedule) :
  schedule_id s2 = schedule_id s1 ->
  replaced s2 (replaced s1 rows) = replaced s2 rows.
Proof.
  intros Hid. unfold replaced. rewrite map_map. apply map_ext. intros r.
  destruct (decide (schedule_id r = schedule_id s1)) as [E|E].
  - rewrite decide_True by congruence.
    rewrite decide_True by congruence. reflexivity.
  - reflexivity.
Qed.

Section ApiFacts.

Variable world : World.
Variable py_int : string -> option Z.
Variable croniter_get_next : option string -> datetime -> result datetime.
Variable settings : Settings.

(** X18: pausing over the API.  An unknown id is answered 404 and a
    schedule that is not [ACTIVE] 400, the state of the process being
    left as it was.  An [ACTIVE] schedule is returned [PAUSED] with
    [next_run_at] cleared and everything else as it was; its row is
    rewritten, the runs are untouched and its job is removed; and from
    then on a firing of that schedule changes nothing. *)
Theorem pause_route (sid : string) (st : State) :
  let out := Routes.pause_schedule sid st in
  (filter (fun s => schedule_id s = sid) (schedules (db st)) = [] ->
   out = (st, HTTPException 404)) /\
  (forall s,
     filter (fun s => schedule_id s = sid) (schedules (db st)) = [s] ->
     schedule_status s <> ACTIVE -> out = (st, HTTPException 400)) /\
  (forall s,
     filter (fun s => schedule_id s = sid) (schedules (db st)) = [s] ->
     schedule_status s = ACTIVE ->
     exists s',
       snd out = Returned s' /\
       schedule_status s' = PAUSED /\ next_run_at s' = None /\
       same_definition s s' /\ run_count s' = run_count s /\
       last_run_at s' = last_run_at s /\
       schedules (db (fst out)) = replaced s' (schedules (db st)) /\
       runs (db (fst out)) = runs (db st) /\
       jobs (fst out) = delete (job_id_of sid) (jobs st) /\
       _execute_schedule world py_int croniter_get_next settings sid
         (fst out)
       = fst out).
Proof.
  unfold Routes.pause_schedule, get_db. cbv zeta.
  split; [|split].
  - intros ->. rewrite rollback_same. reflexivity.
  - intros s -> Hna. rewrite decide_True by exact Hna.
    rewrite rollback_same. reflexivity.
  - intros s Hsel Hact.
    assert (Hsid : schedule_id s = sid)
      by (apply (filter_singleton_holds _ _ _ Hsel)).
    rewrite Hsel.
    rewrite decide_False by (intros Hx; contradiction).
    unfold pause_schedule, _remove_job_for_schedule. simpl.
    eexists. split; [reflexivity|]. simpl.
    split; [reflexivity|]. split; [reflexivity|].
    split; [unfold same_definition; simpl; auto 15|].
    split; [reflexivity|]. split; [reflexivity|].
    split; [reflexivity|]. split; [reflexivity|].
    split; [rewrite Hsid; reflexivity|].
    apply (_execute_schedule_skips world py_int croniter_get_next settings
             sid _ (set_next_run_at None (set_schedule_status PAUSED s)));
      [|discriminate].
    change (filter (fun s => schedule_id s = sid)
              (replaced (set_next_run_at None (set_schedule_status PAUSED s))
                 (schedules (db st)))
            = [set_next_run_at None (set_schedule_status PAUSED s)]).
    rewrite (filter_replaced sid) by exact Hsid.
    rewrite Hsel. reflexivity.
Qed.

Lemma resume_schedule_interval
    (schedule : Schedule) (st : State) (n : Z) :
  expires_at schedule = None ->
  max_runs_reached schedule = false ->
  schedule_type schedule = INTERVAL ->
  interval_seconds schedule = Some n ->
  resume_schedule world croniter_get_next schedule st
  = (set_jobs
       (<[job_id_of (schedule_id schedule) := IntervalTrigger n]>
          (delete (job_id_of (schedule_id schedule)) (jobs st)))
       (tick st),
     Ok (set_next_run_at
           (Some (clock world (ticks st) + IST_OFFSET + timedelta_seconds n))
           (set_schedule_status ACTIVE schedule))).
Proof.
  intros He Hm Ht Hn. unfold resume_schedule, _calculate_next_run,
    _add_job_for_schedule. rewrite He. simpl. rewrite Hm. simpl.
  rewrite ?Ht, ?Hn. simpl. rewrite ?Ht, ?Hn. reflexivity.
Qed.

(** X19: resuming over the API.  An unknown id is answered 404 and a
    schedule that is not [PAUSED] 400, nothing being changed.  A paused
    schedule with [expires_at] set cannot be resumed: the call ends in an
    unhandled [AttributeError] and the state is as before, the schedule
    still [PAUSED].  Without a window, a paused schedule that has reached
    [max_runs] is returned [EXPIRED] and no job is registered; otherwise
    an interval schedule is returned [ACTIVE], with [next_run_at] one
    interval after the clock reading, its definition and counters as they
    were, and its interval trigger is registered, the other jobs being
    untouched. *)
Theorem resume_route (sid : string) (st : State) :
  let out := Routes.resume_schedule world croniter_get_next sid st in
  (filter (fun s => schedule_id s = sid) (schedules (db st)) = [] ->
   out = (st, HTTPException 404)) /\
  (forall s,
     filter (fun s => schedule_id s = sid) (schedules (db st)) = [s] ->
     schedule_status s <> PAUSED -> out = (st, HTTPException 400)) /\
  (forall s e,
     filter (fun s => schedule_id s = sid) (schedules (db st)) = [s] ->
     schedule_status s = PAUSED -> expires_at s = Some e ->
     out = (st, Unhandled AttributeError)) /\
  (forall s,
     filter (fun s => schedule_id s = sid) (schedules (db st)) = [s] ->
     schedule_status s = PAUSED -> expires_at s = None ->
     max_runs_reached s = true ->
     snd out = Returned (set_schedule_status EXPIRED s) /\
     schedules (db (fst out))
     = replaced (set_schedule_status EXPIRED s) (schedules (db st)) /\
     jobs (fst out) = jobs st) /\
  (forall s n,
     filter (fun s => schedule_id s = sid) (schedules (db st)) = [s] ->
     schedule_status s = PAUSED -> expires_at s = None ->
     max_runs_reached s = false ->
     schedule_type s = INTERVAL -> interval_seconds s = Some n ->
     exists s',
       snd out = Returned s' /\ schedule_status s' = ACTIVE /\
       next_run_at s'
       = Some (clock world (ticks st) + IST_OFFSET + timedelta_seconds n) /\
       same_definition s s' /\ run_count s' = run_count s /\
       last_run_at s' = last_run_at s /\
       schedules (db (fst out)) = replaced s' (schedules (db st)) /\
       jobs (fst out) !! job_id_of sid = Some (IntervalTrigger n) /\
       forall j, j <> job_id_of sid -> jobs (fst out) !! j = jobs st !! j).
Proof.
  unfold Routes.resume_schedule, get_db. cbv zeta.
  split; [|split; [|split; [|split]]].
  - intros ->. rewrite rollback_same. reflexivity.
  - intros s -> Hna. rewrite decide_True by exact Hna.
    rewrite rollback_same. reflexivity.
  - intros s e -> Hp He.
    rewrite decide_False by (intros Hx; contradiction).
    rewrite (resume_schedule_window_raises world croniter_get_next s st e He).
    rewrite rollback_same. reflexivity.
  - intros s -> Hp He Hm.
    rewrite decide_False by (intros Hx; contradiction).
    rewrite (resume_schedule_max_runs_reached world croniter_get_next s st
               He Hm).
    simpl. auto.
  - intros s n Hsel Hp He Hm Ht Hn.
    assert (Hsid : schedule_id s = sid)
      by (apply (filter_singleton_holds _ _ _ Hsel)).
    rewrite Hsel.
    rewrite decide_False by (intros Hx; contradiction).
    rewrite (resume_schedule_interval s st n He Hm Ht Hn).
    eexists. split; [reflexivity|]. simpl.
    split; [reflexivity|]. split; [reflexivity|].
    split; [unfold same_definition; simpl; auto 15|].
    split; [reflexivity|]. split; [reflexivity|].
    split; [reflexivity|]. rewrite Hsid. split.
    + apply lookup_insert_eq.
    + intros j Hj. rewrite lookup_insert_ne by congruence.
      apply lookup_delete_ne. congruence.
Qed.

(** X20: pausing an [ACTIVE] interval schedule that has no window
    and has not reached [max_runs], and then resuming it, gives the
    schedule back as it was but for [next_run_at], which is one interval
    after the clock reading taken on resuming: the row, the runs and the
    other jobs are as before the pause and the interval trigger of the
    schedule is registered again. *)
Theorem pause_then_resume
    (sid : string) (st : State) (s : Schedule) (n : Z) :
  filter (fun s => schedule_id s = sid) (schedules (db st)) = [s] ->
  schedule_status s = ACTIVE -> expires_at s = None ->
  max_runs_reached s = false ->
  schedule_type s = INTERVAL -> interval_seconds s = Some n ->
  let paused := fst (Routes.pause_schedule sid st) in
  let out := Routes.resume_schedule world croniter_get_next sid paused in
  let s' :=
    set_next_run_at
      (Some (clock world (ticks st) + IST_OFFSET + timedelta_seconds n)) s in
  snd out = Returned s' /\
  schedules (db (fst out)) = replaced s' (schedules (db st)) /\
  runs (db (fst out)) = runs (db st) /\
  attempts (db (fst out)) = attempts (db st) /\
  jobs (fst out) !! job_id_of sid = Some (IntervalTrigger n) /\
  (forall j, j <> job_id_of sid -> jobs (fst out) !! j = jobs st !! j).
Proof.
  intros Hsel Hact He Hm Ht Hn.
  assert (Hsid : schedule_id s = sid)
    by (apply (filter_singleton_holds _ _ _ Hsel)).
  set (p := set_next_run_at None (set_schedule_status PAUSED s)).
  assert (Hpaused : fst (Routes.pause_schedule sid st)
                    = update_schedule p (_remove_job_for_schedule sid st)).
  { unfold Routes.pause_schedule, get_db. rewrite Hsel.
    rewrite decide_False by (intros Hx; contradiction).
    unfold pause_schedule. rewrite Hsid. reflexivity. }
  cbv zeta. rewrite Hpaused.
  set (st1 := update_schedule p (_remove_job_for_schedule sid st)).
  assert (Hsel1 : filter (fun s => schedule_id s = sid) (schedules (db st1))
                  = [p]).
  { change (schedules (db st1)) with (replaced p (schedules (db st))).
    rewrite (filter_replaced sid) by exact Hsid.
    rewrite Hsel. reflexivity. }
  unfold Routes.resume_schedule, get_db. rewrite Hsel1.
  rewrite decide_False by (intros Hx; apply Hx; reflexivity).
  rewrite (resume_schedule_interval p st1 n He Hm Ht Hn).
  assert (Hrow : set_next_run_at
                   (Some (clock world (ticks st1) + IST_OFFSET
                          + timedelta_seconds n))
                   (set_schedule_status ACTIVE p)
                 = set_next_run_at
                     (Some (clock world (ticks st) + IST_OFFSET
                            + timedelta_seconds n)) s).
  { subst p. destruct s. simpl in *. subst. reflexivity. }
  rewrite Hrow. simpl.
  split; [reflexivity|]. split.
  { change (replaced
              (set_next_run_at
                 (Some (clock world (ticks st) + IST_OFFSET
                        + timedelta_seconds n)) s)
              (replaced p (schedules (db st)))
            = replaced
                (set_next_run_at
                   (Some (clock world (ticks st) + IST_OFFSET
                          + timedelta_seconds n)) s)
                (schedules (db st))).
    apply replaced_replaced. reflexivity. }
  split; [reflexivity|]. split; [reflexivity|]. rewrite Hsid. split.
  - apply lookup_insert_eq.
  - intros j Hj. rewrite lookup_insert_ne by congruence.
    rewrite !lookup_delete_ne by congruence. reflexivity.
Qed.

End ApiFacts.

(* ===================================================================== *)
(** * Adding a schedule, the window sweeper and the recovery at start-up  *)
(* ===================================================================== *)

Section EngineFacts.

Variable world : World.
Variable croniter_get_next : option string -> datetime -> result datetime.

(** X21: when [add_schedule] returns, the schedule has a start
    instant, a next run and a job.  A start instant or an end of window
    that was already set is kept (a later change of [duration_seconds]
    does not move [expires_at]); a missing start instant is the clock
    reading in IST; a missing end of window is the start instant plus
    [duration_seconds] when that is set and not 0, and stays unset
    otherwise.  Status and run count are untouched, and the database is
    not written. *)
Theorem add_schedule_window
    (schedule : Schedule) (st st' : State) (s' : Schedule) :
  add_schedule world croniter_get_next schedule st = (st', Ok s') ->
  (forall t, schedule_started_at schedule = Some t ->
     schedule_started_at s' = Some t) /\
  (schedule_started_at schedule = None ->
   schedule_started_at s' = Some (clock world (ticks st) + IST_OFFSET)) /\
  (forall e, expires_at schedule = Some e -> expires_at s' = Some e) /\
  (expires_at schedule = None ->
   forall d, duration_seconds schedule = Some d -> d <> 0 ->
     exists t, schedule_started_at s' = Some t /\
               expires_at s' = Some (t + timedelta_seconds d)) /\
  (expires_at schedule = None ->
   duration_seconds schedule = None \/ duration_seconds schedule = Some 0 ->
   expires_at s' = None) /\
  is_Some (next_run_at s') /\
  is_Some (jobs st' !! job_id_of (schedule_id schedule)) /\
  schedule_id s' = schedule_id schedule /\
  schedule_status s' = schedule_status schedule /\
  run_count s' = run_count schedule /\
  db st' = db st.
Proof.
  intros H. unfold add_schedule in H.
  match type of H with
  | context [match ?x with (_, _) => _ end] =>
      destruct x as [stA sA] eqn:HA
  end.
  assert (HAf : db stA = db st /\ jobs stA = jobs st /\
                schedule_id sA = schedule_id schedule /\
                schedule_status sA = schedule_status schedule /\
                run_count sA = run_count schedule /\
                duration_seconds sA = duration_seconds schedule /\
                expires_at sA = expires_at schedule /\
                (forall t, schedule_started_at schedule = Some t ->
                   schedule_started_at sA = Some t) /\
                (schedule_started_at schedule = None ->
                 schedule_started_at sA
                 = Some (clock world (ticks st) + IST_OFFSET)) /\
                is_Some (schedule_started_at sA)).
  { destruct (schedule_started_at schedule) as [t|] eqn:Hs;
      inversion HA; subst; simpl; rewrite ?Hs;
      repeat split; auto; intros; try discriminate; eauto. }
  clear HA.
  destruct HAf as (Hdb & Hj & Hid & Hst & Hrc & Hdur & Hexp & Hkeep & Hnew
                   & Hsome).
  match type of H with
  | context [match ?w with Ok _ => _ | Raise _ => _ end] =>
      destruct w as [sB|e0] eqn:HB
  end; [|discriminate].
  assert (HBf : schedule_id sB = schedule_id sA /\
                schedule_status sB = schedule_status sA /\
                run_count sB = run_count sA /\
                schedule_started_at sB = schedule_started_at sA /\
                (forall e, expires_at sA = Some e -> expires_at sB = Some e) /\
                (expires_at sA = None ->
                 forall d, duration_seconds sA = Some d -> d <> 0 ->
                   exists t, schedule_started_at sB = Some t /\
                             expires_at sB = Some (t + timedelta_seconds d)) /\
                (expires_at sA = None ->
                 duration_seconds sA = None \/ duration_seconds sA = Some 0 ->
                 expires_at sB = None)).
  { destruct (duration_seconds sA) as [d|] eqn:Hd;
      destruct (expires_at sA) as [e|] eqn:He;
      try (inversion HB; subst; rewrite ?He;
           repeat split; auto; intros; try discriminate;
           match goal with
           | Hx : _ \/ _ |- _ => destruct Hx; discriminate
           end).
    destruct (d =? 0) eqn:Hz.
    - apply Z.eqb_eq in Hz. inversion HB; subst. rewrite He.
      repeat split; auto; intros; try discriminate; congruence.
    - apply Z.eqb_neq in Hz.
      destruct (schedule_started_at sA) as [t|] eqn:Hs; [|discriminate].
      inversion HB; subst. simpl. rewrite Hs.
      split; [reflexivity|]. split; [reflexivity|]. split; [reflexivity|].
      split; [reflexivity|]. split; [intros e Hx; discriminate|].
      split; [intros _ d0 Hd0 Hnz; inversion Hd0; subst; eauto|].
      intros _ [Hx|Hx]; inversion Hx; subst; contradiction. }
  clear HB.
  destruct HBf as (Hid2 & Hst2 & Hrc2 & Hs2 & Hkeep2 & Hset2 & Hnone2).
  pose proof (_calculate_next_run_fst world croniter_get_next sB stA)
    as Hnext.
  destruct (_calculate_next_run world croniter_get_next sB stA)
    as [stC [next|e1]]; [|discriminate].
  simpl in Hnext. subst stC.
  unfold _add_job_for_schedule in H.
  match type of H with
  | context [match ?w with Ok _ => _ | Raise _ => _ end] =>
      destruct w as [trigger|e2]
  end; [|discriminate].
  inversion H; subst st' s'. clear H. simpl.
  rewrite Hid2, Hst2, Hrc2, Hs2, Hid, Hst, Hrc, Hdb, lookup_insert_eq.
  split; [exact Hkeep|]. split; [exact Hnew|].
  split; [intros e He; apply Hkeep2; congruence|].
  split.
  { intros He d Hd Hz. rewrite <- Hs2. apply Hset2; congruence. }
  split; [intros He Hd; apply Hnone2; congruence|].
  repeat split; eauto.
Qed.

Lemma expire_windows_spec (now : datetime) (rows : list Schedule) :
  forall st,
    let st' := fst (expire_windows now rows st) in
    let rows' := snd (expire_windows now rows st) in
    db st' = db st /\ ticks st' = ticks st /\ sent st' = sent st /\
    running_jobs st' = running_jobs st /\
    rows'
    = map (fun s => if window_expired now s
                    then set_schedule_status EXPIRED s else s) rows /\
    (forall j, jobs st' !! j = jobs st !! j \/
       jobs st' !! j = None /\
       exists s, s ∈ rows /\ window_expired now s = true /\
                 j = job_id_of (schedule_id s)) /\
    (forall s, s ∈ rows -> window_expired now s = true ->
       jobs st' !! job_id_of (schedule_id s) = None).
Proof.
  induction rows as [|s rows IH]; intros st; simpl.
  - repeat split; auto. intros s Hs. inversion Hs.
  - destruct (window_expired now s) eqn:Hw.
    + specialize (IH (_remove_job_for_schedule (schedule_id s) st)).
      destruct (expire_windows now rows
                  (_remove_job_for_schedule (schedule_id s) st))
        as [st1 rows1].
      simpl in *.
      destruct IH as (Hdb & Ht & Hs & Hr & Hrows & Hjobs & Hgone).
      split; [exact Hdb|]. split; [exact Ht|]. split; [exact Hs|].
      split; [exact Hr|]. split; [rewrite Hrows; reflexivity|].
      assert (Hhead : jobs st1 !! job_id_of (schedule_id s) = None).
      { destruct (Hjobs (job_id_of (schedule_id s))) as [Hj|[Hj _]];
          [|exact Hj].
        rewrite Hj. apply lookup_delete_eq. }
      split.
      * intros j.
        destruct (decide (j = job_id_of (schedule_id s))) as [->|Hne].
        -- right. split; [exact Hhead|]. exists s.
           split; [left|]. auto.
        -- destruct (Hjobs j) as [Hj|(Hj & s0 & Hin & Hw0 & Heq)].
           ++ left. rewrite Hj. apply lookup_delete_ne. congruence.
           ++ right. split; [exact Hj|]. exists s0.
              split; [right; exact Hin|]. auto.
      * intros s0 Hin Hw0. apply elem_of_cons in Hin as [->|Hin].
        -- exact Hhead.
        -- apply Hgone; assumption.
    + specialize (IH st).
      destruct (expire_windows now rows st) as [st1 rows1]. simpl in *.
      destruct IH as (Hdb & Ht & Hs & Hr & Hrows & Hjobs & Hgone).
      split; [exact Hdb|]. split; [exact Ht|]. split; [exact Hs|].
      split; [exact Hr|]. split; [rewrite Hrows; reflexivity|].
      split.
      * intros j. destruct (Hjobs j) as [Hj|(Hj & s0 & Hin & Hw0 & Heq)].
        -- left. exact Hj.
        -- right. split; [exact Hj|]. exists s0.
           split; [right; exact Hin|]. auto.
      * intros s0 Hin Hw0. apply elem_of_cons in Hin as [->|Hin].
        -- congruence.
        -- apply Hgone; assumption.
Qed.

(** X22: the window sweeper reads the clock once and keeps the table
    of schedules in place, row by row: an [ACTIVE] schedule whose
    [expires_at] is not after that reading (in IST) becomes [EXPIRED],
    its other columns as they were, and its job is removed; every other
    schedule, one that has reached [max_runs] included, is unchanged.  A
    job is never added, and a job that disappears is the job of a
    schedule the sweep has expired; runs, attempts and requests are
    untouched. *)
Theorem _check_expired_windows_spec (st : State) :
  let st' := _check_expired_windows world st in
  let now := clock world (ticks st) + IST_OFFSET in
  ticks st' = S (ticks st) /\ runs (db st') = runs (db st) /\
  attempts (db st') = attempts (db st) /\ sent st' = sent st /\
  length (schedules (db st')) = length (schedules (db st)) /\
  (forall i s, schedules (db st) !! i = Some s ->
     (forall e, schedule_status s = ACTIVE -> expires_at s = Some e ->
        e <= now ->
        schedules (db st') !! i = Some (set_schedule_status EXPIRED s) /\
        jobs st' !! job_id_of (schedule_id s) = None) /\
     (schedule_status s <> ACTIVE \/ expires_at s = None \/
      (exists e, expires_at s = Some e /\ now < e) ->
      schedules (db st') !! i = Some s)) /\
  (forall j, jobs st' !! j = jobs st !! j \/
     jobs st' !! j = None /\
     exists s e, s ∈ schedules (db st) /\ schedule_status s = ACTIVE /\
       expires_at s = Some e /\ e <= now /\ j = job_id_of (schedule_id s)).
Proof.
  unfold _check_expired_windows, now_ist. cbv zeta.
  pose proof (expire_windows_spec (clock world (ticks st) + IST_OFFSET)
                (schedules (db st)) (tick st)) as Hs.
  change (db (tick st)) with (db st).
  destruct (expire_windows (clock world (ticks st) + IST_OFFSET)
              (schedules (db st)) (tick st)) as [st1 rows'].
  simpl in Hs. destruct Hs as (Hdb & Ht & Hsent & _ & Hrows & Hjobs & Hgone).
  simpl. rewrite Hdb, Ht, Hsent, Hrows. simpl.
  split; [reflexivity|]. split; [reflexivity|]. split; [reflexivity|].
  split; [reflexivity|]. split; [apply length_map|].
  assert (Hwin : forall s, window_expired
                             (clock world (ticks st) + IST_OFFSET) s = true
                           <-> schedule_status s = ACTIVE /\
                               exists e, expires_at s = Some e /\
                               e <= clock world (ticks st) + IST_OFFSET).
  { intros s. unfold window_expired. rewrite andb_true_iff.
    rewrite bool_decide_eq_true. destruct (expires_at s) as [e|].
    - rewrite Z.leb_le. split.
      + intros [Ha Hle]. split; [exact Ha|]. eauto.
      + intros [Ha (e' & He & Hle)]. inversion He; subst. auto.
    - split; [intros [_ Hx]; discriminate|].
      intros [_ (e' & He & _)]. discriminate. }
  split.
  - intros i s Hi. split.
    + intros e Hact He Hle.
      assert (Hw : window_expired (clock world (ticks st) + IST_OFFSET) s
                   = true) by (apply Hwin; eauto).
      split.
      * rewrite (map_lookup_Some _ _ _ _ Hi), Hw. reflexivity.
      * apply Hgone; [|exact Hw]. eapply list_elem_of_lookup_2. exact Hi.
    + intros Hcase.
      assert (Hw : window_expired (clock world (ticks st) + IST_OFFSET) s
                   = false).
      { destruct (window_expired (clock world (ticks st) + IST_OFFSET) s)
          eqn:Hw; [|reflexivity].
        apply Hwin in Hw as [Ha (e & He & Hle)].
        destruct Hcase as [Hx|[Hx|(e' & He' & Hlt)]];
          [contradiction | congruence |].
        rewrite He in He'. inversion He'; subst. lia. }
      rewrite (map_lookup_Some _ _ _ _ Hi), Hw. reflexivity.
  - intros j. destruct (Hjobs j) as [Hj|(Hj & s & Hin & Hw & Heq)].
    + left. exact Hj.
    + right. split; [exact Hj|].
      apply Hwin in Hw as [Ha (e & He & Hle)]. exists s, e. auto.
Qed.

Lemma job_id_of_inj (a b : string) : job_id_of a = job_id_of b -> a = b.
Proof. unfold job_id_of. apply (inj (String.app "schedule_")). Qed.

Lemma recovered_row_mono (t t1 t1' t' : nat) (s s' : Schedule) :
  (t <= t1)%nat -> (t1' <= t')%nat ->
  recovered_row world t1 t1' s s' -> recovered_row world t t' s s'.
Proof.
  intros H1 H2 [Hna Hact]. split; [exact Hna|]. intros Ha.
  destruct (Hact Ha) as [(Hs & Hm & Hopen)|(Hs & Hwhy)].
  - left. split; [exact Hs|]. split; [exact Hm|]. intros e He.
    destruct (Hopen e He) as (k & Hk & Hlt). exists k. split; [lia|exact Hlt].
  - right. split; [exact Hs|].
    destruct Hwhy as [(e & k & He & Hk & Hle)|Hm]; [left|right; exact Hm].
    exists e, k. split; [exact He|]. split; [lia|exact Hle].
Qed.

Lemma recover_active_spec (rows : list Schedule) :
  forall c st,
    let st' := fst (fst (recover_active world rows c st)) in
    let rows' := snd (fst (recover_active world rows c st)) in
    db st' = db st /\ (ticks st <= ticks st')%nat /\ sent st' = sent st /\
    map schedule_id rows' = map schedule_id rows /\
    (forall i s, rows !! i = Some s ->
       exists s', rows' !! i = Some s' /\
                  recovered_row world (ticks st) (ticks st') s s') /\
    (forall j,
       (forall s', s' ∈ rows' -> schedule_status s' = ACTIVE ->
          job_id_of (schedule_id s') <> j) ->
       jobs st' !! j = jobs st !! j) /\
    (NoDup (map schedule_id rows) ->
     forall s' n, s' ∈ rows' -> schedule_status s' = ACTIVE ->
       schedule_type s' = INTERVAL -> interval_seconds s' = Some n ->
       jobs st' !! job_id_of (schedule_id s') = Some (IntervalTrigger n)).
Proof.
  induction rows as [|s rows IH]; intros c st.
  - simpl. repeat split; auto.
    + intros i s Hi. discriminate.
    + intros _ s' n Hin. inversion Hin.
  - (* what the tail gives, from any state the head leaves *)
    assert (Htail : forall c1 st1 s1,
              db st1 = db st -> (ticks st <= ticks st1)%nat ->
              sent st1 = sent st ->
              schedule_id s1 = schedule_id s ->
              recovered_row world (ticks st) (ticks st1) s s1 ->
              (schedule_status s1 <> ACTIVE /\ jobs st1 = jobs st \/
               schedule_status s1 = ACTIVE /\
               (forall j, j <> job_id_of (schedule_id s) ->
                  jobs st1 !! j = jobs st !! j) /\
               (forall n, schedule_type s1 = INTERVAL ->
                  interval_seconds s1 = Some n ->
                  jobs st1 !! job_id_of (schedule_id s)
                  = Some (IntervalTrigger n))) ->
              let st' := fst (fst (recover_active world rows c1 st1)) in
              let rows' := s1 :: snd (fst (recover_active world rows c1 st1))
              in
              db st' = db st /\ (ticks st <= ticks st')%nat /\
              sent st' = sent st /\
              map schedule_id rows' = map schedule_id (s :: rows) /\
              (forall i s0, (s :: rows) !! i = Some s0 ->
                 exists s', rows' !! i = Some s' /\
                            recovered_row world (ticks st) (ticks st') s0 s') /\
              (forall j,
                 (forall s', s' ∈ rows' -> schedule_status s' = ACTIVE ->
                    job_id_of (schedule_id s') <> j) ->
                 jobs st' !! j = jobs st !! j) /\
              (NoDup (map schedule_id (s :: rows)) ->
               forall s' n, s' ∈ rows' -> schedule_status s' = ACTIVE ->
                 schedule_type s' = INTERVAL -> interval_seconds s' = Some n ->
                 jobs st' !! job_id_of (schedule_id s')
                 = Some (IntervalTrigger n))).
    { intros c1 st1 s1 Hdb1 Ht1 Hs1 Hid1 Hrow1 Hjobs1.
      specialize (IH c1 st1). cbv zeta in IH.
      destruct (recover_active world rows c1 st1) as [[st2 rows2] c2].
      simpl in *.
      destruct IH as (Hdb & Ht & Hs & Hids & Hrows & Hframe & Hreg).
      split; [congruence|]. split; [lia|]. split; [congruence|].
      split; [rewrite Hid1, Hids; reflexivity|].
      split.
      { intros [|i] s0 Hi; simpl in Hi.
        - inversion Hi; subst s0. exists s1. split; [reflexivity|].
          apply (recovered_row_mono _ (ticks st) (ticks st1)); [lia|lia|].
          exact Hrow1.
        - destruct (Hrows i s0 Hi) as (s' & Hs' & Hrow). exists s'.
          split; [exact Hs'|].
          apply (recovered_row_mono _ (ticks st1) (ticks st2)); [lia|lia|].
          exact Hrow. }
      split.
      { intros j Hj. rewrite Hframe.
        - destruct Hjobs1 as [[_ ->]|(Ha & Hother & _)]; [reflexivity|].
          apply Hother. intros ->.
          apply (Hj s1); [left | exact Ha | rewrite Hid1; reflexivity].
        - intros s' Hin Ha. apply Hj; [right; exact Hin | exact Ha]. }
      intros Hnd s' n Hin Ha Hty Hn.
      apply NoDup_cons in Hnd as [Hfresh Hnd].
      apply elem_of_cons in Hin as [->|Hin].
      - destruct Hjobs1 as [[Hna _]|(_ & _ & Hmine)]; [contradiction|].
        rewrite Hid1. rewrite Hframe; [apply Hmine; assumption|].
        intros s' Hin' _ Heq. apply job_id_of_inj in Heq.
        apply Hfresh. rewrite <- Heq, <- Hids.
        apply list_elem_of_In, in_map, list_elem_of_In. exact Hin'.
      - apply Hreg; assumption. }
    simpl recover_active.
    destruct (decide (schedule_status s = ACTIVE)) as [Hact|Hna].
    2:{ specialize (Htail c st s eq_refl (le_n _) eq_refl eq_refl).
        cbv zeta in Htail.
        destruct (recover_active world rows c st) as [[st2 rows2] c2].
        apply Htail.
        - split; [auto|]. intros Ha. contradiction.
        - left. auto. }
    match goal with
    | |- context [match ?x with (_, _) => _ end] =>
        destruct x as [stW over] eqn:Hpre
    end.
    assert (HW : db stW = db st /\ sent stW = sent st /\ jobs stW = jobs st /\
                 (ticks st <= ticks stW)%nat /\
                 (over = true ->
                  exists e k, expires_at s = Some e /\
                    (ticks st <= k < ticks stW)%nat /\
                    e <= clock world k + IST_OFFSET) /\
                 (over = false ->
                  forall e, expires_at s = Some e ->
                    exists k, (ticks st <= k < ticks stW)%nat /\
                              clock world k + IST_OFFSET < e)).
    { destruct (expires_at s) as [e|]; inversion Hpre; subst; simpl.
      - split; [reflexivity|]. split; [reflexivity|].
        split; [reflexivity|]. split; [lia|]. split.
        + intros Ho. apply Z.leb_le in Ho. exists e, (ticks st).
          split; [reflexivity|]. split; [lia|exact Ho].
        + intros Ho e' He'. inversion He'; subst e'.
          apply Z.leb_gt in Ho. exists (ticks st). split; [lia|exact Ho].
      - split; [reflexivity|]. split; [reflexivity|].
        split; [reflexivity|]. split; [lia|].
        split; intros; discriminate. }
    clear Hpre.
    destruct HW as (HdbW & HsW & HjW & HtW & Hover & Hopen).
    assert (Hexpired : forall c1,
              (over = true \/ max_runs_reached s = true) ->
              let st' := fst (fst (recover_active world rows c1 stW)) in
              let rows' := set_schedule_status EXPIRED s
                           :: snd (fst (recover_active world rows c1 stW)) in
              db st' = db st /\ (ticks st <= ticks st')%nat /\
              sent st' = sent st /\
              map schedule_id rows' = map schedule_id (s :: rows) /\
              (forall i s0, (s :: rows) !! i = Some s0 ->
                 exists s', rows' !! i = Some s' /\
                   recovered_row world (ticks st) (ticks st') s0 s') /\
              (forall j,
                 (forall s', s' ∈ rows' -> schedule_status s' = ACTIVE ->
                    job_id_of (schedule_id s') <> j) ->
                 jobs st' !! j = jobs st !! j) /\
              (NoDup (map schedule_id (s :: rows)) ->
               forall s' n, s' ∈ rows' -> schedule_status s' = ACTIVE ->
                 schedule_type s' = INTERVAL -> interval_seconds s' = Some n ->
                 jobs st' !! job_id_of (schedule_id s')
                 = Some (IntervalTrigger n))).
    { intros c1 Hwhy.
      apply (Htail c1 stW (set_schedule_status EXPIRED s) HdbW HtW HsW
               eq_refl).
      - split; [intros Hx; contradiction|]. intros _. right.
        split; [reflexivity|].
        destruct Hwhy as [Ho|Hm]; [left; apply Hover; exact Ho | right].
        exact Hm.
      - left. split; [discriminate | exact HjW]. }
    destruct over.
    { specialize (Hexpired c (or_introl eq_refl)). cbv zeta in Hexpired.
      destruct (recover_active world rows c stW) as [[st2 rows2] c2].
      exact Hexpired. }
    destruct (max_runs_reached s) eqn:Hmax.
    { specialize (Hexpired c (or_intror eq_refl)). cbv zeta in Hexpired.
      destruct (recover_active world rows c stW) as [[st2 rows2] c2].
      exact Hexpired. }
    clear Hexpired.
    assert (Hkept : forall c1 stJ,
              db stJ = db stW -> ticks stJ = ticks stW ->
              sent stJ = sent stW ->
              (forall j, j <> job_id_of (schedule_id s) ->
                 jobs stJ !! j = jobs stW !! j) ->
              (forall n, schedule_type s = INTERVAL ->
                 interval_seconds s = Some n ->
                 jobs stJ !! job_id_of (schedule_id s)
                 = Some (IntervalTrigger n)) ->
              let st' := fst (fst (recover_active world rows c1 stJ)) in
              let rows' := s :: snd (fst (recover_active world rows c1 stJ))
              in
              db st' = db st /\ (ticks st <= ticks st')%nat /\
              sent st' = sent st /\
              map schedule_id rows' = map schedule_id (s :: rows) /\
              (forall i s0, (s :: rows) !! i = Some s0 ->
                 exists s', rows' !! i = Some s' /\
                   recovered_row world (ticks st) (ticks st') s0 s') /\
              (forall j,
                 (forall s', s' ∈ rows' -> schedule_status s' = ACTIVE ->
                    job_id_of (schedule_id s') <> j) ->
                 jobs st' !! j = jobs st !! j) /\
              (NoDup (map schedule_id (s :: rows)) ->
               forall s' n, s' ∈ rows' -> schedule_status s' = ACTIVE ->
                 schedule_type s' = INTERVAL -> interval_seconds s' = Some n ->
                 jobs st' !! job_id_of (schedule_id s')
                 = Some (IntervalTrigger n))).
    { intros c1 stJ HdbJ HtJ HsJ Hother Hmine.
      apply (Htail c1 stJ s); try congruence; try lia.
      - split; [intros Hx; contradiction|]. intros _. left.
        split; [reflexivity|]. split; [exact Hmax|].
        intros e He. destruct (Hopen eq_refl e He) as (k & Hk & Hlt).
        exists k. split; [lia | exact Hlt].
      - right. split; [exact Hact|]. split; [|exact Hmine].
        intros j Hj. rewrite (Hother j Hj), HjW. reflexivity. }
    unfold _add_job_for_schedule.
    destruct (schedule_type s) eqn:Hty.
    + destruct (interval_seconds s) as [n|] eqn:Hn.
      * specialize (Hkept (c + 1)
                      (set_jobs
                         (<[job_id_of (schedule_id s) := IntervalTrigger n]>
                            (jobs (set_jobs
                                     (delete (job_id_of (schedule_id s))
                                        (jobs stW)) stW)))
                         (set_jobs
                            (delete (job_id_of (schedule_id s)) (jobs stW))
                            stW))
                      eq_refl eq_refl eq_refl).
        cbv zeta in Hkept.
        match goal with
        | |- context [recover_active world rows (c + 1) ?X] =>
            destruct (recover_active world rows (c + 1) X)
              as [[st2 rows2] c2]
        end.
        apply Hkept.
        -- intros j Hj. simpl. rewrite lookup_insert_ne by congruence.
           apply lookup_delete_ne. congruence.
        -- intros n' _ Hn'. inversion Hn'; subst n'. simpl.
           apply lookup_insert_eq.
      * specialize (Hkept c
                      (set_jobs
                         (delete (job_id_of (schedule_id s)) (jobs stW)) stW)
                      eq_refl eq_refl eq_refl).
        cbv zeta in Hkept.
        match goal with
        | |- context [recover_active world rows c ?X] =>
            destruct (recover_active world rows c X) as [[st2 rows2] c2]
        end.
        apply Hkept.
        -- intros j Hj. simpl. apply lookup_delete_ne. congruence.
        -- intros n' _ Hn'. discriminate.
    + destruct (cron_expression s) as [e|] eqn:Hcron.
      * match goal with
        | |- context [recover_active world rows (c + 1) ?X] =>
            specialize (Hkept (c + 1) X eq_refl eq_refl eq_refl);
            cbv zeta in Hkept;
            destruct (recover_active world rows (c + 1) X)
              as [[st2 rows2] c2]
        end.
        apply Hkept.
        -- intros j Hj. simpl. rewrite lookup_insert_ne by congruence.
           apply lookup_delete_ne. congruence.
        -- intros n' Hx. discriminate.
      * specialize (Hkept c
                      (set_jobs
                         (delete (job_id_of (schedule_id s)) (jobs stW)) stW)
                      eq_refl eq_refl eq_refl).
        cbv zeta in Hkept.
        match goal with
        | |- context [recover_active world rows c ?X] =>
            destruct (recover_active world rows c X) as [[st2 rows2] c2]
        end.
        apply Hkept.
        -- intros j Hj. simpl. apply lookup_delete_ne. congruence.
        -- intros n' Hx. discriminate.
Qed.

Lemma sweep_orphans_frame (rows : list Run) :
  forall st,
    jobs (fst (sweep_orphans world rows st)) = jobs st /\
    sent (fst (sweep_orphans world rows st)) = sent st /\
    Forall (fun r => run_status r
                     ∈ [RunStatus.SUCCESS; RunStatus.FAILED;
                        RunStatus.TIMEOUT])
      (snd (sweep_orphans world rows st)).
Proof.
  induction rows as [|r rows IH]; intros st; simpl.
  - repeat split. constructor.
  - destruct (is_orphaned r) eqn:Ho.
    + specialize (IH (tick st)).
      destruct (sweep_orphans world rows (tick st)) as [st1 rows1].
      simpl in *. destruct IH as (Hj & Hs & Hall).
      split; [exact Hj|]. split; [exact Hs|]. constructor; [|exact Hall].
      simpl. rewrite !elem_of_cons. auto.
    + specialize (IH st).
      destruct (sweep_orphans world rows st) as [st1 rows1].
      simpl in *. destruct IH as (Hj & Hs & Hall).
      split; [exact Hj|]. split; [exact Hs|]. constructor; [|exact Hall].
      unfold is_orphaned in Ho. apply bool_decide_eq_false in Ho.
      rewrite !elem_of_cons, elem_of_nil in *.
      destruct (run_status r); tauto.
Qed.

Lemma _recover_orphaned_runs_frame (st : State) :
  let st0 := _recover_orphaned_runs world st in
  schedules (db st0) = schedules (db st) /\
  attempts (db st0) = attempts (db st) /\
  jobs st0 = jobs st /\ sent st0 = sent st /\
  (ticks st <= ticks st0)%nat /\
  length (runs (db st0)) = length (runs (db st)) /\
  Forall (fun r => run_status r
                   ∈ [RunStatus.SUCCESS; RunStatus.FAILED; RunStatus.TIMEOUT])
    (runs (db st0)).
Proof.
  unfold _recover_orphaned_runs.
  pose proof (sweep_orphans_spec world (runs (db st)) st) as Hs.
  pose proof (sweep_orphans_frame (runs (db st)) st) as Hf.
  simpl in Hs.
  destruct (sweep_orphans world (runs (db st)) st) as [st1 rows'].
  simpl in *. destruct Hs as (Hdb & Ht & Hlen & _).
  destruct Hf as (Hj & Hsent & Hall). rewrite Hdb. auto 10.
Qed.

(** X23: the recovery at start-up leaves no run [PENDING] or
    [RUNNING]: every run of the table is [SUCCESS], [FAILED] or
    [TIMEOUT] afterwards.  It keeps the table of schedules in place, row
    by row: a schedule that is not [ACTIVE] is unchanged; an [ACTIVE]
    schedule whose window is over at a clock reading taken during the
    recovery, or that has reached [max_runs], becomes [EXPIRED], its
    other columns as they were; any other [ACTIVE] schedule is unchanged,
    has not reached [max_runs] and had its window open at such a
    reading.  Attempts and requests are untouched. *)
Theorem _recover_schedules_spec (st : State) :
  let st' := fst (_recover_schedules world st) in
  Forall (fun r => run_status r
                   ∈ [RunStatus.SUCCESS; RunStatus.FAILED; RunStatus.TIMEOUT])
    (runs (db st')) /\
  length (runs (db st')) = length (runs (db st)) /\
  attempts (db st') = attempts (db st) /\ sent st' = sent st /\
  length (schedules (db st')) = length (schedules (db st)) /\
  forall i s, schedules (db st) !! i = Some s ->
    exists s', schedules (db st') !! i = Some s' /\
      (schedule_status s <> ACTIVE -> s' = s) /\
      (schedule_status s = ACTIVE ->
       (s' = s /\ max_runs_reached s = false /\
        forall e, expires_at s = Some e ->
          exists k, (ticks st <= k < ticks st')%nat /\
                    clock world k + IST_OFFSET < e)
       \/
       (s' = set_schedule_status EXPIRED s /\
        ((exists e k, expires_at s = Some e /\
                      (ticks st <= k < ticks st')%nat /\
                      e <= clock world k + IST_OFFSET)
         \/ max_runs_reached s = true))).
Proof.
  unfold _recover_schedules.
  pose proof (_recover_orphaned_runs_frame st) as Hf. cbv zeta in Hf.
  set (st0 := _recover_orphaned_runs world st) in *.
  destruct Hf as (Hsch & Hatt & Hj & Hsent & Ht & Hlen & Hterm).
  pose proof (recover_active_spec (schedules (db st0)) 0 st0) as Hr.
  cbv zeta in Hr.
  destruct (recover_active world (schedules (db st0)) 0 st0)
    as [[st1 rows'] c].
  simpl in *.
  destruct Hr as (Hdb & Ht1 & Hs1 & Hids & Hrows & _).
  rewrite Hdb.
  split; [exact Hterm|]. split; [exact Hlen|]. split; [exact Hatt|].
  split; [congruence|].
  split.
  { rewrite <- Hsch. apply (f_equal length) in Hids.
    rewrite !length_map in Hids. exact Hids. }
  intros i s Hi. rewrite <- Hsch in Hi.
  destruct (Hrows i s Hi) as (s' & Hs' & Hrow). exists s'.
  split; [exact Hs'|].
  apply (recovered_row_mono (ticks st) (ticks st0) (ticks st1) (ticks st1))
    in Hrow; [|lia|lia].
  exact Hrow.
Qed.

Lemma NoDup_map_inj_on {A B} (f : A -> B) (l : list A) (x y : A) :
  NoDup (map f l) -> x ∈ l -> y ∈ l -> f x = f y -> x = y.
Proof.
  intros Hnd Hx Hy Heq.
  apply list_elem_of_lookup in Hx as [i Hi].
  apply list_elem_of_lookup in Hy as [j Hj].
  assert (Hfi : map f l !! i = Some (f x)) by (apply map_lookup_Some; auto).
  assert (Hfj : map f l !! j = Some (f x))
    by (rewrite Heq; apply map_lookup_Some; auto).
  assert (i = j) by (eapply NoDup_lookup; eauto). subst j. congruence.
Qed.

(** X24: when no two schedules share an id, after the recovery at
    start-up every [ACTIVE] interval schedule has its interval trigger
    registered under its job id; the job of a schedule that is not
    [ACTIVE] afterwards (paused, deleted, or expired by the recovery) is
    as it was before, so absent from a job store that was empty; and so
    is every job that is not the job of a schedule still [ACTIVE]. *)
Theorem _recover_schedules_jobs (st : State) :
  NoDup (map schedule_id (schedules (db st))) ->
  let st' := fst (_recover_schedules world st) in
  (forall s' n, s' ∈ schedules (db st') ->
     schedule_status s' = ACTIVE ->
     schedule_type s' = INTERVAL -> interval_seconds s' = Some n ->
     jobs st' !! job_id_of (schedule_id s') = Some (IntervalTrigger n)) /\
  (forall s', s' ∈ schedules (db st') -> schedule_status s' <> ACTIVE ->
     jobs st' !! job_id_of (schedule_id s')
     = jobs st !! job_id_of (schedule_id s')) /\
  (forall j,
     (forall s', s' ∈ schedules (db st') -> schedule_status s' = ACTIVE ->
        job_id_of (schedule_id s') <> j) ->
     jobs st' !! j = jobs st !! j).
Proof.
  intros Hnd. unfold _recover_schedules.
  pose proof (_recover_orphaned_runs_frame st) as Hf. cbv zeta in Hf.
  set (st0 := _recover_orphaned_runs world st) in *.
  destruct Hf as (Hsch & Hatt & Hj & Hsent & Ht & Hlen & Hterm).
  pose proof (recover_active_spec (schedules (db st0)) 0 st0) as Hr.
  cbv zeta in Hr.
  destruct (recover_active world (schedules (db st0)) 0 st0)
    as [[st1 rows'] c].
  simpl in *.
  destruct Hr as (Hdb & Ht1 & Hs1 & Hids & Hrows & Hframe & Hreg).
  rewrite Hsch in Hids, Hreg. rewrite Hj in Hframe.
  split; [|split].
  - intros s' n Hin Ha Hty Hn. apply (Hreg Hnd s' n); assumption.
  - intros s' Hin Hna. apply Hframe.
    intros s'' Hin'' Ha'' Heq. apply job_id_of_inj in Heq.
    assert (s'' = s').
    { apply (NoDup_map_inj_on schedule_id rows'); try assumption.
      rewrite Hids. exact Hnd. }
    subst s''. contradiction.
  - intros j Hjn. apply Hframe. exact Hjn.
Qed.

(** X25: registering the job of a schedule replaces the job under its
    id and touches no other job nor anything else of the state: an
    interval schedule gets the interval trigger of its
    [interval_seconds], a cron schedule the cron trigger of the first
    five blank-separated fields of its expression, a missing field being
    [*].  When the cadence is missing the registration raises, and the
    job that was there has already been removed.  Removing the job after
    a registration leaves the store as removing it before would, and
    removing a job that is not there changes nothing. *)
Theorem _add_job_for_schedule_spec (schedule : Schedule) (st : State) :
  let j := job_id_of (schedule_id schedule) in
  let st' := fst (_add_job_for_schedule schedule st) in
  db st' = db st /\ sent st' = sent st /\ ticks st' = ticks st /\
  running_jobs st' = running_jobs st /\
  (forall j', j' <> j -> jobs st' !! j' = jobs st !! j') /\
  match snd (_add_job_for_schedule schedule st) with
  | Ok _ =>
      match schedule_type schedule with
      | INTERVAL =>
          exists n, interval_seconds schedule = Some n /\
                    jobs st' !! j = Some (IntervalTrigger n)
      | CRON =>
          exists e, cron_expression schedule = Some e /\
            jobs st' !! j
            = Some (CronTrigger (nth 0 (split e) "*") (nth 1 (split e) "*")
                      (nth 2 (split e) "*") (nth 3 (split e) "*")
                      (nth 4 (split e) "*"))
      end
  | Raise e =>
      jobs st' !! j = None /\
      match schedule_type schedule with
      | INTERVAL => interval_seconds schedule = None /\ e = TypeError
      | CRON => cron_expression schedule = None /\ e = AttributeError
      end
  end /\
  jobs (_remove_job_for_schedule (schedule_id schedule) st')
  = jobs (_remove_job_for_schedule (schedule_id schedule) st) /\
  (jobs st !! j = None ->
   _remove_job_for_schedule (schedule_id schedule) st = st).
Proof.
  cbv zeta. unfold _add_job_for_schedule, _remove_job_for_schedule.
  assert (Hnone : jobs st !! job_id_of (schedule_id schedule) = None ->
            set_jobs (delete (job_id_of (schedule_id schedule)) (jobs st)) st
            = st).
  { intros Hn. destruct st as [t s u sl d j r]. unfold set_jobs. simpl in *.
    f_equal. apply delete_id. exact Hn. }
  destruct (schedule_type schedule).
  - destruct (interval_seconds schedule) as [n|]; simpl.
    + repeat split; auto.
      * intros j' Hj. rewrite lookup_insert_ne by congruence.
        apply lookup_delete_ne. congruence.
      * exists n. split; [reflexivity | apply lookup_insert_eq].
      * rewrite delete_insert_eq. apply delete_delete_eq.
    + repeat split; auto.
      * intros j' Hj. apply lookup_delete_ne. congruence.
      * apply lookup_delete_eq.
      * apply delete_delete_eq.
  - destruct (cron_expression schedule) as [e|]; simpl.
    + repeat split; auto.
      * intros j' Hj. rewrite lookup_insert_ne by congruence.
        apply lookup_delete_ne. congruence.
      * exists e. split; [reflexivity | apply lookup_insert_eq].
      * rewrite delete_insert_eq. apply delete_delete_eq.
    + repeat split; auto.
      * intros j' Hj. apply lookup_delete_ne. congruence.
      * apply lookup_delete_eq.
      * apply delete_delete_eq.
Qed.

End EngineFacts.

(* ===================================================================== *)
(** * More of the properties at work in the concrete world                *)
(* ===================================================================== *)

(** [_execute_schedule_not_active] on the paused schedule [s2]. *)
Lemma paused_schedule_is_not_fired :
  _execute_schedule Scenario.healthy Scenario.int_of_digits Scenario.no_cron
    Settings_defaults "s2" Scenario.idle
  = Scenario.idle.
Proof.
  apply (_execute_schedule_not_active Scenario.healthy
           Scenario.int_of_digits Scenario.no_cron Settings_defaults "s2"
           Scenario.idle).
  intros s Hin Hid. simpl in Hin.
  rewrite !elem_of_cons, elem_of_nil in Hin.
  destruct Hin as [->|[->|[->|[]]]]; simpl in *; discriminate.
Defined.

(** [_execute_schedule_expires_on_entry] on the schedule whose window
    ended a second before the clock reading. *)
Lemma overdue_schedule_is_expired :
  schedules
    (db (_execute_schedule Scenario.healthy Scenario.int_of_digits
           Scenario.no_cron Settings_defaults "s4" Situations.overdue))
  = replaced (set_schedule_status EXPIRED Situations.overdue_schedule)
      (schedules (db Situations.overdue)) /\
  runs
    (db (_execute_schedule Scenario.healthy Scenario.int_of_digits
           Scenario.no_cron Settings_defaults "s4" Situations.overdue))
  = runs (db Situations.overdue) /\
  attempts
    (db (_execute_schedule Scenario.healthy Scenario.int_of_digits
           Scenario.no_cron Settings_defaults "s4" Situations.overdue))
  = attempts (db Situations.overdue) /\
  jobs (_execute_schedule Scenario.healthy Scenario.int_of_digits
          Scenario.no_cron Settings_defaults "s4" Situations.overdue)
  = delete (job_id_of "s4") (jobs Situations.overdue) /\
  jobs (_execute_schedule Scenario.healthy Scenario.int_of_digits
          Scenario.no_cron Settings_defaults "s4" Situations.overdue)
  !! job_id_of "s4" = None /\
  sent (_execute_schedule Scenario.healthy Scenario.int_of_digits
          Scenario.no_cron Settings_defaults "s4" Situations.overdue)
  = sent Situations.overdue /\
  running_jobs
    (_execute_schedule Scenario.healthy Scenario.int_of_digits
       Scenario.no_cron Settings_defaults "s4" Situations.overdue)
  = running_jobs Situations.overdue.
Proof.
  apply (_execute_schedule_expires_on_entry Scenario.healthy
           Scenario.int_of_digits Scenario.no_cron Settings_defaults "s4"
           Situations.overdue Situations.overdue_schedule).
  - simpl. apply not_elem_of_empty.
  - vm_compute. reflexivity.
  - reflexivity.
  - left. exists (Scenario.T0 + IST_OFFSET - timedelta_seconds 1).
    split; [reflexivity|]. vm_compute. discriminate.
Defined.

(** [_execute_schedule_run_times] on the first firing of [s1]: the run
    is scheduled at 16:00:45 IST and started at 10:30:45 UTC. *)
Lemma first_run_times :
  exists k kc,
    (ticks Scenario.fresh <= k)%nat /\ (S k < kc)%nat /\
    scheduled_at Situations.first_run
    = clock Scenario.healthy k + IST_OFFSET /\
    run_started_at Situations.first_run
    = Some (clock Scenario.healthy (S k)) /\
    run_completed_at Situations.first_run
    = Some (clock Scenario.healthy kc) /\
    clock Scenario.healthy (S k) <= clock Scenario.healthy kc /\
    scheduled_at Situations.first_run
    <= clock Scenario.healthy (S k) + IST_OFFSET.
Proof.
  apply (_execute_schedule_run_times Scenario.healthy Scenario.int_of_digits
           Scenario.no_cron Settings_defaults "s1" Scenario.fresh
           Situations.first_run).
  - intros i j Hij. simpl. unfold Scenario.steady_clock. lia.
  - vm_compute. reflexivity.
Defined.

(** [_execute_schedule_keeps_runs_finished] on the first firing of
    [s1], over an empty table of runs. *)
Lemma first_run_is_finished :
  Forall finished (runs (db Scenario.fresh)) /\
  Forall finished
    (runs (db (_execute_schedule Scenario.healthy Scenario.int_of_digits
                 Scenario.no_cron Settings_defaults "s1" Scenario.fresh))).
Proof.
  assert (H : Forall finished (runs (db Scenario.fresh))) by constructor.
  split; [exact H|].
  apply (_execute_schedule_keeps_runs_finished Scenario.healthy
           Scenario.int_of_digits Scenario.no_cron Settings_defaults "s1"
           Scenario.fresh H).
Defined.

(** [_execute_schedule_attempts_numbered] on the first firing of
    [s1]. *)
Lemma first_run_attempts_numbered :
  attempts_owned
    (db (_execute_schedule Scenario.healthy Scenario.int_of_digits
           Scenario.no_cron Settings_defaults "s1" Scenario.fresh)) /\
  attempts_numbered
    (db (_execute_schedule Scenario.healthy Scenario.int_of_digits
           Scenario.no_cron Settings_defaults "s1" Scenario.fresh)).
Proof.
  apply (_execute_schedule_attempts_numbered Scenario.healthy
           Scenario.int_of_digits Scenario.no_cron Settings_defaults "s1"
           Scenario.fresh).
  - intros a Ha. simpl in Ha. inversion Ha.
  - intros r Hr. simpl in Hr. inversion Hr.
Defined.

(** [pause_then_resume] on [every_minute]. *)
Lemma every_minute_paused_and_resumed :
  snd (Routes.resume_schedule Scenario.healthy Scenario.no_cron "s1"
         (fst (Routes.pause_schedule "s1" Scenario.fresh)))
  = Returned
      (set_next_run_at
         (Some (clock Scenario.healthy (ticks Scenario.fresh) + IST_OFFSET
                + timedelta_seconds 60))
         Scenario.every_minute) /\
  schedules
    (db (fst (Routes.resume_schedule Scenario.healthy Scenario.no_cron "s1"
                (fst (Routes.pause_schedule "s1" Scenario.fresh)))))
  = replaced
      (set_next_run_at
         (Some (clock Scenario.healthy (ticks Scenario.fresh) + IST_OFFSET
                + timedelta_seconds 60))
         Scenario.every_minute)
      (schedules (db Scenario.fresh)) /\
  runs
    (db (fst (Routes.resume_schedule Scenario.healthy Scenario.no_cron "s1"
                (fst (Routes.pause_schedule "s1" Scenario.fresh)))))
  = runs (db Scenario.fresh) /\
  attempts
    (db (fst (Routes.resume_schedule Scenario.healthy Scenario.no_cron "s1"
                (fst (Routes.pause_schedule "s1" Scenario.fresh)))))
  = attempts (db Scenario.fresh) /\
  jobs (fst (Routes.resume_schedule Scenario.healthy Scenario.no_cron "s1"
               (fst (Routes.pause_schedule "s1" Scenario.fresh))))
  !! job_id_of "s1" = Some (IntervalTrigger 60) /\
  (forall j, j <> job_id_of "s1" ->
     jobs (fst (Routes.resume_schedule Scenario.healthy Scenario.no_cron
                  "s1" (fst (Routes.pause_schedule "s1" Scenario.fresh))))
     !! j = jobs Scenario.fresh !! j).
Proof.
  apply (pause_then_resume Scenario.healthy Scenario.no_cron "s1"
           Scenario.fresh Scenario.every_minute 60); reflexivity.
Defined.

(** [add_schedule_window] on a new schedule with a window of one
    hour. *)
Lemma new_schedule_added :
  (forall t, schedule_started_at Situations.new_schedule = Some t ->
     schedule_started_at Situations.added_schedule = Some t) /\
  (schedule_started_at Situations.new_schedule = None ->
   schedule_started_at Situations.added_schedule
   = Some (clock Scenario.healthy (ticks Scenario.fresh) + IST_OFFSET)) /\
  (forall e, expires_at Situations.new_schedule = Some e ->
     expires_at Situations.added_schedule = Some e) /\
  (expires_at Situations.new_schedule = None ->
   forall d, duration_seconds Situations.new_schedule = Some d -> d <> 0 ->
     exists t, schedule_started_at Situations.added_schedule = Some t /\
               expires_at Situations.added_schedule
               = Some (t + timedelta_seconds d)) /\
  (expires_at Situations.new_schedule = None ->
   duration_seconds Situations.new_schedule = None \/
   duration_seconds Situations.new_schedule = Some 0 ->
   expires_at Situations.added_schedule = None) /\
  is_Some (next_run_at Situations.added_schedule) /\
  is_Some
    (jobs (fst (add_schedule Scenario.healthy Scenario.no_cron
                  Situations.new_schedule Scenario.fresh))
     !! job_id_of (schedule_id Situations.new_schedule)) /\
  schedule_id Situations.added_schedule
  = schedule_id Situations.new_schedule /\
  schedule_status Situations.added_schedule
  = schedule_status Situations.new_schedule /\
  run_count Situations.added_schedule = run_count Situations.new_schedule /\
  db (fst (add_schedule Scenario.healthy Scenario.no_cron
             Situations.new_schedule Scenario.fresh))
  = db Scenario.fresh.
Proof.
  apply (add_schedule_window Scenario.healthy Scenario.no_cron
           Situations.new_schedule Scenario.fresh).
  reflexivity.
Defined.

(** [_recover_schedules_jobs] after a crash. *)
Lemma jobs_after_a_crash :
  (forall s' n,
     s' ∈ schedules (db (fst (_recover_schedules Scenario.healthy
                                 Scenario.idle))) ->
     schedule_status s' = ACTIVE ->
     schedule_type s' = INTERVAL -> interval_seconds s' = Some n ->
     jobs (fst (_recover_schedules Scenario.healthy Scenario.idle))
     !! job_id_of (schedule_id s') = Some (IntervalTrigger n)) /\
  (forall s',
     s' ∈ schedules (db (fst (_recover_schedules Scenario.healthy
                                 Scenario.idle))) ->
     schedule_status s' <> ACTIVE ->
     jobs (fst (_recover_schedules Scenario.healthy Scenario.idle))
     !! job_id_of (schedule_id s')
     = jobs Scenario.idle !! job_id_of (schedule_id s')) /\
  (forall j,
     (forall s',
        s' ∈ schedules (db (fst (_recover_schedules Scenario.healthy
                                   Scenario.idle))) ->
        schedule_status s' = ACTIVE ->
        job_id_of (schedule_id s') <> j) ->
     jobs (fst (_recover_schedules Scenario.healthy Scenario.idle)) !! j
     = jobs Scenario.idle !! j).
Proof.
  apply (_recover_schedules_jobs Scenario.healthy Scenario.idle).
  simpl. repeat constructor; rewrite ?elem_of_cons, ?elem_of_nil;
    intuition discriminate.
Defined.

(** Computed: the recovery after a crash fails the run in flight,
    leaves the three schedules as they are and registers the job of the
    active one. *)
Example recovery_after_a_crash :
  let st := fst (_recover_schedules Scenario.healthy Scenario.idle) in
  map run_status (runs (db st)) = [RunStatus.FAILED] /\
  map schedule_status (schedules (db st)) = [ACTIVE; PAUSED; PAUSED] /\
  jobs st !! "schedule_s1" = Some (IntervalTrigger 60) /\
  jobs st !! "schedule_s2" = None /\
  snd (_recover_schedules Scenario.healthy Scenario.idle) = 1.
Proof. vm_compute. repeat split. Qed.
